(** * mortar: decoding of HGP model containers

    A shallow embedding of the two mesh walkers of the mortar engine,

    - [HGPModel::processMesh] and the constructor [HGPModel::HGPModel]
      (hgp.cpp), which walk a file loaded whole into a heap block through
      raw pointers, and
    - [Mortar::LSW::processMesh] with [readMeshInfo] and [readChunkInfo]
      (lsw), which walk the same records through seek/read calls on a
      stream,

    followed by the properties of the decoder that the design document
    states about them. *)

From Stdlib Require Import ZArith List Lia Bool.
From Stdlib.Strings Require Import Byte.
From stdpp Require Import base list.
Import ListNotations.
Local Open Scope Z_scope.

(** ** Outcomes

    The C++ code has no error channel of its own.  What can go wrong is
    - an access outside the object it addresses (a heap block, a
      [std::vector]): the code performs it unchecked, which C++ leaves
      undefined: [Undefined];
    - a read the stream refuses: [BoundsError];
    - a chain of records that never reaches its terminal: the loops are run
      with a bound on their iterations, and [OutOfFuel] says the bound was
      reached. *)

Inductive fault : Type :=
| Undefined
| BoundsError
| OutOfFuel.

Inductive result (A : Type) : Type :=
| Ok (a : A)
| Fail (f : fault).
Arguments Ok {A} a.
Arguments Fail {A} f.

Definition bind {A B : Type} (r : result A) (k : A -> result B) : result B :=
  match r with
  | Ok a => k a
  | Fail f => Fail f
  end.

Notation "'let*' p ':=' e 'in' k" := (bind e (fun p => k))
  (at level 10, p pattern, e at level 200, k at level 200).


(** ** Fixed-width integers *)

Definition u32 (z : Z) : Z := z mod 2 ^ 32.

(** Conversion of a 32-bit pattern to [int] (two's complement). *)
Definition to_int (z : Z) : Z :=
  let m := z mod 2 ^ 32 in if m <? 2 ^ 31 then m else m - 2 ^ 32.

(** [int16_t] and [int8_t] fields, from their bit pattern. *)
Definition to_int16 (z : Z) : Z :=
  let m := z mod 2 ^ 16 in if m <? 2 ^ 15 then m else m - 2 ^ 16.

Definition to_int8 (z : Z) : Z :=
  let m := z mod 2 ^ 8 in if m <? 2 ^ 7 then m else m - 2 ^ 8.

(** ** Bytes *)

Definition byte_val (b : byte) : Z := Z.of_N (Byte.to_N b).

Definition byte_of_Z (z : Z) : byte :=
  match Byte.of_N (Z.to_N (z mod 256)) with
  | Some b => b
  | None => Byte.x00
  end.

(** Little-endian value of a run of bytes (the host of the bulk reader is
    taken to be little-endian, as the file is). *)
Fixpoint le_decode (bs : list byte) : Z :=
  match bs with
  | [] => 0
  | b :: bs' => byte_val b + 256 * le_decode bs'
  end.

(** The [n] bytes at offset [a] of [buf], when all of them lie in [buf]. *)
Definition slice (buf : list byte) (a : Z) (n : nat) : option (list byte) :=
  if (0 <=? a) && (a + Z.of_nat n <=? Z.of_nat (length buf))
  then Some (take n (drop (Z.to_nat a) buf))
  else None.

(** Consecutive 16-bit little-endian values. *)
Fixpoint decode16s (bs : list byte) : list Z :=
  match bs with
  | b0 :: b1 :: bs' => le_decode [b0; b1] :: decode16s bs'
  | _ => []
  end.

(** [std::vector::operator[]] with an [int] index: the index is converted
    to [size_type], so a negative one is as far out of range as a large
    one; no check is made. *)
Definition vec_at {A : Type} (v : list A) (i : Z) : result A :=
  if i <? 0 then Fail Undefined
  else match v !! Z.to_nat i with
       | Some x => Ok x
       | None => Fail Undefined
       end.

Definition vec_set {A : Type} (v : list A) (i : Z) (f : A -> A) : result (list A) :=
  let* x := vec_at v i in Ok (<[Z.to_nat i := f x]> v).

(** ** The output model

    model.hpp is not among the sources; the records below have the fields
    the decoders assign. *)

(** What the decoders print on standard error. *)
Inductive stderr_line : Type :=
| UnknownVertexType (vertex_type : Z)  (* "Unknown vertex type %d\n" *)
| StrError.                            (* "%s\n" of strerror(errno) *)

Module Model.

Record VertexBuffer : Type := {
  size : Z;
  data : list byte;
  stride : Z
}.

Definition set_stride (s : Z) (vb : VertexBuffer) : VertexBuffer :=
  {| size := size vb; data := data vb; stride := s |}.

(** Red, green and blue are [float]s that are only copied: they are kept
    as their 32-bit patterns. *)
Record Material : Type := {
  red : Z;
  green : Z;
  blue : Z;
  alpha : Z;
  texture_idx : Z
}.

Section WithMatrix.
Context {Matrix Texture : Type}.

Record Chunk : Type := {
  vertex_buffer_idx : Z;
  material_idx : Z;
  primitive_type : Z;
  num_elements : Z;
  transformation : Matrix;
  element_buffer : list Z
}.

Record Model : Type := {
  textures : list Texture;
  materials : list Material;
  vertexBuffers : list VertexBuffer;
  chunks : list Chunk
}.

(** Modelled from the spec: the default constructor [Model::Model()],
    absent from the sources; the Model "owns" its four arrays, and
    nothing is in them before the decoder fills them. *)
Definition empty : Model :=
  {| textures := []; materials := []; vertexBuffers := []; chunks := [] |}.

(** Modelled from the spec: [Model::addChunk], absent from the sources;
    the walker "appends to the Model's chunk list". *)
Definition addChunk (m : Model) (c : Chunk) : Model :=
  {| textures := textures m; materials := materials m;
     vertexBuffers := vertexBuffers m; chunks := chunks m ++ [c] |}.

(** Modelled from the spec: the setters [setTextures], [setMaterials]
    and [setVertexBuffers], absent from the sources; each attaches the
    array it is given. *)
Definition setTextures (m : Model) (t : list Texture) : Model :=
  {| textures := t; materials := materials m;
     vertexBuffers := vertexBuffers m; chunks := chunks m |}.

Definition setMaterials (m : Model) (ms : list Material) : Model :=
  {| textures := textures m; materials := ms;
     vertexBuffers := vertexBuffers m; chunks := chunks m |}.

Definition setVertexBuffers (m : Model) (vbs : list VertexBuffer) : Model :=
  {| textures := textures m; materials := materials m;
     vertexBuffers := vbs; chunks := chunks m |}.
End WithMatrix.

Arguments Chunk : clear implicits.
Arguments Model : clear implicits.
End Model.

(** The state a mesh walker works on: the model it appends chunks to, the
    vertex-buffer vector it is handed by reference, and standard error. *)
Record walk {Matrix Texture : Type} : Type := {
  model : Model.Model Matrix Texture;
  vbufs : list Model.VertexBuffer;
  stderr : list stderr_line
}.
Arguments walk : clear implicits.

Section WalkState.
Context {Matrix Texture : Type}.
Local Abbreviation walk := (walk Matrix Texture).

Definition print (l : stderr_line) (w : walk) : walk :=
  {| model := model w; vbufs := vbufs w; stderr := stderr w ++ [l] |}.

Definition with_vbufs (vbs : list Model.VertexBuffer) (w : walk) : walk :=
  {| model := model w; vbufs := vbs; stderr := stderr w |}.

Definition emit (c : Model.Chunk Matrix) (w : walk) : walk :=
  {| model := Model.addChunk (model w) c; vbufs := vbufs w; stderr := stderr w |}.

(** The [switch] on the vertex type, textually the same in both walkers:
    the stride, and a line on standard error in the [default] case. *)
Definition stride_of (vertex_type : Z) (w : walk) : Z * walk :=
  if vertex_type =? 89 then (36, w)
  else if vertex_type =? 93 then (56, w)
  else (0, print (UnknownVertexType vertex_type) w).
End WalkState.

(** ** The bulk walker (hgp.cpp)

    The file is read whole into a heap block [buf]; a pointer into it is
    the offset it has inside the block.  Dereferencing reads the block
    unchecked: outside the block the behaviour is undefined. *)

Module HGP.

Definition BODY_OFFSET : Z := 0x30.

(** The records of the file are read through packed C structs.  With
    [uint32_t] and [float] of 4 bytes, [uint16_t] and [int16_t] of 2 and
    [uint8_t] and [int8_t] of 1, the fields the decoder reads lie at these
    offsets of their records:
    - [HGPHeader]: [texture_header_offset] 0x08, [material_header_offset]
      0x0C, [vertex_header_offset] 0x14, [model_header_offset] 0x18;
    - [HGPModelHeader]: [mesh_tree_offset] 0x14, [transformations_offset]
      0x18, [static_transformations_offset] 0x1C, [layer_header_offset]
      0x24, [num_meshes] 0x7C, [num_layers] 0x7E;
    - [HGPVertexHeader]: [num_vertex_blocks] 0, [blocks[i]] at 16 + 12 i
      with [size] 0 and [offset] 8;
    - [HGPTextureHeader]: [texture_block_offset] 0, [num_textures] 8,
      [texture_block_headers[i].offset] at 0x1C + 20 i;
    - [HGPLayerHeader], 20 bytes: [mesh_header_list_offsets[j]] at 4 + 4 j;
    - [HGPMeshHeader]: [mesh_offset] 12;
    - [HGPMesh]: [next_offset] 0, [material_idx] 8, [vertex_type] 12,
      [vertex_buffer_idx] 28, [chunk_offset] 48;
    - [HGPChunk]: [next_offset] 0, [primitive_type] 4, [num_elements] 8,
      [elements_offset] 12;
    - [HGPMaterialHeader]: [num_materials] 0, [material_offsets[i]] at
      4 + 4 i;
    - [HGPMaterial]: [red] 0x54, [green] 0x58, [blue] 0x5C, [alpha] 0x74,
      [texture_idx] 0x78;
    - [HGPMeshTreeNode], 96 bytes: [transformation_mtx] 0 (a [Matrix] is
      64 bytes), [parent_idx] 0x50. *)

(** [#define OFFSET(off) (body + off)]: pointer arithmetic, on [char *].
    The macro does not parenthesise its argument: [OFFSET(a + b)] is
    [body + a + b], a pointer moved twice, and no 32-bit sum is formed. *)
Definition OFFSET (body off : Z) : Z := body + off.

Definition load (buf : list byte) (p : Z) (n : nat) : result (list byte) :=
  match slice buf p n with
  | Some bs => Ok bs
  | None => Fail Undefined
  end.

Definition load32 (buf : list byte) (p : Z) : result Z :=
  let* bs := load buf p 4 in Ok (le_decode bs).

Definition load16 (buf : list byte) (p : Z) : result Z :=
  let* bs := load buf p 2 in Ok (le_decode bs).

Definition load8 (buf : list byte) (p : Z) : result Z :=
  let* bs := load buf p 1 in Ok (le_decode bs).

(** [memcpy(dst, p, n)] out of the block; a copy of no bytes reads
    nothing. *)
Definition memcpy (buf : list byte) (p : Z) (n : Z) : result (list byte) :=
  if n =? 0 then Ok [] else load buf p (Z.to_nat n).

(** The copy of [n] 16-bit elements into a chunk's element buffer. *)
Definition load16s (buf : list byte) (p : Z) (n : Z) : result (list Z) :=
  let* bs := memcpy buf p (n * 2) in Ok (decode16s bs).

Section Walker.
Context {Matrix Texture : Type}.
Local Abbreviation walk := (walk Matrix Texture).

Variable buf : list byte.
Variable body : Z.
Variable transform : Matrix.

(** The inner [do ... while] of [processMesh], on the chunk record that
    [chunk_data] points to.  [fuel] bounds the iterations.  The loop goes
    on while [next_offset] is not 0: the second operand of its [&&] is the
    new pointer [body + next_offset], which is not null. *)
Fixpoint chunk_loop (fuel : nat) (mesh : Z) (vertex_buffer_idx : Z)
    (chunk_data : Z) (w : walk) : result walk :=
  match fuel with
  | O => Fail OutOfFuel
  | S fuel' =>
      let* material_idx := load32 buf (mesh + 8) in
      let* primitive_type := load32 buf (chunk_data + 4) in
      let* num_elements := load16 buf (chunk_data + 8) in
      let* elements_offset := load32 buf (chunk_data + 12) in
      let* element_buffer := load16s buf (OFFSET body elements_offset) num_elements in
      let chunk :=
        {| Model.vertex_buffer_idx := vertex_buffer_idx;
           Model.material_idx := material_idx;
           Model.primitive_type := primitive_type;
           Model.num_elements := num_elements;
           Model.transformation := transform;
           Model.element_buffer := element_buffer |} in
      let w' := emit chunk w in
      let* next_offset := load32 buf chunk_data in
      if next_offset =? 0 then Ok w'
      else chunk_loop fuel' mesh vertex_buffer_idx (OFFSET body next_offset) w'
  end.

(** The head of the outer loop's body: the stride of the mesh's vertex
    type, stored in the vertex buffer the mesh names (1-based). *)
Definition mesh_prologue (mesh : Z) (w : walk) : result (Z * walk) :=
  let* vertex_type := load32 buf (mesh + 12) in
  let '(stride, w1) := stride_of vertex_type w in
  let* vbi := load32 buf (mesh + 28) in
  let vertex_buffer_idx := to_int (vbi - 1) in
  let* vbs := vec_set (vbufs w1) vertex_buffer_idx (Model.set_stride stride) in
  Ok (vertex_buffer_idx, with_vbufs vbs w1).

(** The outer [do ... while], on the mesh record that [mesh] points to;
    every chunk chain gets the same bound as the mesh chain. *)
Fixpoint mesh_loop (fuel : nat) (mesh : Z) (w : walk) : result walk :=
  match fuel with
  | O => Fail OutOfFuel
  | S fuel' =>
      let* (vertex_buffer_idx, w2) := mesh_prologue mesh w in
      let* chunk_offset := load32 buf (mesh + 48) in
      let* w3 := chunk_loop fuel mesh vertex_buffer_idx (OFFSET body chunk_offset) w2 in
      let* next_offset := load32 buf mesh in
      if next_offset =? 0 then Ok w3
      else mesh_loop fuel' (OFFSET body next_offset) w3
  end.

Definition processMesh (fuel : nat) (mesh_header_offset : Z) (w : walk)
    : result walk :=
  if mesh_header_offset =? 0 then Ok w
  else
    let mesh_header := OFFSET body mesh_header_offset in
    let* mesh_offset := load32 buf (mesh_header + 12) in
    if mesh_offset =? 0 then Ok w
    else mesh_loop fuel (OFFSET body mesh_offset) w.
End Walker.

(** [for (int i = 0; i < n; i++) body], threading the state the body
    works on. *)
Fixpoint for_loop {S : Type} (n : nat) (i : Z) (body : Z -> S -> result S)
    (s : S) : result S :=
  match n with
  | O => Ok s
  | S n' => let* s' := body i s in for_loop n' (i + 1) body s'
  end.

(** The re-indexing of a material's texture reference; [texture_idx] is
    the [int16_t] field, promoted to [int] by the comparison and the
    masks. *)
Definition normalize_texture_idx (texture_idx : Z) : Z :=
  if negb (texture_idx =? -1) && negb (Z.land texture_idx 0x8000 =? 0)
  then Z.land texture_idx 0x7FFF
  else texture_idx.

Section Transforms.
Context {Matrix : Type}.
(** matrix.hpp is not among the sources: the product of two matrices
    and the default-constructed matrix are parameters. *)
Variable Matrix_mul : Matrix -> Matrix -> Matrix.
Variable Matrix_default : Matrix.
(** [transform_matrices[i]] and [tree_nodes[i].parent_idx]. *)
Variable transform_matrices : Z -> result Matrix.
Variable parent_idx : Z -> result Z.

Definition transform_step (i : Z) (modelTransforms : list Matrix)
    : result (list Matrix) :=
  let* t := transform_matrices i in
  let* modelTransforms := vec_set modelTransforms i (fun _ => t) in
  let* p := parent_idx i in
  if p =? -1 then Ok modelTransforms
  else
    let* a := vec_at modelTransforms i in
    let* b := vec_at modelTransforms p in
    vec_set modelTransforms i (fun _ => Matrix_mul a b).

(** [std::vector<Matrix> modelTransforms(num_meshes)] and the loop that
    fills it. *)
Definition compose_transforms (num_meshes : Z) : result (list Matrix) :=
  for_loop (Z.to_nat num_meshes) 0 transform_step
           (replicate (Z.to_nat num_meshes) Matrix_default).
End Transforms.

Section Layers.
Context {Matrix Texture : Type}.
Local Abbreviation walk := (walk Matrix Texture).

Variable Matrix_mul : Matrix -> Matrix -> Matrix.
(** A [Matrix] lies in the file as 16 floats, 64 bytes. *)
Variable Matrix_of_bytes : list byte -> Matrix.
(** [this->processMesh(body, mesh_header_offset, transform,
    vertexBuffers)]. *)
Variable walker : Z -> Matrix -> walk -> result walk.

Variable buf : list byte.
Variable body : Z.
Variable layer_headers : Z.
Variable static_transform_matrices : Z.
Variable num_meshes : Z.
Variable modelTransforms : list Matrix.

Definition load_matrix (p : Z) : result Matrix :=
  let* bs := load buf p 64 in Ok (Matrix_of_bytes bs).

(** [layer_headers[i].mesh_header_list_offsets[j]] *)
Definition mesh_header_list_offset (i j : Z) : result Z :=
  load32 buf (layer_headers + 20 * i + 4 + 4 * j).

Definition slot_body (i j : Z) (w : walk) : result walk :=
  let* slot := mesh_header_list_offset i j in
  if slot =? 0 then Ok w
  else if j mod 2 =? 0 then
    let mesh_header_offsets := OFFSET body slot in
    for_loop (Z.to_nat num_meshes) 0
      (fun k w =>
         let* mesh_header_offset := load32 buf (mesh_header_offsets + 4 * k) in
         let* transform := vec_at modelTransforms k in
         walker mesh_header_offset transform w)
      w
  else
    let* s0 := load_matrix static_transform_matrices in
    let* m0 := vec_at modelTransforms 0 in
    walker slot (Matrix_mul s0 m0) w.

Definition layer_body (i : Z) (w : walk) : result walk :=
  if negb (i =? 0) && negb (i =? 2) then Ok w
  else for_loop 4 0 (slot_body i) w.

Definition layers_loop (num_layers : Z) (w : walk) : result walk :=
  for_loop (Z.to_nat num_layers) 0 layer_body w.
End Layers.

(** The stream [fopen] returns, as far as the constructor looks at it:
    whether seeking to its end fails, the bytes of the file, and how many
    of them [fread] delivers. *)
Record FILE : Type := {
  fseek_fails : bool;
  file_bytes : list byte;
  fread_count : nat
}.

Section Constructor.
Context {Matrix Texture : Type}.
Local Abbreviation walk := (walk Matrix Texture).

Variable Matrix_mul : Matrix -> Matrix -> Matrix.
Variable Matrix_default : Matrix.
Variable Matrix_of_bytes : list byte -> Matrix.
(** dds.hpp is not among the sources: the decoder of an embedded
    texture, handed the block and the pointer into it, and the
    default-constructed texture are parameters. *)
Variable DDSTexture : list byte -> Z -> Texture.
Variable Texture_default : Texture.

(** Elements of [std::vector<T> v(n)] are value-initialised. *)
Definition Material_init : Model.Material :=
  {| Model.red := 0; Model.green := 0; Model.blue := 0;
     Model.alpha := 0; Model.texture_idx := 0 |}.

Definition VertexBuffer_init : Model.VertexBuffer :=
  {| Model.size := 0; Model.data := []; Model.stride := 0 |}.

Section Decode.
Variable fuel : nat.
Variable buf : list byte.

Definition body : Z := BODY_OFFSET.
Definition file_header : Z := 0.

Definition read_textures : result (list Texture) :=
  let* texture_header_offset := load32 buf (file_header + 0x08) in
  let texture_header := OFFSET body texture_header_offset in
  let* num_textures := load32 buf (texture_header + 0x08) in
  for_loop (Z.to_nat num_textures) 0
    (fun i textures =>
       let* texture_block_offset := load32 buf texture_header in
       let* offset := load32 buf (texture_header + 0x1C + 20 * i) in
       let texture_data :=
         OFFSET body (texture_header_offset + texture_block_offset + 12 + offset) in
       vec_set textures i (fun _ => DDSTexture buf texture_data))
    (replicate (Z.to_nat num_textures) Texture_default).

Definition read_materials : result (list Model.Material) :=
  let* material_header_offset := load32 buf (file_header + 0x0C) in
  let material_header := OFFSET body material_header_offset in
  let* num_materials := load32 buf material_header in
  for_loop (Z.to_nat num_materials) 0
    (fun i materials =>
       let* material_offset := load32 buf (material_header + 4 + 4 * i) in
       let material := OFFSET body material_offset in
       let* red := load32 buf (material + 0x54) in
       let* green := load32 buf (material + 0x58) in
       let* blue := load32 buf (material + 0x5C) in
       let* alpha := load32 buf (material + 0x74) in
       let* texture_idx := load16 buf (material + 0x78) in
       vec_set materials i
         (fun _ => {| Model.red := red; Model.green := green;
                      Model.blue := blue; Model.alpha := alpha;
                      Model.texture_idx :=
                        normalize_texture_idx (to_int16 texture_idx) |}))
    (replicate (Z.to_nat num_materials) Material_init).

Definition read_transforms (model_header : Z) : result (list Matrix) :=
  let* mesh_tree_offset := load32 buf (model_header + 0x14) in
  let tree_nodes := OFFSET body mesh_tree_offset in
  let* transformations_offset := load32 buf (model_header + 0x18) in
  let transform_matrices := OFFSET body transformations_offset in
  let* num_meshes := load8 buf (model_header + 0x7C) in
  compose_transforms Matrix_mul Matrix_default
    (fun i => load_matrix Matrix_of_bytes buf (transform_matrices + 64 * i))
    (fun i => let* b := load8 buf (tree_nodes + 96 * i + 0x50) in Ok (to_int8 b))
    num_meshes.

Definition read_vertex_buffers : result (list Model.VertexBuffer) :=
  let* vertex_header_offset := load32 buf (file_header + 0x14) in
  let vertex_header := OFFSET body vertex_header_offset in
  let* num_vertex_blocks := load32 buf vertex_header in
  for_loop (Z.to_nat num_vertex_blocks) 0
    (fun i vertexBuffers =>
       let* size := load32 buf (vertex_header + 16 + 12 * i) in
       let* offset := load32 buf (vertex_header + 16 + 12 * i + 8) in
       let* data :=
         memcpy buf (OFFSET body (vertex_header_offset + offset)) size in
       vec_set vertexBuffers i
         (fun vb => {| Model.size := size; Model.data := data;
                       Model.stride := Model.stride vb |}))
    (replicate (Z.to_nat num_vertex_blocks) VertexBuffer_init).

(** The constructor from "Locate file body and basic headers" on. *)
Definition decode : result (Model.Model Matrix Texture * list stderr_line) :=
  let* model_header_offset := load32 buf (file_header + 0x18) in
  let model_header := OFFSET body model_header_offset in
  let* textures := read_textures in
  let this := Model.setTextures Model.empty textures in
  let* materials := read_materials in
  let this := Model.setMaterials this materials in
  let* static_transformations_offset := load32 buf (model_header + 0x1C) in
  let static_transform_matrices := OFFSET body static_transformations_offset in
  let* modelTransforms := read_transforms model_header in
  let* vertexBuffers := read_vertex_buffers in
  let* layer_header_offset := load32 buf (model_header + 0x24) in
  let layer_headers := OFFSET body layer_header_offset in
  let* num_meshes := load8 buf (model_header + 0x7C) in
  let* num_layers := load8 buf (model_header + 0x7E) in
  let* w :=
    layers_loop Matrix_mul Matrix_of_bytes
      (fun mesh_header_offset transform w =>
         processMesh buf body transform fuel mesh_header_offset w)
      buf body layer_headers static_transform_matrices num_meshes
      modelTransforms num_layers
      {| model := this; vbufs := vertexBuffers; stderr := [] |} in
  Ok (Model.setVertexBuffers (model w) (vbufs w), stderr w).
End Decode.

(** [HGPModel::HGPModel(const char *path)], on what [fopen(path, "rb")]
    returns: the constructed object and what was printed.  The result
    of [fopen] is passed to [fseek] unchecked; when [fseek] fails the
    constructor prints the error and returns; [fread] fills the block
    it can, and the rest of the block stays uninitialised. *)
Definition HGPModel (fuel : nat) (hgp : option FILE)
    : result (Model.Model Matrix Texture * list stderr_line) :=
  match hgp with
  | None => Fail Undefined
  | Some f =>
      if fseek_fails f then Ok (Model.empty, [StrError])
      else decode fuel (take (fread_count f) (file_bytes f))
  end.
End Constructor.
End HGP.

(** ** The streaming walker (lsw) *)

Module LSW.

(** Modelled from the spec: the class [Stream], absent from the sources.
    The streaming strategy "performs seek(body_base + offset) then
    sequential typed reads, advancing a stream cursor", "seek with a
    relative CUR origin is used for skipping", field encodings are
    little-endian, and a read that exceeds the stream length is rejected
    with an error, not truncated. *)
Record Stream : Type := {
  contents : list byte;
  position : Z
}.

Inductive whence : Type := SEEK_SET | SEEK_CUR.

Definition seek (s : Stream) (offset : Z) (w : whence) : Stream :=
  match w with
  | SEEK_SET => {| contents := contents s; position := offset |}
  | SEEK_CUR => {| contents := contents s; position := position s + offset |}
  end.

Definition read (s : Stream) (n : nat) : result (Z * Stream) :=
  match slice (contents s) (position s) n with
  | Some bs => Ok (le_decode bs, seek s (Z.of_nat n) SEEK_CUR)
  | None => Fail BoundsError
  end.

Definition readUint32 (s : Stream) : result (Z * Stream) := read s 4.
Definition readUint16 (s : Stream) : result (Z * Stream) := read s 2.

(** The records of lsw.hpp, with the fields the readers fill. *)
Record Mesh : Type := {
  mesh_next_offset : Z;
  material_idx : Z;
  vertex_type : Z;
  vertex_block_idx : Z;
  chunk_offset : Z
}.

Record Chunk : Type := {
  chunk_next_offset : Z;
  primitive_type : Z;
  num_elements : Z;
  elements_offset : Z
}.

(** [body_offset + mesh_offset] is a sum of two [uint32_t]: it wraps. *)
Definition readMeshInfo (stream : Stream) (body_offset mesh_offset : Z)
    : result (Mesh * Stream) :=
  let s := seek stream (u32 (body_offset + mesh_offset)) SEEK_SET in
  let* (next_offset, s) := readUint32 s in
  let s := seek s 4 SEEK_CUR in
  let* (material_idx, s) := readUint32 s in
  let* (vertex_type, s) := readUint32 s in
  let s := seek s (3 * 4) SEEK_CUR in
  let* (vertex_block_idx, s) := readUint32 s in
  let s := seek s (4 * 4) SEEK_CUR in
  let* (chunk_offset, s) := readUint32 s in
  Ok ({| mesh_next_offset := next_offset; material_idx := material_idx;
         vertex_type := vertex_type; vertex_block_idx := vertex_block_idx;
         chunk_offset := chunk_offset |}, s).

Definition readChunkInfo (stream : Stream) (body_offset chunk_offset : Z)
    : result (Chunk * Stream) :=
  let s := seek stream (u32 (body_offset + chunk_offset)) SEEK_SET in
  let* (next_offset, s) := readUint32 s in
  let* (primitive_type, s) := readUint32 s in
  let* (num_elements, s) := readUint16 s in
  let s := seek s 2 SEEK_CUR in
  let* (elements_offset, s) := readUint32 s in
  Ok ({| chunk_next_offset := next_offset; primitive_type := primitive_type;
         num_elements := num_elements; elements_offset := elements_offset |}, s).

(** [for (int i = 0; i < num_elements; i++) element_buffer[i] =
    stream.readUint16();] *)
Fixpoint read_elements (n : nat) (s : Stream) : result (list Z * Stream) :=
  match n with
  | O => Ok ([], s)
  | S n' =>
      let* (e, s) := readUint16 s in
      let* (es, s) := read_elements n' s in
      Ok (e :: es, s)
  end.

Section Walker.
Context {Matrix Texture : Type}.
Local Abbreviation walk := (walk Matrix Texture).

Variable body_offset : Z.
Variable transform : Matrix.

(** The inner [do ... while (processNextChunk)]. *)
Fixpoint chunk_loop (fuel : nat) (mesh : Mesh) (vertex_block_idx : Z)
    (chunk_data : Chunk) (w : walk) (stream : Stream)
    : result (walk * Stream) :=
  match fuel with
  | O => Fail OutOfFuel
  | S fuel' =>
      let s := seek stream (u32 (body_offset + elements_offset chunk_data)) SEEK_SET in
      let* (element_buffer, s) :=
        read_elements (Z.to_nat (num_elements chunk_data)) s in
      let chunk :=
        {| Model.vertex_buffer_idx := vertex_block_idx;
           Model.material_idx := material_idx mesh;
           Model.primitive_type := primitive_type chunk_data;
           Model.num_elements := num_elements chunk_data;
           Model.transformation := transform;
           Model.element_buffer := element_buffer |} in
      let w' := emit chunk w in
      if chunk_next_offset chunk_data =? 0 then Ok (w', s)
      else
        let* (chunk_data', s) :=
          readChunkInfo s body_offset (chunk_next_offset chunk_data) in
        chunk_loop fuel' mesh vertex_block_idx chunk_data' w' s
  end.

(** The head of the outer loop's body. *)
Definition mesh_prologue (mesh : Mesh) (w : walk) : result (Z * walk) :=
  let '(stride, w1) := stride_of (vertex_type mesh) w in
  let vertex_block_idx := to_int (vertex_block_idx mesh - 1) in
  let* vbs := vec_set (vbufs w1) vertex_block_idx (Model.set_stride stride) in
  Ok (vertex_block_idx, with_vbufs vbs w1).

(** The outer [do ... while (processNextMesh)]. *)
Fixpoint mesh_loop (fuel : nat) (mesh : Mesh) (w : walk) (stream : Stream)
    : result (walk * Stream) :=
  match fuel with
  | O => Fail OutOfFuel
  | S fuel' =>
      let* (vertex_block_idx, w2) := mesh_prologue mesh w in
      let* (chunk_data, s) := readChunkInfo stream body_offset (chunk_offset mesh) in
      let* (w3, s) := chunk_loop fuel mesh vertex_block_idx chunk_data w2 s in
      if mesh_next_offset mesh =? 0 then Ok (w3, s)
      else
        let* (mesh', s) := readMeshInfo s body_offset (mesh_next_offset mesh) in
        mesh_loop fuel' mesh' w3 s
  end.

Definition processMesh (fuel : nat) (mesh_header_offset : Z) (w : walk)
    (stream : Stream) : result (walk * Stream) :=
  if mesh_header_offset =? 0 then Ok (w, stream)
  else
    let s := seek stream (u32 (body_offset + mesh_header_offset)) SEEK_SET in
    let s := seek s (3 * 4) SEEK_CUR in
    let* (mesh_offset, s) := readUint32 s in
    if mesh_offset =? 0 then Ok (w, s)
    else
      let* (mesh, s) := readMeshInfo s body_offset mesh_offset in
      mesh_loop fuel mesh w s.
End Walker.
End LSW.

(** ** Sample files

    Small files, written as 32-bit little-endian words, on which the
    statements below are exercised. *)

Definition le32 (z : Z) : list byte :=
  [byte_of_Z z; byte_of_Z (z / 2 ^ 8); byte_of_Z (z / 2 ^ 16); byte_of_Z (z / 2 ^ 24)].

Definition words (ws : list Z) : list byte := flat_map le32 ws.

(** A mesh record: the 13 words up to [chunk_offset]. *)
Definition mesh_words (next_offset material_idx vertex_type vertex_buffer_idx
    chunk_offset : Z) : list Z :=
  [next_offset; 0; material_idx; vertex_type; 0; 0; 0; vertex_buffer_idx;
   0; 0; 0; 0; chunk_offset].

(** A chunk record: the 4 words up to [elements_offset]. *)
Definition chunk_words (next_offset primitive_type num_elements elements_offset : Z)
    : list Z :=
  [next_offset; primitive_type; num_elements; elements_offset].

(** A 0x30-byte preamble, then in the body
    - at 0x00 a chunk of 3 elements, terminal,
    - at 0x10 the elements 0, 1, 2 (and a fourth, 7),
    - at 0x18 a mesh header, whose mesh is at 0x2C,
    - at 0x2C a mesh of vertex type [vt1] with its chunks at 0x00, followed by
    - at 0x60 a mesh of vertex type [vt2] with its chunks at 0x94,
    - at 0x94 a chunk of 2 elements, followed by
    - at 0xA4 a chunk of 1 element, terminal.
    Both meshes use the first vertex buffer. *)
Definition sample_body (vt1 vt2 : Z) : list Z :=
  chunk_words 0 4 3 0x10
  ++ [0x00010000; 0x00070002]
  ++ [0; 0; 0; 0x2C; 0]
  ++ mesh_words 0x60 1 vt1 1 0x00
  ++ mesh_words 0 2 vt2 1 0x94
  ++ chunk_words 0xA4 5 2 0x10
  ++ chunk_words 0 6 1 0x14.

Definition sample_file (vt1 vt2 : Z) : list byte :=
  words (repeat 0 12 ++ sample_body vt1 vt2).

Definition sample_vbufs : list Model.VertexBuffer :=
  [{| Model.size := 0; Model.data := []; Model.stride := 0 |}].

(** Matrices and textures of the samples are plain integers. *)
Definition sample_walk : walk Z Z :=
  {| model := Model.empty; vbufs := sample_vbufs; stderr := [] |}.

Definition sample_stream (vt1 vt2 : Z) : LSW.Stream :=
  {| LSW.contents := sample_file vt1 vt2; LSW.position := 0 |}.

(** A whole model file, with one texture, one material (texture reference
    0x8005), one vertex block of 8 bytes, two meshes in the tree (the
    second a child of the first), three layers, and one mesh of vertex
    type 89 with one chunk of the elements 0, 1, 2.  In the body:
    - 0x000 texture header, 0x030 material header, 0x038 material,
    - 0x0EC vertex header, 0x108 vertex data,
    - 0x110 model header,
    - 0x1C4 mesh tree, 0x284 transforms, 0x304 static transforms,
    - 0x344 layer headers: layer 0 has the per-mesh array in slot 0,
      layer 1 has slots 0 and 1 set, layer 2 has the mesh header in slot 1,
    - 0x380 per-mesh array, 0x388 mesh header, 0x39C mesh, 0x3D0 chunk,
      0x3E0 elements. *)
Definition model_file_words : list Z :=
  [0; 0; 0x000; 0x030; 0; 0x0EC; 0x110; 0; 0; 0; 0; 1048]
  ++ [0x20; 0; 1; 0; 0; 0; 0] ++ [4; 0; 0; 0; 0]
  ++ [1; 0x38]
  ++ repeat 0 21 ++ [0x3F800000; 0x3F000000; 0] ++ repeat 0 5
     ++ [255; 0x8005] ++ repeat 0 14
  ++ [1; 0; 0; 0; 8; 0; 0x1C] ++ [0x11111111; 0x22222222]
  ++ repeat 0 5 ++ [0x1C4; 0x284; 0x304; 0; 0x344] ++ repeat 0 21
     ++ [2 + 3 * 65536] ++ repeat 0 13
  ++ repeat 0 20 ++ [0xFF] ++ repeat 0 3
  ++ repeat 0 20 ++ [0x00] ++ repeat 0 3
  ++ [2] ++ repeat 0 15 ++ [3] ++ repeat 0 15
  ++ [7] ++ repeat 0 15
  ++ [0; 0x380; 0; 0; 0] ++ [0; 0x380; 0x388; 0; 0] ++ [0; 0; 0x388; 0; 0]
  ++ [0x388; 0x388]
  ++ [0; 0; 0; 0x39C; 0]
  ++ mesh_words 0 0 89 1 0x3D0
  ++ chunk_words 0 4 3 0x3E0
  ++ [0x00010000; 0x0002].

Definition model_file : list byte := words model_file_words.

(** The parameters of the samples: a matrix is the integer its first word
    holds, a texture the pointer handed to its decoder. *)
Definition sample_Matrix_of_bytes (bs : list byte) : Z := le_decode (take 4 bs).
Definition sample_DDSTexture (buf : list byte) (texture_data : Z) : Z := texture_data.

Definition sample_HGPModel (fuel : nat) (hgp : option HGP.FILE)
    : result (Model.Model Z Z * list stderr_line) :=
  HGP.HGPModel Z.mul 0 sample_Matrix_of_bytes sample_DDSTexture 0 fuel hgp.

(** [fopen] succeeded and so do [fseek] and [fread]. *)
Definition model_FILE : HGP.FILE :=
  {| HGP.fseek_fails := false; HGP.file_bytes := model_file;
     HGP.fread_count := length model_file |}.


(** ** Vocabulary of the statements *)

(** The little-endian value of the [n] bytes at position [p] of the file. *)
Definition word_at (buf : list byte) (p : Z) (n : nat) : option Z :=
  match slice buf p n with
  | Some bs => Some (le_decode bs)
  | None => None
  end.

(** The fixed lookup table [{89 -> 36, 93 -> 56}], and 0 outside it. *)
Definition stride_table (vertex_type : Z) : Z :=
  if vertex_type =? 89 then 36 else if vertex_type =? 93 then 56 else 0.

Definition known_vertex_type (vertex_type : Z) : bool :=
  (vertex_type =? 89) || (vertex_type =? 93).


Definition emit_all {Matrix Texture : Type} (cs : list (Model.Chunk Matrix))
    (w : walk Matrix Texture) : walk Matrix Texture :=
  fold_left (fun w c => emit c w) cs w.

(** Chunk chains, as the file holds them.  [addr] places a body-relative
    offset in the file: [body + off] for the bulk walker, the 32-bit sum
    [body_offset + off] for the streaming one. *)
Record chunk_record : Type := {
  cr_primitive_type : Z;
  cr_num_elements : Z;
  cr_elements_offset : Z
}.

Section Chains.
Variable buf : list byte.
Variable addr : Z -> Z.

(** The record at [off] has [next] as its [next_offset] and the fields
    of [r], and its [num_elements] source indices lie in the file. *)
Definition chunk_record_at (off next : Z) (r : chunk_record) : Prop :=
  word_at buf (addr off) 4 = Some next /\
  word_at buf (addr off + 4) 4 = Some (cr_primitive_type r) /\
  word_at buf (addr off + 8) 2 = Some (cr_num_elements r) /\
  word_at buf (addr off + 12) 4 = Some (cr_elements_offset r) /\
  forall i, 0 <= i < cr_num_elements r ->
    is_Some (word_at buf (addr (cr_elements_offset r) + 2 * i) 2).

(** [chunk_chain off rs]: the records [rs] are linked by [next_offset]
    from [off] on, and the last of them has [next_offset = 0]. *)
Inductive chunk_chain : Z -> list chunk_record -> Prop :=
| chain_end off r :
    chunk_record_at off 0 r -> chunk_chain off [r]
| chain_link off next r rs :
    next <> 0 -> chunk_record_at off next r -> chunk_chain next rs ->
    chunk_chain off (r :: rs).

(** The emitted chunk [c] carries the record [r]: its fields, and an
    element buffer of the declared length whose entries are the source
    indices, one for one. *)
Definition carries {Matrix : Type} (c : Model.Chunk Matrix) (r : chunk_record)
    : Prop :=
  Model.primitive_type c = cr_primitive_type r /\
  Model.num_elements c = cr_num_elements r /\
  Z.of_nat (length (Model.element_buffer c)) = cr_num_elements r /\
  forall i : nat, Z.of_nat i < cr_num_elements r ->
    Model.element_buffer c !! i
    = word_at buf (addr (cr_elements_offset r) + 2 * Z.of_nat i) 2.
End Chains.

(** The [n] 16-bit values that lie in the file from position [p] on. *)
Definition elements_from (buf : list byte) (p : Z) (n : nat) : list Z :=
  decode16s (take (2 * n) (drop (Z.to_nat p) buf)).

Section Records.
Variable buf : list byte.

(** The record the streaming reader fills is the one the bulk walker
    sees behind its pointer, at position [chunk_data] or [mesh] of the
    file. *)
Definition chunk_view (chunk_data : Z) (cd : LSW.Chunk) : Prop :=
  word_at buf chunk_data 4 = Some (LSW.chunk_next_offset cd)
  /\ word_at buf (chunk_data + 4) 4 = Some (LSW.primitive_type cd)
  /\ word_at buf (chunk_data + 8) 2 = Some (LSW.num_elements cd)
  /\ word_at buf (chunk_data + 12) 4 = Some (LSW.elements_offset cd).

Definition mesh_view (mesh : Z) (m : LSW.Mesh) : Prop :=
  word_at buf mesh 4 = Some (LSW.mesh_next_offset m)
  /\ word_at buf (mesh + 8) 4 = Some (LSW.material_idx m)
  /\ word_at buf (mesh + 12) 4 = Some (LSW.vertex_type m)
  /\ word_at buf (mesh + 28) 4 = Some (LSW.vertex_block_idx m)
  /\ word_at buf (mesh + 48) 4 = Some (LSW.chunk_offset m).

Context {Matrix : Type}.


(** The chunk a walker emits for the record [r] of a chain, once the
    mesh it belongs to has given the vertex buffer and the material. *)
Definition emitted_for (transform : Matrix) (addr : Z -> Z) (idx mat : Z)
    (c : Model.Chunk Matrix) (r : chunk_record) : Prop :=
  carries buf addr c r
  /\ Model.vertex_buffer_idx c = idx
  /\ Model.material_idx c = mat
  /\ Model.transformation c = transform.
End Records.

(** The line the [default] case of the [switch] prints. *)
Definition unknown_type_line (vertex_type : Z) : list stderr_line :=
  if known_vertex_type vertex_type then [] else [UnknownVertexType vertex_type].

Section WalkVocabulary.
Context {Matrix Texture : Type}.
Local Abbreviation walk := (walk Matrix Texture).

(** The state after the head of the mesh loop's body. *)
Definition after_prologue (vertex_type idx : Z) (vb : Model.VertexBuffer)
    (w : walk) : walk :=
  {| model := model w;
     vbufs := <[Z.to_nat idx := Model.set_stride (stride_table vertex_type) vb]> (vbufs w);
     stderr := stderr w ++ unknown_type_line vertex_type |}.

(** From [w] to [w'] chunks were appended to the model and strides were
    stored in vertex buffers; nothing else of the model changed. *)
Definition grows (w w' : walk) : Prop :=
  Model.textures (model w') = Model.textures (model w)
  /\ Model.materials (model w') = Model.materials (model w)
  /\ Model.vertexBuffers (model w') = Model.vertexBuffers (model w)
  /\ length (vbufs w') = length (vbufs w)
  /\ exists cs, Model.chunks (model w') = Model.chunks (model w) ++ cs.
End WalkVocabulary.

Section TransformVocabulary.
Context {Matrix : Type}.
Variable Matrix_mul : Matrix -> Matrix -> Matrix.
Variable locals : list Matrix.
Variable parents : list Z.

(** The entry of index [i] of [world] is what the composition rule
    says: the local transform at a root, and otherwise the local
    transform times the world transform of the parent. *)
Definition world_entry (world : list Matrix) (i : nat) : Prop :=
  forall l p, locals !! i = Some l -> parents !! i = Some p ->
    (p = -1 -> world !! i = Some l)
    /\ (p <> -1 ->
        exists wp, world !! Z.to_nat p = Some wp
                   /\ world !! i = Some (Matrix_mul l wp)).
End TransformVocabulary.

(** The invocations of the mesh walker that the assembler is to make, in
    the words of the design: per walked layer, per slot. *)
Section AssemblerCalls.
Context {Matrix Texture : Type}.
Variable Matrix_mul : Matrix -> Matrix -> Matrix.
Variable Matrix_of_bytes : list byte -> Matrix.
Variable buf : list byte.
Variable body : Z.
Variable layer_headers : Z.
Variable static_transform_matrices : Z.
Variable num_meshes : Z.
Variable world : list Matrix.

(** One invocation: the mesh-header offset and the transform. *)
Definition call : Type := Z * Matrix.

(** An even slot is an array of [num_meshes] header offsets: one
    invocation per mesh index [k], with mesh [k]'s world transform. *)
Definition even_slot_calls (slot : Z) : option (list call) :=
  mapM (fun k : nat =>
          off ← word_at buf (body + slot + 4 * Z.of_nat k) 4;
          t ← world !! k;
          Some (off, t))
       (seq 0 (Z.to_nat num_meshes)).

(** An odd slot is one mesh header: one invocation, with the first
    static transform times the world transform of mesh 0. *)
Definition odd_slot_calls (slot : Z) : option (list call) :=
  bs ← slice buf static_transform_matrices 64;
  m0 ← world !! 0%nat;
  Some [(slot, Matrix_mul (Matrix_of_bytes bs) m0)].

Definition slot_calls (i : Z) (j : nat) : option (list call) :=
  slot ← word_at buf (layer_headers + 20 * i + 4 + 4 * Z.of_nat j) 4;
  if slot =? 0 then Some []
  else if Nat.even j then even_slot_calls slot
  else odd_slot_calls slot.

Definition layer_calls (i : Z) : option (list call) :=
  @concat call <$> mapM (slot_calls i) [0; 1; 2; 3]%nat.

(** The layers walked are 0 and 2, where the model has them. *)
Definition walked_layers (num_layers : Z) : list Z :=
  filter (fun i => i < num_layers) [0; 2].

Definition assembler_calls (num_layers : Z) : option (list call) :=
  @concat call <$> mapM layer_calls (walked_layers num_layers).

Variable walker : Z -> Matrix -> walk Matrix Texture -> result (walk Matrix Texture).

(** The invocations made one after the other. *)
Fixpoint run_calls (cs : list call) (w : walk Matrix Texture)
    : result (walk Matrix Texture) :=
  match cs with
  | [] => Ok w
  | (mesh_header_offset, transform) :: cs' =>
      let* w' := walker mesh_header_offset transform w in run_calls cs' w'
  end.
End AssemblerCalls.

Section ConstructorVocabulary.
Context {Matrix Texture : Type}.
Variable DDSTexture : list byte -> Z -> Texture.
Variable Texture_default : Texture.

End ConstructorVocabulary.

(** What the decoders give on the sample files. *)
Definition sample_walked (vt1 vt2 : Z) : walk Z Z :=
  match HGP.processMesh (sample_file vt1 vt2) HGP.BODY_OFFSET 5 3 0x18 sample_walk with
  | Ok w => w
  | Fail _ => sample_walk
  end.


Definition sample_model : Model.Model Z Z :=
  match sample_HGPModel 3 (Some model_FILE) with
  | Ok (m, _) => m
  | Fail _ => Model.empty
  end.

(** ** Vocabulary of the further properties *)

(** A vertex buffer after a walk: its size and data are as before, its
    stride is as before or one of the three strides the walkers store. *)
Definition stride_kept_or_set (vb vb' : Model.VertexBuffer) : Prop :=
  Model.size vb' = Model.size vb
  /\ Model.data vb' = Model.data vb
  /\ (Model.stride vb' = Model.stride vb
      \/ Model.stride vb' = 0 \/ Model.stride vb' = 36 \/ Model.stride vb' = 56).

(** A chunk a walk appends: it carries the walk's transform, names one of
    the [n] vertex buffers, and has as many elements as it declares. *)
Definition well_formed_chunk {Matrix : Type} (transform : Matrix) (n : nat)
    (c : Model.Chunk Matrix) : Prop :=
  Model.transformation c = transform
  /\ 0 <= Model.vertex_buffer_idx c < Z.of_nat n
  /\ 0 <= Model.num_elements c < 65536
  /\ Z.of_nat (length (Model.element_buffer c)) = Model.num_elements c.

(** A line a walk prints: the unknown vertex type of a mesh. *)
Definition unknown_type_report (l : stderr_line) : Prop :=
  exists v, l = UnknownVertexType v /\ v <> 89 /\ v <> 93.

Section Walked.
Context {Matrix Texture : Type}.
Variable transform : Matrix.

(** Everything a walk with [transform] may have done from [w] to [w']. *)
Definition walked (w w' : walk Matrix Texture) : Prop :=
  Model.textures (model w') = Model.textures (model w)
  /\ Model.materials (model w') = Model.materials (model w)
  /\ Model.vertexBuffers (model w') = Model.vertexBuffers (model w)
  /\ Forall2 stride_kept_or_set (vbufs w) (vbufs w')
  /\ (exists cs,
        Model.chunks (model w') = Model.chunks (model w) ++ cs
        /\ Forall (well_formed_chunk transform (length (vbufs w))) cs)
  /\ (exists lines,
        stderr w' = stderr w ++ lines /\ Forall unknown_type_report lines).
End Walked.

(** A file with a chunk record at 0x04 of the body whose [next_offset] is
    0x04 again: a chain that links back to itself.  The record has one
    element, at 0x14. *)
Definition cyclic_file : list byte :=
  words (repeat 0 12 ++ [0] ++ chunk_words 0x04 7 1 0x14 ++ [0x0005; 0; 0]).

(** Mesh chains, as the file holds them. *)
Section MeshChains.
Variable buf : list byte.
Variable body : Z.

(** [mesh_chain_ends mesh last]: following [next_offset] from the mesh
    record at pointer [mesh] leads to the record at [last], the terminal
    one. *)
Inductive mesh_chain_ends : Z -> Z -> Prop :=
| ends_here mesh :
    word_at buf mesh 4 = Some 0 -> mesh_chain_ends mesh mesh
| ends_later mesh next last :
    word_at buf mesh 4 = Some next -> next <> 0 ->
    mesh_chain_ends (HGP.OFFSET body next) last ->
    mesh_chain_ends mesh last.

(** A mesh record with its chain of chunk records. *)
Record mesh_record : Type := {
  mr_material_idx : Z;
  mr_vertex_type : Z;
  mr_vertex_buffer_idx : Z;
  mr_chunks : list chunk_record
}.

Definition mesh_record_at (off next : Z) (r : mesh_record) : Prop :=
  word_at buf (HGP.OFFSET body off) 4 = Some next
  /\ word_at buf (HGP.OFFSET body off + 8) 4 = Some (mr_material_idx r)
  /\ word_at buf (HGP.OFFSET body off + 12) 4 = Some (mr_vertex_type r)
  /\ word_at buf (HGP.OFFSET body off + 28) 4 = Some (mr_vertex_buffer_idx r)
  /\ exists chunk_offset,
       word_at buf (HGP.OFFSET body off + 48) 4 = Some chunk_offset
       /\ chunk_chain buf (HGP.OFFSET body) chunk_offset (mr_chunks r).

Inductive mesh_chain : Z -> list mesh_record -> Prop :=
| mesh_chain_end off r :
    mesh_record_at off 0 r -> mesh_chain off [r]
| mesh_chain_link off next r rs :
    next <> 0 -> mesh_record_at off next r -> mesh_chain next rs ->
    mesh_chain off (r :: rs).

Context {Matrix : Type}.

(** The chunks [cs] are those of the mesh record [r], one per chunk
    record and in order. *)
Definition emitted_for_mesh (transform : Matrix) (cs : list (Model.Chunk Matrix))
    (r : mesh_record) : Prop :=
  Forall2 (emitted_for buf transform (HGP.OFFSET body)
             (mr_vertex_buffer_idx r - 1) (mr_material_idx r))
          cs (mr_chunks r).
End MeshChains.

(** The pass over the mesh tree, whatever the order of the nodes. *)
Section TreeVocabulary.
Context {Matrix : Type}.
Variable Matrix_mul : Matrix -> Matrix -> Matrix.
Variable Matrix_default : Matrix.
Variable locals : list Matrix.
Variable parents : list Z.

(** The entry of index [i] of [mt] is what the single ascending pass
    leaves there: the local transform at a root; the local transform
    times the entry of the parent when the parent comes earlier; times
    itself when the node is its own parent; times the matrix the vector
    was filled with when the parent comes later. *)
Definition pass_entry (mt : list Matrix) (i : nat) : Prop :=
  forall l p, locals !! i = Some l -> parents !! i = Some p ->
    (p = -1 -> mt !! i = Some l)
    /\ (0 <= p < Z.of_nat i ->
        exists wp, mt !! Z.to_nat p = Some wp /\ mt !! i = Some (Matrix_mul l wp))
    /\ (p = Z.of_nat i -> mt !! i = Some (Matrix_mul l l))
    /\ (Z.of_nat i < p -> mt !! i = Some (Matrix_mul l Matrix_default)).

(** Every parent index is -1 or the index of a node. *)
Definition parents_in_range : Prop :=
  forall i p, parents !! i = Some p -> p = -1 \/ 0 <= p < Z.of_nat (length locals).

(** Before the step of index [i]: the entries below [i] are final, the
    others are as the vector was filled. *)
Definition pass_state (i : Z) (mt : list Matrix) : Prop :=
  length mt = length locals
  /\ (forall j : nat, i <= Z.of_nat j -> (j < length locals)%nat ->
        mt !! j = Some Matrix_default)
  /\ forall j : nat, Z.of_nat j < i -> pass_entry mt j.
End TreeVocabulary.

(** What the arrays of a decoded model hold, in terms of the file. *)
Section DecodedVocabulary.
Variable buf : list byte.

(** [m] is the material of index [i] of the header at [material_header]:
    the colour words of its record, and the record's texture reference
    re-indexed. *)
Definition material_of_file (material_header : Z) (i : nat) (m : Model.Material)
    : Prop :=
  exists material_offset stored,
    word_at buf (material_header + 4 + 4 * Z.of_nat i) 4 = Some material_offset
    /\ word_at buf (HGP.BODY_OFFSET + material_offset + 0x54) 4 = Some (Model.red m)
    /\ word_at buf (HGP.BODY_OFFSET + material_offset + 0x58) 4 = Some (Model.green m)
    /\ word_at buf (HGP.BODY_OFFSET + material_offset + 0x5C) 4 = Some (Model.blue m)
    /\ word_at buf (HGP.BODY_OFFSET + material_offset + 0x74) 4 = Some (Model.alpha m)
    /\ word_at buf (HGP.BODY_OFFSET + material_offset + 0x78) 2 = Some stored
    /\ Model.texture_idx m = HGP.normalize_texture_idx (to_int16 stored).

(** [vb] holds the vertex block of index [i] of the header at
    [vertex_header]: the block's size, and that many bytes of the file
    from the block's offset (relative to the header) on. *)
Definition vertex_block_of_file (vertex_header : Z) (i : nat)
    (vb : Model.VertexBuffer) : Prop :=
  exists offset,
    word_at buf (vertex_header + 16 + 12 * Z.of_nat i) 4 = Some (Model.size vb)
    /\ word_at buf (vertex_header + 16 + 12 * Z.of_nat i + 8) 4 = Some offset
    /\ Z.of_nat (length (Model.data vb)) = Model.size vb
    /\ Model.data vb
       = take (Z.to_nat (Model.size vb)) (drop (Z.to_nat (vertex_header + offset)) buf).
End DecodedVocabulary.

(** Everything the loop over the layers may have done from [w] to [w']:
    as [walked], with each chunk under the transform of its own call. *)
Definition assembled {Matrix Texture : Type} (w w' : walk Matrix Texture) : Prop :=
  Model.textures (model w') = Model.textures (model w)
  /\ Model.materials (model w') = Model.materials (model w)
  /\ Model.vertexBuffers (model w') = Model.vertexBuffers (model w)
  /\ Forall2 stride_kept_or_set (vbufs w) (vbufs w')
  /\ (exists cs,
        Model.chunks (model w') = Model.chunks (model w) ++ cs
        /\ Forall (fun c => well_formed_chunk (Model.transformation c)
                              (length (vbufs w)) c) cs)
  /\ (exists lines,
        stderr w' = stderr w ++ lines /\ Forall unknown_type_report lines).

(** * Properties *)

(** ** Results *)

Lemma bind_Ok {A B : Type} (r : result A) (k : A -> result B) (b : B) :
  bind r k = Ok b -> exists a, r = Ok a /\ k a = Ok b.
Proof. destruct r as [a|f]; simpl; [eauto | discriminate]. Qed.

(** ** Bytes and slices *)

Lemma byte_val_range (b : byte) : 0 <= byte_val b < 256.
Proof. destruct b; vm_compute; split; congruence. Qed.

Lemma le_decode_nonneg (bs : list byte) : 0 <= le_decode bs.
Proof.
  induction bs as [|b bs IH]; simpl; [lia|].
  pose proof (byte_val_range b). lia.
Qed.

Lemma slice_Some (buf : list byte) (a : Z) (n : nat) (bs : list byte) :
  slice buf a n = Some bs <->
  0 <= a /\ a + Z.of_nat n <= Z.of_nat (length buf)
  /\ bs = take n (drop (Z.to_nat a) buf).
Proof.
  unfold slice.
  destruct (0 <=? a) eqn:Ea; destruct (a + Z.of_nat n <=? Z.of_nat (length buf)) eqn:Eb;
    simpl; split.
  all: try (intros [= <-]; repeat split; lia).
  all: try discriminate.
  all: try (intros (? & ? & ->); reflexivity).
  all: intros (? & ? & _); lia.
Qed.

Lemma slice_in_range (buf : list byte) (a : Z) (n : nat) :
  0 <= a -> a + Z.of_nat n <= Z.of_nat (length buf) ->
  slice buf a n = Some (take n (drop (Z.to_nat a) buf)).
Proof. intros. apply slice_Some. auto. Qed.

Lemma word_at_Some (buf : list byte) (p : Z) (n : nat) (v : Z) :
  word_at buf p n = Some v ->
  0 <= p /\ p + Z.of_nat n <= Z.of_nat (length buf) /\ 0 <= v
  /\ slice buf p n = Some (take n (drop (Z.to_nat p) buf))
  /\ v = le_decode (take n (drop (Z.to_nat p) buf)).
Proof.
  unfold word_at. destruct (slice buf p n) as [bs|] eqn:E; [|discriminate].
  intros [= <-]. apply slice_Some in E as (? & ? & ->).
  repeat split; auto using le_decode_nonneg, slice_in_range.
Qed.

Lemma load_word_at (buf : list byte) (p : Z) (n : nat) (bs : list byte) :
  HGP.load buf p n = Ok bs -> word_at buf p n = Some (le_decode bs).
Proof.
  unfold HGP.load, word_at. destruct (slice buf p n); [|discriminate].
  now intros [= ->].
Qed.

Lemma load32_word_at (buf : list byte) (p v : Z) :
  HGP.load32 buf p = Ok v <-> word_at buf p 4 = Some v.
Proof.
  unfold HGP.load32, HGP.load, word_at.
  destruct (slice buf p 4); simpl; split; congruence.
Qed.

Lemma load16_word_at (buf : list byte) (p v : Z) :
  HGP.load16 buf p = Ok v <-> word_at buf p 2 = Some v.
Proof.
  unfold HGP.load16, HGP.load, word_at.
  destruct (slice buf p 2); simpl; split; congruence.
Qed.

Lemma read_word_at (buf : list byte) (p : Z) (n : nat) (v : Z) :
  word_at buf p n = Some v ->
  LSW.read {| LSW.contents := buf; LSW.position := p |} n
  = Ok (v, {| LSW.contents := buf; LSW.position := p + Z.of_nat n |}).
Proof.
  unfold word_at, LSW.read. simpl.
  destruct (slice buf p n); [|discriminate]. now intros [= ->].
Qed.

(** ** Runs of 16-bit elements *)

Lemma decode16s_length (bs : list byte) (n : nat) :
  length bs = (2 * n)%nat -> length (decode16s bs) = n.
Proof.
  revert bs. induction n as [|n IH]; intros bs H.
  - destruct bs; [reflexivity | discriminate].
  - destruct bs as [|b0 [|b1 bs]]; simpl in H; try lia.
    simpl. f_equal. apply IH. lia.
Qed.

Lemma decode16s_lookup (bs : list byte) (i : nat) :
  (2 * i + 2 <= length bs)%nat ->
  decode16s bs !! i = Some (le_decode (take 2 (drop (2 * i) bs))).
Proof.
  revert bs. induction i as [|i IH]; intros bs H.
  - destruct bs as [|b0 [|b1 bs]]; simpl in H; try lia. reflexivity.
  - destruct bs as [|b0 [|b1 bs]]; simpl in H; try lia.
    replace (2 * S i)%nat with (S (S (2 * i))) by lia.
    cbn [decode16s lookup list_lookup drop]. apply IH. lia.
Qed.

Lemma elements_from_length (buf : list byte) (p : Z) (n : nat) :
  0 <= p -> p + 2 * Z.of_nat n <= Z.of_nat (length buf) ->
  length (elements_from buf p n) = n.
Proof.
  intros Hp Hn. apply decode16s_length.
  rewrite length_take, length_drop. lia.
Qed.

Lemma elements_from_lookup (buf : list byte) (p : Z) (n i : nat) :
  0 <= p -> p + 2 * Z.of_nat n <= Z.of_nat (length buf) -> (i < n)%nat ->
  elements_from buf p n !! i = word_at buf (p + 2 * Z.of_nat i) 2.
Proof.
  intros Hp Hn Hi. unfold elements_from, word_at.
  rewrite decode16s_lookup by (rewrite length_take, length_drop; lia).
  rewrite slice_in_range by lia. f_equal. f_equal.
  rewrite skipn_firstn_comm, take_take, drop_drop.
  replace (Z.to_nat (p + 2 * Z.of_nat i)) with (Z.to_nat p + 2 * i)%nat by lia.
  f_equal. lia.
Qed.

Lemma read_elements_in_range (buf : list byte) (n : nat) (p : Z) :
  0 <= p -> p + 2 * Z.of_nat n <= Z.of_nat (length buf) ->
  LSW.read_elements n {| LSW.contents := buf; LSW.position := p |}
  = Ok (elements_from buf p n,
        {| LSW.contents := buf; LSW.position := p + 2 * Z.of_nat n |}).
Proof.
  revert p. induction n as [|n IH]; intros p Hp Hn.
  - simpl. unfold elements_from. simpl. do 3 f_equal. lia.
  - cbn [LSW.read_elements]. unfold LSW.readUint16.
    rewrite (read_word_at buf p 2 (le_decode (take 2 (drop (Z.to_nat p) buf)))).
    2:{ unfold word_at. rewrite slice_in_range by lia. reflexivity. }
    cbn [bind]. rewrite IH by lia. cbn [bind].
    f_equal. f_equal.
    + unfold elements_from.
      assert (Hlen : (2 <= length (drop (Z.to_nat p) buf))%nat)
        by (rewrite length_drop; lia).
      replace (Z.to_nat (p + Z.of_nat 2)) with (Z.to_nat p + 2)%nat by lia.
      rewrite <- drop_drop.
      destruct (drop (Z.to_nat p) buf) as [|b0 [|b1 rest]]; simpl in Hlen; try lia.
      replace (2 * S n)%nat with (S (S (2 * n))) by lia.
      reflexivity.
    + f_equal. lia.
Qed.

Lemma load16s_in_range (buf : list byte) (p n : Z) (es : list Z) :
  HGP.load16s buf p n = Ok es -> 0 < n ->
  0 <= p /\ p + 2 * n <= Z.of_nat (length buf)
  /\ es = elements_from buf p (Z.to_nat n).
Proof.
  unfold HGP.load16s, HGP.memcpy, HGP.load. intros H Hn.
  destruct (n * 2 =? 0) eqn:E; [lia|].
  destruct (slice buf p (Z.to_nat (n * 2))) as [bs|] eqn:Es; [|discriminate].
  simpl in H. injection H as <-.
  apply slice_Some in Es as (? & ? & ->).
  repeat split; try lia. unfold elements_from. do 2 f_equal. lia.
Qed.

Lemma load16s_elements (buf : list byte) (p n : Z) :
  0 <= n ->
  (forall i, 0 <= i < n -> is_Some (word_at buf (p + 2 * i) 2)) ->
  HGP.load16s buf p n = Ok (elements_from buf p (Z.to_nat n))
  /\ (0 < n -> 0 <= p /\ p + 2 * n <= Z.of_nat (length buf)).
Proof.
  intros Hn Hall.
  assert (Hr : 0 < n -> 0 <= p /\ p + 2 * n <= Z.of_nat (length buf)).
  { intros Hpos.
    destruct (Hall 0) as [v0 H0]; [lia|].
    destruct (Hall (n - 1)) as [v1 H1]; [lia|].
    apply word_at_Some in H0 as (? & _). apply word_at_Some in H1 as (_ & ? & _).
    lia. }
  split; [|exact Hr].
  unfold HGP.load16s, HGP.memcpy, HGP.load.
  destruct (n * 2 =? 0) eqn:E.
  - assert (n = 0) as -> by lia. reflexivity.
  - destruct Hr as [? ?]; [lia|].
    rewrite slice_in_range by lia. simpl. unfold elements_from.
    do 3 f_equal. lia.
Qed.

Lemma read_at (buf : list byte) (p q : Z) (n : nat) (v : Z) :
  q = p -> word_at buf p n = Some v ->
  LSW.read {| LSW.contents := buf; LSW.position := q |} n
  = Ok (v, {| LSW.contents := buf; LSW.position := p + Z.of_nat n |}).
Proof. intros ->. apply read_word_at. Qed.

Lemma elements_from_carried (buf : list byte) (p n : Z) :
  (0 < n -> 0 <= p /\ p + 2 * n <= Z.of_nat (length buf)) -> 0 <= n ->
  Z.of_nat (length (elements_from buf p (Z.to_nat n))) = n
  /\ forall i : nat, Z.of_nat i < n ->
       elements_from buf p (Z.to_nat n) !! i = word_at buf (p + 2 * Z.of_nat i) 2.
Proof.
  intros Hr Hn. destruct (Z.eq_dec n 0) as [->|Hne].
  - split; [reflexivity | intros; lia].
  - destruct Hr as [? ?]; [lia|]. split.
    + rewrite elements_from_length by lia. lia.
    + intros i Hi. apply elements_from_lookup; lia.
Qed.

Lemma read_elements_ok (buf : list byte) (p n : Z) :
  0 <= n -> (0 < n -> 0 <= p /\ p + 2 * n <= Z.of_nat (length buf)) ->
  LSW.read_elements (Z.to_nat n) {| LSW.contents := buf; LSW.position := p |}
  = Ok (elements_from buf p (Z.to_nat n),
        {| LSW.contents := buf; LSW.position := p + 2 * n |}).
Proof.
  intros Hn Hr. destruct (Z.eq_dec n 0) as [->|Hne].
  - simpl. unfold elements_from. simpl. do 3 f_equal. lia.
  - destruct Hr as [? ?]; [lia|].
    rewrite read_elements_in_range by lia. do 3 f_equal. lia.
Qed.

Section ChunkChains.
Context {Matrix Texture : Type}.
Variable buf : list byte.
Variable body : Z.
Variable transform : Matrix.

Lemma hgp_chunk_loop_chain (mesh idx mat off : Z) (recs : list chunk_record) :
  chunk_chain buf (HGP.OFFSET body) off recs ->
  HGP.load32 buf (mesh + 8) = Ok mat ->
  forall (fuel : nat) (w : walk Matrix Texture),
    (length recs <= fuel)%nat ->
    exists cs,
      HGP.chunk_loop buf body transform fuel mesh idx (HGP.OFFSET body off) w
      = Ok (emit_all cs w)
      /\ Forall2 (emitted_for buf transform (HGP.OFFSET body) idx mat) cs recs.
Proof.
  intros Hchain Hmat.
  induction Hchain as [off r Hr | off next r rs Hnext Hr Hchain IH];
    intros fuel w Hfuel; (destruct fuel as [|fuel]; [simpl in Hfuel; lia|]);
    destruct Hr as (H0 & H4 & H8 & H12 & Hel);
    pose proof (word_at_Some _ _ _ _ H8) as (_ & _ & Hn & _);
    destruct (load16s_elements buf (HGP.OFFSET body (cr_elements_offset r))
                (cr_num_elements r) Hn Hel) as [Hload Hrange];
    apply load32_word_at in H0, H4, H12; apply load16_word_at in H8;
    cbn [HGP.chunk_loop]; rewrite Hmat, H4, H8, H12; cbn [bind];
    rewrite Hload; cbn [bind]; rewrite H0; cbn [bind].
  - eexists [_]. split; [reflexivity|].
    constructor; [|constructor].
    destruct (elements_from_carried _ _ _ Hrange Hn) as [Hlen Hlook].
    repeat split; assumption.
  - destruct (next =? 0) eqn:E; [lia|].
    edestruct (IH fuel) as (cs & Hrun & Hall); [simpl in Hfuel; lia|].
    eexists (_ :: cs). split; [exact Hrun|].
    constructor; [|exact Hall].
    destruct (elements_from_carried _ _ _ Hrange Hn) as [Hlen Hlook].
    repeat split; assumption.
Qed.

End ChunkChains.

Lemma u32_small (z : Z) : 0 <= z < 2 ^ 32 -> u32 z = z.
Proof. intros H. unfold u32. now apply Z.mod_small. Qed.

Lemma word_at_no_wrap (buf : list byte) (p : Z) (n : nat) (v : Z) :
  Z.of_nat (length buf) <= 2 ^ 32 -> (0 < n)%nat ->
  word_at buf p n = Some v -> u32 p = p.
Proof.
  intros Hlen Hn H. apply word_at_Some in H as (? & ? & _).
  apply u32_small. lia.
Qed.

Section Agreement.
Context {Matrix Texture : Type}.
Variable buf : list byte.
Variable body : Z.
Variable transform : Matrix.
Hypothesis Hlen : Z.of_nat (length buf) <= 2 ^ 32.

Local Abbreviation stream pos := {| LSW.contents := buf; LSW.position := pos |}.

Lemma readChunkInfo_view (off pos : Z) (cd : LSW.Chunk) :
  chunk_view buf (u32 (body + off)) cd ->
  LSW.readChunkInfo (stream pos) body off
  = Ok (cd, stream (u32 (body + off) + 16)).
Proof.
  intros (H0 & H4 & H8 & H12). destruct cd as [next prim n eoff]. simpl in *.
  unfold LSW.readChunkInfo, LSW.readUint32, LSW.readUint16.
  cbn [LSW.seek LSW.contents LSW.position].
  erewrite (read_at buf (u32 (body + off))) by (reflexivity || eassumption).
  cbn [bind LSW.seek LSW.contents LSW.position].
  erewrite (read_at buf (u32 (body + off) + 4)) by (lia || eassumption).
  cbn [bind LSW.seek LSW.contents LSW.position].
  erewrite (read_at buf (u32 (body + off) + 8)) by (lia || eassumption).
  cbn [bind LSW.seek LSW.contents LSW.position].
  erewrite (read_at buf (u32 (body + off) + 12)) by (lia || eassumption).
  cbn [bind]. do 3 f_equal. lia.
Qed.

Lemma readMeshInfo_view (off pos : Z) (m : LSW.Mesh) :
  mesh_view buf (u32 (body + off)) m ->
  LSW.readMeshInfo (stream pos) body off
  = Ok (m, stream (u32 (body + off) + 52)).
Proof.
  intros (H0 & H8 & H12 & H28 & H48). destruct m as [next mat vt vbi co].
  simpl in *.
  unfold LSW.readMeshInfo, LSW.readUint32.
  cbn [LSW.seek LSW.contents LSW.position].
  erewrite (read_at buf (u32 (body + off))) by (reflexivity || eassumption).
  cbn [bind LSW.seek LSW.contents LSW.position].
  erewrite (read_at buf (u32 (body + off) + 8)) by (lia || eassumption).
  cbn [bind LSW.seek LSW.contents LSW.position].
  erewrite (read_at buf (u32 (body + off) + 12)) by (lia || eassumption).
  cbn [bind LSW.seek LSW.contents LSW.position].
  erewrite (read_at buf (u32 (body + off) + 28)) by (lia || eassumption).
  cbn [bind LSW.seek LSW.contents LSW.position].
  erewrite (read_at buf (u32 (body + off) + 48)) by (lia || eassumption).
  cbn [bind]. do 3 f_equal. lia.
Qed.

(** What a successful iteration of the bulk chunk loop has read. *)
Lemma hgp_chunk_loop_step (fuel : nat) (mesh idx chunk_data : Z)
    (w w' : walk Matrix Texture) :
  HGP.chunk_loop buf body transform (S fuel) mesh idx chunk_data w = Ok w' ->
  exists cd mat es,
    chunk_view buf chunk_data cd
    /\ word_at buf (mesh + 8) 4 = Some mat
    /\ HGP.load16s buf (HGP.OFFSET body (LSW.elements_offset cd))
         (LSW.num_elements cd) = Ok es
    /\ let w1 :=
         emit {| Model.vertex_buffer_idx := idx;
                 Model.material_idx := mat;
                 Model.primitive_type := LSW.primitive_type cd;
                 Model.num_elements := LSW.num_elements cd;
                 Model.transformation := transform;
                 Model.element_buffer := es |} w in
       if LSW.chunk_next_offset cd =? 0 then w' = w1
       else HGP.chunk_loop buf body transform fuel mesh idx
              (HGP.OFFSET body (LSW.chunk_next_offset cd)) w1 = Ok w'.
Proof.
  cbn [HGP.chunk_loop]. intros H.
  apply bind_Ok in H as (mat & Hmat & H).
  apply bind_Ok in H as (prim & Hprim & H).
  apply bind_Ok in H as (n & Hn & H).
  apply bind_Ok in H as (eoff & Heoff & H).
  apply bind_Ok in H as (es & Hes & H).
  apply bind_Ok in H as (next & Hnext & H).
  exists {| LSW.chunk_next_offset := next; LSW.primitive_type := prim;
            LSW.num_elements := n; LSW.elements_offset := eoff |}, mat, es.
  apply load32_word_at in Hmat, Hprim, Heoff, Hnext. apply load16_word_at in Hn.
  repeat split; try assumption.
  cbn [LSW.chunk_next_offset LSW.primitive_type LSW.num_elements].
  destruct (next =? 0); [now injection H | exact H].
Qed.

Lemma read_elements_load16s (p n pos : Z) (es : list Z) :
  0 <= n ->
  HGP.load16s buf (body + p) n = Ok es ->
  exists pos',
    LSW.read_elements (Z.to_nat n) (stream (u32 (body + p))) = Ok (es, stream pos').
Proof.
  intros Hn H. destruct (Z.eq_dec n 0) as [->|Hne].
  - unfold HGP.load16s, HGP.memcpy in H. simpl in H. injection H as <-.
    eexists. reflexivity.
  - apply load16s_in_range in H as (? & ? & ->); [|lia].
    rewrite u32_small by lia.
    rewrite read_elements_ok by lia. eauto.
Qed.

Lemma chunk_loop_agree (mesh : Z) (m : LSW.Mesh) (idx : Z) :
  word_at buf (mesh + 8) 4 = Some (LSW.material_idx m) ->
  forall (fuel : nat) (chunk_data : Z) (cd : LSW.Chunk)
         (w w' : walk Matrix Texture) (pos : Z),
    chunk_view buf chunk_data cd ->
    HGP.chunk_loop buf body transform fuel mesh idx chunk_data w = Ok w' ->
    exists pos',
      LSW.chunk_loop body transform fuel m idx cd w (stream pos)
      = Ok (w', stream pos').
Proof.
  intros Hmat. induction fuel as [|fuel IH]; intros chunk_data cd w w' pos Hv H;
    [discriminate|].
  apply hgp_chunk_loop_step in H as (cd' & mat & es & Hv' & Hmat' & Hes & H).
  assert (cd' = cd) as ->.
  { destruct Hv as (A0 & A4 & A8 & A12), Hv' as (B0 & B4 & B8 & B12).
    destruct cd, cd'. simpl in *. congruence. }
  assert (mat = LSW.material_idx m) as -> by congruence.
  destruct Hv as (A0 & A4 & A8 & A12).
  pose proof (word_at_Some _ _ _ _ A8) as (_ & _ & Hn & _).
  destruct (read_elements_load16s _ _ pos _ Hn Hes) as (p1 & Hread).
  cbn [LSW.chunk_loop LSW.seek LSW.contents LSW.position].
  rewrite Hread. cbn [bind]. cbn zeta in H.
  destruct (LSW.chunk_next_offset cd =? 0) eqn:E.
  - subst w'. eauto.
  - destruct fuel as [|fuel']; [discriminate|].
    pose proof H as H'.
    apply hgp_chunk_loop_step in H' as (cd2 & _ & _ & Hv2 & _).
    assert (Hnw : u32 (body + LSW.chunk_next_offset cd)
                  = body + LSW.chunk_next_offset cd).
    { destruct Hv2 as (B0 & _). eapply word_at_no_wrap; [exact Hlen| |exact B0]. lia. }
    rewrite (readChunkInfo_view _ _ cd2) by (rewrite Hnw; exact Hv2).
    cbn [bind]. eapply IH; [exact Hv2 | exact H].
Qed.

Lemma mesh_prologue_agree (mesh : Z) (m : LSW.Mesh) (w : walk Matrix Texture)
    (r : Z * walk Matrix Texture) :
  mesh_view buf mesh m ->
  HGP.mesh_prologue buf mesh w = Ok r -> LSW.mesh_prologue m w = Ok r.
Proof.
  intros (_ & _ & H12 & H28 & _).
  apply load32_word_at in H12, H28.
  unfold HGP.mesh_prologue, LSW.mesh_prologue. rewrite H12, H28. cbn [bind].
  trivial.
Qed.

(** What a successful iteration of the bulk mesh loop has read. *)
Lemma hgp_mesh_loop_step (fuel : nat) (mesh : Z) (w w' : walk Matrix Texture) :
  HGP.mesh_loop buf body transform (S fuel) mesh w = Ok w' ->
  exists m idx w2 w3,
    mesh_view buf mesh m
    /\ HGP.mesh_prologue buf mesh w = Ok (idx, w2)
    /\ HGP.chunk_loop buf body transform (S fuel) mesh idx
         (HGP.OFFSET body (LSW.chunk_offset m)) w2 = Ok w3
    /\ if LSW.mesh_next_offset m =? 0 then w' = w3
       else HGP.mesh_loop buf body transform fuel
              (HGP.OFFSET body (LSW.mesh_next_offset m)) w3 = Ok w'.
Proof.
  cbn [HGP.mesh_loop]. intros H.
  apply bind_Ok in H as ([idx w2] & Hpro & H).
  apply bind_Ok in H as (co & Hco & H).
  apply bind_Ok in H as (w3 & Hchunks & H).
  apply bind_Ok in H as (next & Hnext & H).
  pose proof Hpro as Hpro'. unfold HGP.mesh_prologue in Hpro'.
  apply bind_Ok in Hpro' as (vt & Hvt & Hpro').
  destruct (stride_of vt w) as [stride w1].
  apply bind_Ok in Hpro' as (vbi & Hvbi & _).
  pose proof Hchunks as Hc.
  apply hgp_chunk_loop_step in Hc as (_ & mat & _ & _ & Hmat & _).
  exists {| LSW.mesh_next_offset := next; LSW.material_idx := mat;
            LSW.vertex_type := vt; LSW.vertex_block_idx := vbi;
            LSW.chunk_offset := co |}, idx, w2, w3.
  apply load32_word_at in Hvt, Hvbi, Hco, Hnext.
  repeat split; try assumption.
  cbn [LSW.mesh_next_offset].
  destruct (next =? 0); [now injection H | exact H].
Qed.

Lemma mesh_loop_agree :
  forall (fuel : nat) (mesh : Z) (m : LSW.Mesh)
         (w w' : walk Matrix Texture) (pos : Z),
    mesh_view buf mesh m ->
    HGP.mesh_loop buf body transform fuel mesh w = Ok w' ->
    exists pos',
      LSW.mesh_loop body transform fuel m w (stream pos) = Ok (w', stream pos').
Proof.
  induction fuel as [|fuel IH]; intros mesh m w w' pos Hv H; [discriminate|].
  apply hgp_mesh_loop_step in H as (m' & idx & w2 & w3 & Hv' & Hpro & Hchunks & H).
  assert (m' = m) as ->.
  { destruct Hv as (A0 & A8 & A12 & A28 & A48), Hv' as (B0 & B8 & B12 & B28 & B48).
    destruct m, m'. simpl in *. congruence. }
  cbn [LSW.mesh_loop].
  rewrite (mesh_prologue_agree _ _ _ _ Hv Hpro). cbn [bind].
  pose proof Hchunks as Hc.
  apply hgp_chunk_loop_step in Hc as (cd & _ & _ & Hcv & _).
  assert (Hnw : u32 (body + LSW.chunk_offset m) = body + LSW.chunk_offset m).
  { destruct Hcv as (B0 & _). eapply word_at_no_wrap; [exact Hlen| |exact B0]. lia. }
  rewrite (readChunkInfo_view _ _ cd) by (rewrite Hnw; exact Hcv).
  cbn [bind].
  destruct Hv as (A0 & A8 & A12 & A28 & A48).
  destruct (chunk_loop_agree mesh m idx A8 _ _ _ _ _
              (u32 (body + LSW.chunk_offset m) + 16) Hcv Hchunks) as (p1 & Hrun).
  rewrite Hrun. cbn [bind].
  destruct (LSW.mesh_next_offset m =? 0) eqn:E.
  - subst w'. eauto.
  - destruct fuel as [|fuel']; [discriminate|].
    pose proof H as H'.
    apply hgp_mesh_loop_step in H' as (m2 & _ & _ & _ & Hv2 & _).
    assert (Hnw2 : u32 (body + LSW.mesh_next_offset m)
                   = body + LSW.mesh_next_offset m).
    { destruct Hv2 as (B0 & _). eapply word_at_no_wrap; [exact Hlen| |exact B0]. lia. }
    rewrite (readMeshInfo_view _ _ m2) by (rewrite Hnw2; exact Hv2).
    cbn [bind]. eapply IH; [exact Hv2 | exact H].
Qed.

Lemma processMesh_agree (fuel : nat) (mesh_header_offset : Z)
    (w w' : walk Matrix Texture) (pos : Z) :
  0 <= body -> 0 <= mesh_header_offset ->
  HGP.processMesh buf body transform fuel mesh_header_offset w = Ok w' ->
  exists pos',
    LSW.processMesh body transform fuel mesh_header_offset w (stream pos)
    = Ok (w', stream pos').
Proof.
  intros Hbody Hoff. unfold HGP.processMesh, LSW.processMesh.
  destruct (mesh_header_offset =? 0); [intros [= <-]; eauto|].
  intros H. apply bind_Ok in H as (mesh_offset & Hmo & H).
  apply load32_word_at in Hmo. unfold HGP.OFFSET in Hmo.
  pose proof (word_at_Some _ _ _ _ Hmo) as (_ & Hhi & _).
  rewrite (u32_small (body + mesh_header_offset)) by lia.
  unfold LSW.readUint32. cbn [LSW.seek LSW.contents LSW.position].
  erewrite (read_at buf (body + mesh_header_offset + 12)) by (lia || eassumption).
  cbn [bind].
  destruct (mesh_offset =? 0); [injection H as <-; eauto|].
  destruct fuel as [|fuel]; [discriminate|].
  pose proof H as H'.
  apply hgp_mesh_loop_step in H' as (m & _ & _ & _ & Hv & _).
  assert (Hnw : u32 (body + mesh_offset) = body + mesh_offset).
  { destruct Hv as (B0 & _). eapply word_at_no_wrap; [exact Hlen| |exact B0]. lia. }
  rewrite (readMeshInfo_view _ _ m) by (rewrite Hnw; exact Hv).
  cbn [bind]. eapply mesh_loop_agree; [exact Hv | exact H].
Qed.
End Agreement.

(** ** Counted loops *)

Lemma for_loop_invariant {S : Type} (Inv : Z -> S -> Prop)
    (body : Z -> S -> result S) (hi : Z) :
  (forall i s, 0 <= i < hi -> Inv i s -> exists s', body i s = Ok s' /\ Inv (i + 1) s') ->
  forall (n : nat) (i : Z) (s : S),
    0 <= i -> i + Z.of_nat n = hi -> Inv i s ->
    exists s', HGP.for_loop n i body s = Ok s' /\ Inv hi s'.
Proof.
  intros Hstep. induction n as [|n IH]; intros i s Hi Hn Hinv.
  - exists s. split; [reflexivity|]. replace hi with i by lia. exact Hinv.
  - destruct (Hstep i s) as (s1 & Hb & Hinv1); [lia|exact Hinv|].
    cbn [HGP.for_loop]. rewrite Hb. cbn [bind]. apply IH; [lia|lia|exact Hinv1].
Qed.

Lemma vec_at_lookup {A : Type} (v : list A) (i : nat) (x : A) :
  v !! i = Some x -> vec_at v (Z.of_nat i) = Ok x.
Proof.
  intros H. unfold vec_at.
  destruct (Z.ltb_spec (Z.of_nat i) 0); [lia|].
  rewrite Nat2Z.id, H. reflexivity.
Qed.

Lemma vec_at_lookup_Z {A : Type} (v : list A) (i : Z) (x : A) :
  0 <= i -> v !! Z.to_nat i = Some x -> vec_at v i = Ok x.
Proof.
  intros Hi H. rewrite <- (Z2Nat.id i Hi). now apply vec_at_lookup.
Qed.

Lemma vec_set_lookup {A : Type} (v : list A) (i : nat) (f : A -> A) (x : A) :
  v !! i = Some x -> vec_set v (Z.of_nat i) f = Ok (<[i := f x]> v).
Proof.
  intros H. unfold vec_set. rewrite (vec_at_lookup v i x H). cbn [bind].
  rewrite Nat2Z.id. reflexivity.
Qed.

Section Transforms.
Context {Matrix : Type}.
Variable Matrix_mul : Matrix -> Matrix -> Matrix.
Variable Matrix_default : Matrix.
Variable transform_matrices : Z -> result Matrix.
Variable parent_idx : Z -> result Z.
Variable locals : list Matrix.
Variable parents : list Z.

Hypothesis Hlocals :
  forall i l, locals !! i = Some l -> transform_matrices (Z.of_nat i) = Ok l.
Hypothesis Hparents :
  forall i p, parents !! i = Some p -> parent_idx (Z.of_nat i) = Ok p.
Hypothesis Hforest :
  forall i p, parents !! i = Some p -> p = -1 \/ 0 <= p < Z.of_nat i.
Hypothesis Hsame : length parents = length locals.

Lemma transform_step_invariant (i : Z) (mt : list Matrix) :
  0 <= i < Z.of_nat (length locals) ->
  (length mt = length locals
   /\ forall j : nat, Z.of_nat j < i -> world_entry Matrix_mul locals parents mt j) ->
  exists mt',
    HGP.transform_step Matrix_mul transform_matrices parent_idx i mt = Ok mt'
    /\ length mt' = length locals
    /\ forall j : nat, Z.of_nat j < i + 1 -> world_entry Matrix_mul locals parents mt' j.
Proof.
  intros Hi [Hlen Hdone].
  set (k := Z.to_nat i). assert (Hk : i = Z.of_nat k) by lia.
  destruct (lookup_lt_is_Some_2 locals k) as [l Hl]; [lia|].
  destruct (lookup_lt_is_Some_2 parents k) as [p Hp]; [lia|].
  destruct (lookup_lt_is_Some_2 mt k) as [old Hold]; [lia|].
  unfold HGP.transform_step. rewrite Hk.
  rewrite (Hlocals _ _ Hl). cbn [bind].
  rewrite (vec_set_lookup _ _ _ _ Hold). cbn [bind].
  rewrite (Hparents _ _ Hp). cbn [bind].
  assert (Hkeep : forall (mt' : list Matrix) (j : nat),
             length mt' = length locals ->
             (forall q : nat, (q < k)%nat -> mt' !! q = mt !! q) ->
             Z.of_nat j < Z.of_nat k -> world_entry Matrix_mul locals parents mt' j).
  { intros mt' j Hlen' Hsame' Hj l' p' Hl' Hp'.
    destruct (Hdone j ltac:(lia) l' p' Hl' Hp') as [Hroot Hchild].
    split.
    - intros ->. rewrite Hsame' by lia. now apply Hroot.
    - intros Hne. destruct (Hchild Hne) as (wp & Hwp & Hj').
      destruct (Hforest _ _ Hp') as [|Hr]; [contradiction|].
      exists wp. rewrite !Hsame' by lia. auto. }
  destruct (Z.eqb_spec p (-1)) as [E|E].
  - eexists. split; [reflexivity|]. rewrite length_insert. split; [exact Hlen|].
    intros j Hj. destruct (decide (j = k)) as [->|Hne].
    + intros l' p' Hl' Hp'.
      assert (l' = l) as -> by congruence. assert (p' = p) as -> by congruence.
      split; [|lia]. intros _. apply list_lookup_insert_eq. lia.
    + apply Hkeep; [now rewrite length_insert| |lia].
      intros q Hq. apply list_lookup_insert_ne. lia.
  - destruct (Hforest _ _ Hp) as [|Hr]; [lia|].
    destruct (lookup_lt_is_Some_2 mt (Z.to_nat p)) as [wp Hwp]; [lia|].
    assert (Hk1 : <[k := l]> mt !! k = Some l)
      by (apply list_lookup_insert_eq; lia).
    assert (Hp1 : <[k := l]> mt !! Z.to_nat p = Some wp)
      by (rewrite list_lookup_insert_ne by lia; exact Hwp).
    rewrite (vec_at_lookup _ _ _ Hk1). cbn [bind].
    rewrite (vec_at_lookup_Z _ p _ ltac:(lia) Hp1). cbn [bind].
    rewrite (vec_set_lookup _ _ _ _ Hk1).
    eexists. split; [reflexivity|]. rewrite !length_insert. split; [exact Hlen|].
    intros j Hj. destruct (decide (j = k)) as [->|Hne].
    + intros l' p' Hl' Hp'.
      assert (l' = l) as -> by congruence. assert (p' = p) as -> by congruence.
      split; [lia|]. intros _. exists wp. split.
      * rewrite !list_lookup_insert_ne by lia. exact Hwp.
      * apply list_lookup_insert_eq. rewrite length_insert. lia.
    + apply Hkeep; [now rewrite !length_insert| |lia].
      intros q Hq. rewrite !list_lookup_insert_ne by lia. reflexivity.
Qed.

Lemma compose_transforms_correct :
  exists world,
    HGP.compose_transforms Matrix_mul Matrix_default transform_matrices
      parent_idx (Z.of_nat (length locals)) = Ok world
    /\ length world = length locals
    /\ forall i : nat, world_entry Matrix_mul locals parents world i.
Proof.
  unfold HGP.compose_transforms. rewrite Nat2Z.id.
  destruct (for_loop_invariant
              (fun i mt => length mt = length locals
                           /\ forall j : nat, Z.of_nat j < i -> world_entry Matrix_mul locals parents mt j)
              (HGP.transform_step Matrix_mul transform_matrices parent_idx)
              (Z.of_nat (length locals))
              transform_step_invariant
              (length locals) 0 (replicate (length locals) Matrix_default))
    as (world & Hrun & Hlen & Hall).
  - lia.
  - lia.
  - split; [apply length_replicate | intros; lia].
  - exists world. split; [exact Hrun|]. split; [exact Hlen|].
    intros i. destruct (decide (i < length locals)%nat) as [Hi|Hi].
    + apply Hall. lia.
    + intros l p Hl _. apply lookup_lt_Some in Hl. lia.
Qed.
End Transforms.

Section AssemblerFacts.
Context {Matrix Texture : Type}.
Variable Matrix_mul : Matrix -> Matrix -> Matrix.
Variable Matrix_of_bytes : list byte -> Matrix.
Variable walker : Z -> Matrix -> walk Matrix Texture -> result (walk Matrix Texture).
Variable buf : list byte.
Variable body : Z.
Variable layer_headers : Z.
Variable static_transform_matrices : Z.
Variable num_meshes : Z.
Variable world : list Matrix.

Local Abbreviation run := (run_calls walker).
Local Abbreviation slot_body :=
  (HGP.slot_body Matrix_mul Matrix_of_bytes walker buf body layer_headers
     static_transform_matrices num_meshes world).
Local Abbreviation layer_body :=
  (HGP.layer_body Matrix_mul Matrix_of_bytes walker buf body layer_headers
     static_transform_matrices num_meshes world).

Lemma run_calls_app (cs1 cs2 : list (call (Matrix := Matrix)))
    (w : walk Matrix Texture) :
  run (cs1 ++ cs2) w = let* w' := run cs1 w in run cs2 w'.
Proof.
  revert w. induction cs1 as [|[off t] cs1 IH]; intros w; [reflexivity|].
  cbn [app run_calls]. destruct (walker off t w); cbn [bind]; [apply IH|reflexivity].
Qed.

Lemma word_at_load32 (p v : Z) : word_at buf p 4 = Some v -> HGP.load32 buf p = Ok v.
Proof. apply load32_word_at. Qed.

Lemma per_mesh_calls (slot : Z) (n start : nat) (cs : list call)
    (w : walk Matrix Texture) :
  mapM (fun k : nat =>
          off ← word_at buf (body + slot + 4 * Z.of_nat k) 4;
          t ← world !! k;
          Some (off, t)) (seq start n) = Some cs ->
  HGP.for_loop n (Z.of_nat start)
    (fun k w =>
       let* mesh_header_offset := HGP.load32 buf (HGP.OFFSET body slot + 4 * k) in
       let* transform := vec_at world k in
       walker mesh_header_offset transform w) w
  = run cs w.
Proof.
  revert start cs w. induction n as [|n IH]; intros start cs w H.
  - injection H as <-. reflexivity.
  - cbn [seq mapM] in H.
    destruct (word_at buf (body + slot + 4 * Z.of_nat start) 4) as [off|] eqn:Eo;
      [|discriminate].
    destruct (world !! start) as [t|] eqn:Et; [|discriminate].
    cbn [mbind option_bind] in H.
    destruct (mapM _ (seq (S start) n)) as [cs'|] eqn:Em; [|discriminate].
    injection H as <-.
    cbn [HGP.for_loop]. unfold HGP.OFFSET.
    rewrite (word_at_load32 _ _ Eo). cbn [bind].
    rewrite (vec_at_lookup _ _ _ Et). cbn [bind run_calls].
    destruct (walker off t w) as [w'|f]; cbn [bind]; [|reflexivity].
    replace (Z.of_nat start + 1) with (Z.of_nat (S start)) by lia.
    apply IH. exact Em.
Qed.

Lemma slot_body_calls (i : Z) (j : nat) (cs : list call) (w : walk Matrix Texture) :
  (j < 4)%nat ->
  slot_calls Matrix_mul Matrix_of_bytes buf body layer_headers
    static_transform_matrices num_meshes world i j = Some cs ->
  slot_body i (Z.of_nat j) w = run cs w.
Proof.
  intros Hj H. unfold slot_calls in H. unfold HGP.slot_body, HGP.mesh_header_list_offset.
  destruct (word_at buf (layer_headers + 20 * i + 4 + 4 * Z.of_nat j) 4)
    as [slot|] eqn:Es; [|discriminate].
  cbn [mbind option_bind] in H.
  rewrite (word_at_load32 _ _ Es). cbn [bind].
  destruct (slot =? 0); [injection H as <-; reflexivity|].
  assert (Hpar : (Z.of_nat j mod 2 =? 0) = Nat.even j)
    by (destruct j as [|[|[|[|j]]]]; [reflexivity..|lia]).
  rewrite Hpar. destruct (Nat.even j).
  - apply (per_mesh_calls slot _ 0%nat). exact H.
  - unfold odd_slot_calls in H. unfold HGP.load_matrix, HGP.load.
    destruct (slice buf static_transform_matrices 64) as [bs|]; [|discriminate].
    cbn [mbind option_bind] in H.
    destruct (world !! 0%nat) as [m0|] eqn:E0; [|discriminate].
    injection H as <-. cbn [bind].
    rewrite (vec_at_lookup_Z world 0 m0 ltac:(lia) E0). cbn [bind run_calls].
    destruct (walker slot _ w); reflexivity.
Qed.

Lemma layer_calls_run (i : Z) (cs : list call) (w : walk Matrix Texture) :
  layer_calls Matrix_mul Matrix_of_bytes buf body layer_headers
    static_transform_matrices num_meshes world i = Some cs ->
  HGP.for_loop 4 0 (slot_body i) w = run cs w.
Proof.
  unfold layer_calls. cbn [mapM]. intros H.
  destruct (slot_calls _ _ _ _ _ _ _ _ i 0) as [c0|] eqn:E0; [|discriminate].
  destruct (slot_calls _ _ _ _ _ _ _ _ i 1) as [c1|] eqn:E1; [|discriminate].
  destruct (slot_calls _ _ _ _ _ _ _ _ i 2) as [c2|] eqn:E2; [|discriminate].
  destruct (slot_calls _ _ _ _ _ _ _ _ i 3) as [c3|] eqn:E3; [|discriminate].
  injection H as <-. cbn [concat]. rewrite app_nil_r.
  assert (R : forall (j : nat) (z : Z) c w,
             z = Z.of_nat j -> (j < 4)%nat ->
             slot_calls Matrix_mul Matrix_of_bytes buf body layer_headers
               static_transform_matrices num_meshes world i j = Some c ->
             slot_body i z w = run c w)
    by (intros j z c w' -> Hj Hc; now apply slot_body_calls).
  cbn [HGP.for_loop]. rewrite run_calls_app.
  rewrite (R 0%nat 0 c0 w eq_refl ltac:(lia) E0).
  destruct (run c0 w) as [w0|]; cbn [bind]; [|reflexivity].
  rewrite run_calls_app, (R 1%nat (0 + 1) c1 w0 eq_refl ltac:(lia) E1).
  destruct (run c1 w0) as [w1|]; cbn [bind]; [|reflexivity].
  rewrite run_calls_app, (R 2%nat (0 + 1 + 1) c2 w1 eq_refl ltac:(lia) E2).
  destruct (run c2 w1) as [w2|]; cbn [bind]; [|reflexivity].
  rewrite (R 3%nat (0 + 1 + 1 + 1) c3 w2 eq_refl ltac:(lia) E3).
  destruct (run c3 w2) as [w3|]; reflexivity.
Qed.

Lemma layers_skipped (n : nat) (i : Z) (w : walk Matrix Texture) :
  3 <= i -> HGP.for_loop n i layer_body w = Ok w.
Proof.
  revert i. induction n as [|n IH]; intros i Hi; [reflexivity|].
  cbn [HGP.for_loop]. unfold HGP.layer_body at 1.
  destruct (Z.eqb_spec i 0); [lia|]. destruct (Z.eqb_spec i 2); [lia|].
  cbn [negb andb bind]. apply IH. lia.
Qed.

Lemma layer_body_0 (w : walk Matrix Texture) :
  layer_body 0 w = HGP.for_loop 4 0 (slot_body 0) w.
Proof. reflexivity. Qed.

Lemma layer_body_1 (w : walk Matrix Texture) : layer_body (0 + 1) w = Ok w.
Proof. reflexivity. Qed.

Lemma layer_body_2 (w : walk Matrix Texture) :
  layer_body (0 + 1 + 1) w = HGP.for_loop 4 0 (slot_body 2) w.
Proof. reflexivity. Qed.

End AssemblerFacts.

(** ** Vertex strides *)

Section Strides.
Context {Matrix Texture : Type}.

Lemma stride_of_table (vertex_type : Z) (w : walk Matrix Texture) :
  stride_of vertex_type w
  = (stride_table vertex_type,
     {| model := model w; vbufs := vbufs w;
        stderr := stderr w ++ unknown_type_line vertex_type |}).
Proof.
  unfold stride_of, stride_table, unknown_type_line, known_vertex_type, print.
  destruct w as [m v e]. simpl.
  destruct (vertex_type =? 89); [now rewrite app_nil_r|].
  destruct (vertex_type =? 93); [now rewrite app_nil_r|]. reflexivity.
Qed.



Lemma hgp_mesh_prologue_stride (buf : list byte) (mesh vertex_type vbi : Z)
    (w : walk Matrix Texture) (vb : Model.VertexBuffer) :
  let idx := to_int (vbi - 1) in
  word_at buf (mesh + 12) 4 = Some vertex_type ->
  word_at buf (mesh + 28) 4 = Some vbi ->
  vec_at (vbufs w) idx = Ok vb ->
  HGP.mesh_prologue buf mesh w = Ok (idx, after_prologue vertex_type idx vb w).
Proof.
  intros idx Hvt Hvbi Hvb. apply load32_word_at in Hvt, Hvbi.
  unfold HGP.mesh_prologue. rewrite Hvt. cbn [bind]. rewrite stride_of_table.
  rewrite Hvbi. cbn [bind]. fold idx. unfold vec_set. cbn [vbufs].
  rewrite Hvb. reflexivity.
Qed.
End Strides.

(** ** Texture references *)

Lemma land_low15 (s : Z) : Z.land s 0x7FFF = s mod 2 ^ 15.
Proof. change 0x7FFF with (Z.ones 15). apply Z.land_ones. lia. Qed.

Lemma land_bit15 (s : Z) :
  - 2 ^ 15 <= s < 2 ^ 15 -> (Z.land s 0x8000 = 0 <-> 0 <= s).
Proof.
  intros Hs. change 0x8000 with (2 ^ 15).
  assert (Hbit : Z.testbit (Z.land s (2 ^ 15)) 15 = Z.testbit s 15).
  { rewrite Z.land_spec, Z.pow2_bits_true by lia. apply andb_true_r. }
  split.
  - intros H0. rewrite H0, Z.bits_0 in Hbit.
    destruct (Z.neg_nonneg_cases s) as [Hneg|]; [|assumption].
    symmetry in Hbit. apply Z.testbit_false in Hbit; [|lia].
    replace (s / 2 ^ 15) with (-1) in Hbit; [discriminate|].
    apply (Z.div_unique s (2 ^ 15) (-1) (s + 2 ^ 15)); lia.
  - intros Hpos. apply Z.bits_inj'. intros n Hn.
    rewrite Z.bits_0, Z.land_spec.
    destruct (Z.eq_dec n 15) as [->|Hne].
    + replace (Z.testbit s 15) with false; [reflexivity|].
      symmetry. apply Z.testbit_false; [lia|].
      rewrite Z.div_small by lia. reflexivity.
    + rewrite Z.pow2_bits_false by lia. apply andb_false_r.
Qed.

Lemma normalize_texture_idx_cases (stored : Z) :
  - 2 ^ 15 <= stored < 2 ^ 15 ->
  (stored < 0 -> stored <> -1 ->
   HGP.normalize_texture_idx stored = stored mod 2 ^ 15)
  /\ (0 <= stored \/ stored = -1 -> HGP.normalize_texture_idx stored = stored).
Proof.
  intros Hs. pose proof (land_bit15 stored Hs) as Hbit.
  unfold HGP.normalize_texture_idx. rewrite land_low15. split.
  - intros Hneg Hne.
    destruct (Z.eqb_spec stored (-1)); [contradiction|].
    destruct (Z.eqb_spec (Z.land stored 0x8000) 0) as [E|E]; [|reflexivity].
    apply Hbit in E. lia.
  - intros [Hpos| ->]; [|reflexivity].
    destruct (Z.eqb_spec stored (-1)); [lia|].
    destruct (Z.eqb_spec (Z.land stored 0x8000) 0) as [E|E]; [reflexivity|].
    destruct E. now apply Hbit.
Qed.

(** ** What a walk leaves untouched *)

Section Grows.
Context {Matrix Texture : Type}.
Local Abbreviation walk := (walk Matrix Texture).

Lemma grows_refl (w : walk) : grows w w.
Proof. repeat split. exists []. now rewrite app_nil_r. Qed.

Lemma grows_trans (w1 w2 w3 : walk) : grows w1 w2 -> grows w2 w3 -> grows w1 w3.
Proof.
  intros (A1 & A2 & A3 & A4 & cs1 & A5) (B1 & B2 & B3 & B4 & cs2 & B5).
  repeat split; try congruence.
  exists (cs1 ++ cs2). rewrite B5, A5. now rewrite app_assoc.
Qed.

Lemma grows_emit (c : Model.Chunk Matrix) (w : walk) : grows w (emit c w).
Proof. repeat split. now exists [c]. Qed.

Lemma emit_all_chunks (cs : list (Model.Chunk Matrix)) (w : walk) :
  Model.chunks (model (emit_all cs w)) = Model.chunks (model w) ++ cs
  /\ grows w (emit_all cs w).
Proof.
  revert w. induction cs as [|c cs IH]; intros w.
  - split; [now rewrite app_nil_r | apply grows_refl].
  - destruct (IH (emit c w)) as [Hc Hg]. split.
    + cbn [emit_all fold_left] in *. unfold emit_all in Hc. rewrite Hc.
      cbn. now rewrite <- app_assoc.
    + eapply grows_trans; [apply grows_emit | exact Hg].
Qed.






End Grows.

(** ** The first chunk of a mesh *)

Section FirstChunk.
Context {Matrix Texture : Type}.
Local Abbreviation walk := (walk Matrix Texture).
Variable buf : list byte.
Variable body : Z.
Variable transform : Matrix.


End FirstChunk.

(** ** Reads of the stream *)

Lemma read_Ok (s s' : LSW.Stream) (n : nat) (v : Z) :
  LSW.read s n = Ok (v, s') ->
  word_at (LSW.contents s) (LSW.position s) n = Some v
  /\ s' = {| LSW.contents := LSW.contents s;
             LSW.position := LSW.position s + Z.of_nat n |}.
Proof.
  unfold LSW.read, word_at.
  destruct (slice (LSW.contents s) (LSW.position s) n); [|discriminate].
  intros [= <- <-]. split; reflexivity.
Qed.

Lemma read_out_of_range (s : LSW.Stream) (n : nat) :
  ~ (0 <= LSW.position s
     /\ LSW.position s + Z.of_nat n <= Z.of_nat (length (LSW.contents s))) ->
  LSW.read s n = Fail BoundsError.
Proof.
  intros H. unfold LSW.read.
  destruct (slice (LSW.contents s) (LSW.position s) n) as [bs|] eqn:E; [|reflexivity].
  apply slice_Some in E as (? & ? & _). tauto.
Qed.

Ltac read_inv H :=
  let v := fresh "v" in
  let s := fresh "s" in
  let Hr := fresh "Hr" in
  let Hs := fresh "Hs" in
  apply bind_Ok in H as ([v s] & Hr & H);
  apply read_Ok in Hr as (Hr & Hs); cbn [LSW.contents LSW.position LSW.seek] in Hr, Hs;
  subst s; cbn [LSW.contents LSW.position LSW.seek] in H.

Lemma readChunkInfo_Ok (s s' : LSW.Stream) (body_offset off : Z) (cd : LSW.Chunk) :
  LSW.readChunkInfo s body_offset off = Ok (cd, s') ->
  chunk_view (LSW.contents s) (u32 (body_offset + off)) cd
  /\ LSW.contents s' = LSW.contents s.
Proof.
  unfold LSW.readChunkInfo, LSW.readUint32, LSW.readUint16. intros H.
  cbn [LSW.contents LSW.position LSW.seek] in H.
  read_inv H. read_inv H. read_inv H. read_inv H.
  injection H as <- <-. unfold chunk_view. cbn.
  repeat split; try assumption.
  - now replace (u32 (body_offset + off) + 8) with
      (u32 (body_offset + off) + Z.of_nat 4 + Z.of_nat 4) by lia.
  - now replace (u32 (body_offset + off) + 12) with
      (u32 (body_offset + off) + Z.of_nat 4 + Z.of_nat 4 + Z.of_nat 2 + 2) by lia.
Qed.



Section LswFirstChunk.
Context {Matrix Texture : Type}.
Local Abbreviation walk := (walk Matrix Texture).
Variable body_offset : Z.
Variable transform : Matrix.


End LswFirstChunk.

Lemma for_loop_preserves {S : Type} (R : S -> S -> Prop) (body : Z -> S -> result S) :
  (forall s, R s s) -> (forall s1 s2 s3, R s1 s2 -> R s2 s3 -> R s1 s3) ->
  (forall i s s', body i s = Ok s' -> R s s') ->
  forall (n : nat) (i : Z) (s s' : S), HGP.for_loop n i body s = Ok s' -> R s s'.
Proof.
  intros Hrefl Htrans Hbody. induction n as [|n IH]; intros i s s' H.
  - injection H as <-. apply Hrefl.
  - cbn [HGP.for_loop] in H. apply bind_Ok in H as (s1 & Hb & H).
    eapply Htrans; [exact (Hbody _ _ _ Hb) | exact (IH _ _ _ H)].
Qed.

Section Assembly.
Context {Matrix Texture : Type}.
Local Abbreviation walk := (walk Matrix Texture).


Variable Matrix_mul : Matrix -> Matrix -> Matrix.
Variable Matrix_of_bytes : list byte -> Matrix.
Variable walker : Z -> Matrix -> walk -> result walk.
Hypothesis walker_grows :
  forall off t w w', walker off t w = Ok w' -> grows w w'.

End Assembly.

Section Constructor.
Context {Matrix Texture : Type}.
Variable Matrix_mul : Matrix -> Matrix -> Matrix.
Variable Matrix_default : Matrix.
Variable Matrix_of_bytes : list byte -> Matrix.
Variable DDSTexture : list byte -> Z -> Texture.
Variable Texture_default : Texture.

End Constructor.

Section StreamChains.
Context {Matrix Texture : Type}.
Variable buf : list byte.
Variable body : Z.
Variable transform : Matrix.
Hypothesis Hlen : Z.of_nat (length buf) <= 2 ^ 32.

Local Abbreviation stream pos := {| LSW.contents := buf; LSW.position := pos |}.

Lemma lsw_read_elements_chain (eoff n pos : Z) :
  0 <= n ->
  (0 < n -> 0 <= body + eoff /\ body + eoff + 2 * n <= Z.of_nat (length buf)) ->
  exists pos',
    LSW.read_elements (Z.to_nat n) (stream (u32 (body + eoff)))
    = Ok (elements_from buf (body + eoff) (Z.to_nat n), stream pos').
Proof.
  intros Hn Hr. destruct (Z.eq_dec n 0) as [->|Hne].
  - eexists. reflexivity.
  - destruct Hr as [? ?]; [lia|].
    rewrite u32_small by lia. rewrite read_elements_ok by lia. eauto.
Qed.

Lemma lsw_chunk_loop_chain (m : LSW.Mesh) (idx off : Z) (recs : list chunk_record) :
  chunk_chain buf (HGP.OFFSET body) off recs ->
  forall (fuel : nat) (w : walk Matrix Texture) (pos : Z),
    (length recs <= fuel)%nat ->
    exists cs chunk_data p1 p2,
      LSW.readChunkInfo (stream pos) body off = Ok (chunk_data, stream p1)
      /\ LSW.chunk_loop body transform fuel m idx chunk_data w (stream p1)
         = Ok (emit_all cs w, stream p2)
      /\ Forall2 (emitted_for buf transform (HGP.OFFSET body) idx (LSW.material_idx m))
           cs recs.
Proof.
  intros Hchain.
  induction Hchain as [off r Hr | off next r rs Hnext Hr Hchain IH];
    intros fuel w pos Hfuel; (destruct fuel as [|fuel]; [simpl in Hfuel; lia|]);
    destruct Hr as (H0 & H4 & H8 & H12 & Hel); unfold HGP.OFFSET in *;
    pose proof (word_at_no_wrap buf (body + off) 4 _ Hlen ltac:(lia) H0) as Hnw;
    pose proof (word_at_Some _ _ _ _ H8) as (_ & _ & Hn & _);
    destruct (load16s_elements buf (body + cr_elements_offset r)
                (cr_num_elements r) Hn Hel) as [_ Hrange];
    destruct (elements_from_carried _ _ _ Hrange Hn) as [Hlen' Hlook];
    destruct (lsw_read_elements_chain (cr_elements_offset r) (cr_num_elements r)
                pos Hn Hrange) as (pe & Hread).
  - eexists [_], _, _, _.
    split.
    { apply (readChunkInfo_view buf body off pos
               {| LSW.chunk_next_offset := 0;
                  LSW.primitive_type := cr_primitive_type r;
                  LSW.num_elements := cr_num_elements r;
                  LSW.elements_offset := cr_elements_offset r |}).
      rewrite Hnw. repeat split; assumption. }
    cbn [LSW.chunk_loop LSW.seek LSW.contents LSW.position LSW.num_elements
         LSW.elements_offset LSW.chunk_next_offset].
    rewrite Hread. cbn [bind Z.eqb].
    split; [reflexivity|].
    constructor; [|constructor]. repeat split; assumption.
  - edestruct (IH fuel) as (cs & cd & p1 & p2 & Hinfo & Hrun & Hall);
      [simpl in Hfuel; lia|].
    eexists (_ :: cs), _, _, p2.
    split.
    { apply (readChunkInfo_view buf body off pos
               {| LSW.chunk_next_offset := next;
                  LSW.primitive_type := cr_primitive_type r;
                  LSW.num_elements := cr_num_elements r;
                  LSW.elements_offset := cr_elements_offset r |}).
      rewrite Hnw. repeat split; assumption. }
    cbn [LSW.chunk_loop LSW.seek LSW.contents LSW.position LSW.num_elements
         LSW.elements_offset LSW.chunk_next_offset].
    rewrite Hread. cbn [bind].
    destruct (next =? 0) eqn:E; [lia|].
    rewrite Hinfo. cbn [bind]. split; [exact Hrun|].
    constructor; [|exact Hall]. repeat split; assumption.
Qed.
End StreamChains.

(** A tree of roots only: the world transforms are the local ones. *)
Corollary all_roots_world {Matrix : Type}
    (Matrix_mul : Matrix -> Matrix -> Matrix) (Matrix_default : Matrix)
    (transform_matrices : Z -> result Matrix) (parent_idx : Z -> result Z)
    (locals : list Matrix) (parents : list Z) :
  length parents = length locals ->
  (forall i l, locals !! i = Some l -> transform_matrices (Z.of_nat i) = Ok l) ->
  (forall i p, parents !! i = Some p -> parent_idx (Z.of_nat i) = Ok p) ->
  (forall i p, parents !! i = Some p -> p = -1) ->
  HGP.compose_transforms Matrix_mul Matrix_default transform_matrices
    parent_idx (Z.of_nat (length locals)) = Ok locals.
Proof.
  intros Hsame Hlocals Hparents Hroots.
  destruct (compose_transforms_correct Matrix_mul Matrix_default transform_matrices
              parent_idx locals parents Hlocals Hparents) as (world & Hrun & Hlen & Hall).
  - intros i p Hp. left. exact (Hroots i p Hp).
  - exact Hsame.
  - rewrite Hrun. f_equal. apply list_eq. intros i.
    destruct (locals !! i) as [l|] eqn:El.
    + destruct (lookup_lt_is_Some_2 parents i) as [p Hp];
        [rewrite Hsame; now apply lookup_lt_Some in El|].
      destruct (Hall i l p El Hp) as [Hroot _]. apply Hroot. exact (Hroots i p Hp).
    + apply lookup_ge_None. apply lookup_ge_None in El. lia.
Qed.

(** ** The bulk walker reports nothing *)







Section Unchecked.
Context {Matrix Texture : Type}.
Variable buf : list byte.
Variable body : Z.
Variable transform : Matrix.




End Unchecked.

(** ** The transform composer *)

(** C1. When the readers of the two arrays deliver [locals] and [parents]
    (both of length [num_meshes]) and every parent index is -1 or an
    earlier index, the single ascending pass of the constructor returns the
    world-transform array: it has the same length, [world[i] = local[i]]
    where [parent_idx[i] = -1], and [world[i] = local[i] *
    world[parent_idx[i]]] otherwise, the local transform on the left. *)
Theorem compose_transforms_world {Matrix : Type}
    (Matrix_mul : Matrix -> Matrix -> Matrix) (Matrix_default : Matrix)
    (transform_matrices : Z -> result Matrix) (parent_idx : Z -> result Z)
    (locals : list Matrix) (parents : list Z) :
  length parents = length locals ->
  (forall i l, locals !! i = Some l -> transform_matrices (Z.of_nat i) = Ok l) ->
  (forall i p, parents !! i = Some p -> parent_idx (Z.of_nat i) = Ok p) ->
  (forall i p, parents !! i = Some p -> p = -1 \/ 0 <= p < Z.of_nat i) ->
  exists world,
    HGP.compose_transforms Matrix_mul Matrix_default transform_matrices
      parent_idx (Z.of_nat (length locals)) = Ok world
    /\ length world = length locals
    /\ forall i : nat, world_entry Matrix_mul locals parents world i.
Proof.
  intros Hsame Hlocals Hparents Hforest.
  now apply compose_transforms_correct.
Qed.

Lemma compose_transforms_world_witness :
  exists world,
    HGP.compose_transforms Z.mul 0 (vec_at [2; 3; 5]) (vec_at [-1; 0; 1])
      (Z.of_nat (length [2; 3; 5])) = Ok world
    /\ length world = length [2; 3; 5]
    /\ forall i : nat, world_entry Z.mul [2; 3; 5] [-1; 0; 1] world i.
Proof.
  apply (compose_transforms_world Z.mul 0 (vec_at [2; 3; 5]) (vec_at [-1; 0; 1])
           [2; 3; 5] [-1; 0; 1]).
  - reflexivity.
  - intros [|[|[|i]]] l; simpl; intros [= <-]; reflexivity.
  - intros [|[|[|i]]] p; simpl; intros [= <-]; reflexivity.
  - intros [|[|[|i]]] p; simpl; intros [= <-]; lia.
Defined.

(** ** Chunk chains *)

(** C2. For a chain of N chunk records in a file (shorter than 4 GiB, as
    its 32-bit length field says), linked by [next_offset] with the N-th
    terminal, and a bound on the iterations of at least N, both walkers
    append exactly N chunks to the model, one per record and in order; each
    has the record's [num_elements] as its element count, an element
    buffer of that length, and in it the 16-bit source indices found at
    the record's [elements_offset], one for one. *)
Theorem chunk_chain_emitted {Matrix Texture : Type} (buf : list byte)
    (body : Z) (transform : Matrix) (mesh : Z) (m : LSW.Mesh) (idx off : Z)
    (recs : list chunk_record) (fuel : nat) (w : walk Matrix Texture) (pos : Z) :
  Z.of_nat (length buf) <= 2 ^ 32 ->
  chunk_chain buf (HGP.OFFSET body) off recs ->
  (length recs <= fuel)%nat ->
  word_at buf (mesh + 8) 4 = Some (LSW.material_idx m) ->
  (exists cs,
     HGP.chunk_loop buf body transform fuel mesh idx (HGP.OFFSET body off) w
     = Ok (emit_all cs w)
     /\ length cs = length recs
     /\ Forall2 (emitted_for buf transform (HGP.OFFSET body) idx (LSW.material_idx m))
          cs recs)
  /\ (exists cs chunk_data p1 p2,
        LSW.readChunkInfo {| LSW.contents := buf; LSW.position := pos |} body off
        = Ok (chunk_data, {| LSW.contents := buf; LSW.position := p1 |})
        /\ LSW.chunk_loop body transform fuel m idx chunk_data w
             {| LSW.contents := buf; LSW.position := p1 |}
           = Ok (emit_all cs w, {| LSW.contents := buf; LSW.position := p2 |})
        /\ length cs = length recs
        /\ Forall2 (emitted_for buf transform (HGP.OFFSET body) idx (LSW.material_idx m))
             cs recs).
Proof.
  intros Hlen Hchain Hfuel Hmat. split.
  - apply load32_word_at in Hmat.
    destruct (hgp_chunk_loop_chain buf body transform mesh idx _ off recs
                Hchain Hmat fuel w Hfuel) as (cs & Hrun & Hall).
    exists cs. split; [exact Hrun|]. split; [|exact Hall].
    exact (Forall2_length _ _ _ Hall).
  - destruct (lsw_chunk_loop_chain buf body transform Hlen m idx off recs
                Hchain fuel w pos Hfuel) as (cs & cd & p1 & p2 & Hinfo & Hrun & Hall).
    exists cs, cd, p1, p2. split; [exact Hinfo|]. split; [exact Hrun|].
    split; [|exact Hall]. exact (Forall2_length _ _ _ Hall).
Qed.

(** The chain of two chunks at 0x94 of the first sample file. *)
Lemma sample_chunk_chain :
  chunk_chain (sample_file 89 89) (HGP.OFFSET HGP.BODY_OFFSET) 0x94
    [{| cr_primitive_type := 5; cr_num_elements := 2; cr_elements_offset := 0x10 |};
     {| cr_primitive_type := 6; cr_num_elements := 1; cr_elements_offset := 0x14 |}].
Proof.
  apply (chain_link _ _ 0x94 0xA4); [lia| |apply chain_end].
  - repeat split; try reflexivity.
    intros i Hi. cbn [cr_num_elements cr_elements_offset] in *.
    assert (i = 0 \/ i = 1) as [-> | ->] by lia; vm_compute; eauto.
  - repeat split; try reflexivity.
    intros i Hi. cbn [cr_num_elements cr_elements_offset] in *.
    assert (i = 0) as -> by lia. vm_compute; eauto.
Defined.

Lemma chunk_chain_emitted_witness :
  (exists cs,
     HGP.chunk_loop (sample_file 89 89) HGP.BODY_OFFSET 5 2 0x90 0
       (HGP.OFFSET HGP.BODY_OFFSET 0x94) sample_walk
     = Ok (emit_all cs sample_walk)
     /\ length cs = 2%nat)
  /\ (exists cs chunk_data p1 p2,
        LSW.readChunkInfo (sample_stream 89 89) HGP.BODY_OFFSET 0x94
        = Ok (chunk_data, {| LSW.contents := sample_file 89 89; LSW.position := p1 |})
        /\ LSW.chunk_loop HGP.BODY_OFFSET 5 2
             {| LSW.mesh_next_offset := 0; LSW.material_idx := 2;
                LSW.vertex_type := 89; LSW.vertex_block_idx := 1;
                LSW.chunk_offset := 0x94 |}
             0 chunk_data sample_walk
             {| LSW.contents := sample_file 89 89; LSW.position := p1 |}
           = Ok (emit_all cs sample_walk,
                 {| LSW.contents := sample_file 89 89; LSW.position := p2 |})
        /\ length cs = 2%nat).
Proof.
  destruct (chunk_chain_emitted (Texture := Z) (sample_file 89 89) HGP.BODY_OFFSET 5 0x90
              {| LSW.mesh_next_offset := 0; LSW.material_idx := 2;
                 LSW.vertex_type := 89; LSW.vertex_block_idx := 1;
                 LSW.chunk_offset := 0x94 |}
              0 0x94
              [{| cr_primitive_type := 5; cr_num_elements := 2; cr_elements_offset := 0x10 |};
               {| cr_primitive_type := 6; cr_num_elements := 1; cr_elements_offset := 0x14 |}]
              2 sample_walk 0)
    as [(cs & Hrun & Hn & _) (cs' & cd & p1 & p2 & Hinfo & Hrun' & Hn' & _)].
  - vm_compute. intros H; discriminate H.
  - exact sample_chunk_chain.
  - simpl. lia.
  - reflexivity.
  - split.
    + exists cs. split; [exact Hrun | exact Hn].
    + exists cs', cd, p1, p2. split; [exact Hinfo|]. split; [exact Hrun' | exact Hn'].
Defined.

(** ** The two walkers agree *)

(** C3. On a well-formed input -- a file shorter than 4 GiB on which the
    bulk traversal stays inside the loaded buffer, indexes existing vertex
    buffers and reaches the end of its chains -- the streaming traversal
    over the same bytes, from the same mesh-header offset, with the same
    transform and the same vertex buffers, returns the same state: the same
    chunks appended, the same stride in every vertex buffer, and the same
    lines on standard error. *)
Theorem walkers_agree {Matrix Texture : Type} (buf : list byte) (body : Z)
    (transform : Matrix) (fuel : nat) (mesh_header_offset : Z)
    (w w' : walk Matrix Texture) (pos : Z) :
  Z.of_nat (length buf) <= 2 ^ 32 ->
  0 <= body -> 0 <= mesh_header_offset ->
  HGP.processMesh buf body transform fuel mesh_header_offset w = Ok w' ->
  exists pos',
    LSW.processMesh body transform fuel mesh_header_offset w
      {| LSW.contents := buf; LSW.position := pos |}
    = Ok (w', {| LSW.contents := buf; LSW.position := pos' |}).
Proof.
  intros Hlen Hbody Hoff H.
  exact (processMesh_agree buf body transform Hlen fuel mesh_header_offset w w' pos
           Hbody Hoff H).
Qed.

Lemma walkers_agree_witness :
  exists pos',
    LSW.processMesh HGP.BODY_OFFSET 5 3 0x18 sample_walk (sample_stream 7 89)
    = Ok (sample_walked 7 89,
          {| LSW.contents := sample_file 7 89; LSW.position := pos' |}).
Proof.
  apply (walkers_agree (sample_file 7 89) HGP.BODY_OFFSET 5 3 0x18 sample_walk
           (sample_walked 7 89) 0).
  - vm_compute. intros H; discriminate H.
  - vm_compute. intros H; discriminate H.
  - lia.
  - vm_compute. reflexivity.
Defined.

(** ** Vertex strides *)




(** ** Texture references *)

(** C5. For the signed 16-bit texture index [stored] of a material record,
    whatever the two bytes [u] read from the file are: the normalized index
    is -1 when [stored] is -1; it is the low 15 bits of [stored] when
    [stored] is not -1 and has bit 0x8000 set; and it is [stored] itself
    otherwise.  So it is -1 or an index below 0x8000.  In particular 0x8005
    gives 5, and 5 gives 5. *)
Theorem texture_idx_normalized (u : Z) :
  let stored := to_int16 u in
  let normalized := HGP.normalize_texture_idx stored in
  (stored = -1 -> normalized = -1)
  /\ (stored <> -1 -> Z.land stored 0x8000 <> 0 ->
      normalized = Z.land stored 0x7FFF /\ normalized = stored mod 2 ^ 15)
  /\ (stored <> -1 -> Z.land stored 0x8000 = 0 -> normalized = stored)
  /\ (normalized = -1 \/ 0 <= normalized < 2 ^ 15)
  /\ HGP.normalize_texture_idx (to_int16 0x8005) = 5
  /\ HGP.normalize_texture_idx (to_int16 5) = 5
  /\ HGP.normalize_texture_idx (to_int16 0xFFFF) = -1.
Proof.
  intros stored normalized.
  assert (Hs : - 2 ^ 15 <= stored < 2 ^ 15).
  { unfold stored, to_int16.
    pose proof (Z.mod_pos_bound u (2 ^ 16) ltac:(lia)).
    destruct (Z.ltb_spec (u mod 2 ^ 16) (2 ^ 15)); lia. }
  pose proof (land_bit15 stored Hs) as Hbit.
  destruct (normalize_texture_idx_cases stored Hs) as [Hneg Hpos].
  fold normalized in Hneg, Hpos.
  split; [intros E; transitivity stored; [apply Hpos; now right | exact E]|].
  split.
  { intros Hne Hset.
    assert (stored < 0) by (destruct (Z.neg_nonneg_cases stored); [assumption|tauto]).
    rewrite land_low15. split; now apply Hneg. }
  split; [intros Hne Hclear; apply Hpos; left; now apply Hbit|].
  split.
  { destruct (Z.eq_dec stored (-1)) as [E|E];
      [left; transitivity stored; [apply Hpos; now right | exact E]|].
    right. destruct (Z.neg_nonneg_cases stored) as [Hn|Hn].
    - rewrite (Hneg Hn E). apply Z.mod_pos_bound. lia.
    - rewrite Hpos by now left. lia. }
  repeat split; reflexivity.
Qed.

Lemma texture_idx_normalized_witness :
  HGP.normalize_texture_idx (to_int16 0x8123) = Z.land (to_int16 0x8123) 0x7FFF
  /\ HGP.normalize_texture_idx (to_int16 0x0123) = to_int16 0x0123.
Proof.
  destruct (texture_idx_normalized 0x8123) as (_ & Hset & _).
  destruct (texture_idx_normalized 0x0123) as (_ & _ & Hclear & _).
  split.
  - apply Hset; vm_compute; intros H; discriminate H.
  - apply Hclear; [vm_compute; intros H; discriminate H | reflexivity].
Defined.

(** ** Reads past the end *)




(** ** The assembler *)

(** C7. Whatever the mesh walker is, when the layer table, the per-mesh
    offset arrays and the static transform that the walked slots need lie
    in the file, the assembler's loop makes exactly the invocations
    [assembler_calls] lists, in order: for layers 0 and 2 only (where the
    model has them), for each of the 4 slots with a non-zero offset, one
    invocation per mesh index [k] with the world transform of mesh [k]
    where the slot index is even, and one invocation with the first static
    transform times the world transform of mesh 0 where it is odd. *)
Theorem assembler_walks_layers {Matrix Texture : Type}
    (Matrix_mul : Matrix -> Matrix -> Matrix) (Matrix_of_bytes : list byte -> Matrix)
    (walker : Z -> Matrix -> walk Matrix Texture -> result (walk Matrix Texture))
    (buf : list byte) (body layer_headers static_transform_matrices num_meshes : Z)
    (modelTransforms : list Matrix) (num_layers : Z)
    (cs : list (call (Matrix := Matrix))) (w : walk Matrix Texture) :
  assembler_calls Matrix_mul Matrix_of_bytes buf body layer_headers
    static_transform_matrices num_meshes modelTransforms num_layers = Some cs ->
  HGP.layers_loop Matrix_mul Matrix_of_bytes walker buf body layer_headers
    static_transform_matrices num_meshes modelTransforms num_layers w
  = run_calls walker cs w.
Proof.
  unfold assembler_calls, walked_layers, HGP.layers_loop.
  rewrite !filter_cons, filter_nil.
  destruct (decide (0 < num_layers)) as [H0|H0].
  2:{ destruct (decide (2 < num_layers)); [lia|].
      intros [= <-]. replace (Z.to_nat num_layers) with 0%nat by lia. reflexivity. }
  destruct (decide (2 < num_layers)) as [H2|H2]; cbn [mapM]; intros H.
  - destruct (layer_calls _ _ _ _ _ _ _ _ 0) as [c0|] eqn:E0; [|discriminate].
    destruct (layer_calls _ _ _ _ _ _ _ _ 2) as [c2|] eqn:E2; [|discriminate].
    injection H as <-. cbn [concat]. rewrite app_nil_r, run_calls_app.
    destruct (Z.to_nat num_layers) as [|[|[|n]]] eqn:En; try lia.
    cbn [HGP.for_loop].
    rewrite layer_body_0, (layer_calls_run _ _ walker _ _ _ _ _ _ 0 c0 w E0).
    destruct (run_calls walker c0 w) as [w0|]; cbn [bind]; [|reflexivity].
    rewrite layer_body_1. cbn [bind].
    rewrite layer_body_2, (layer_calls_run _ _ walker _ _ _ _ _ _ 2 c2 w0 E2).
    destruct (run_calls walker c2 w0) as [w2|]; cbn [bind]; [|reflexivity].
    apply layers_skipped. lia.
  - destruct (layer_calls _ _ _ _ _ _ _ _ 0) as [c0|] eqn:E0; [|discriminate].
    injection H as <-. cbn [concat]. rewrite app_nil_r.
    destruct (Z.to_nat num_layers) as [|[|[|n]]] eqn:En; try lia;
      cbn [HGP.for_loop];
      rewrite layer_body_0, (layer_calls_run _ _ walker _ _ _ _ _ _ 0 c0 w E0);
      (destruct (run_calls walker c0 w) as [w0|]; cbn [bind]; [|reflexivity]);
      [reflexivity | rewrite layer_body_1; reflexivity].
Qed.

(** On the model file: layer 1 is not walked, the even slot of layer 0
    gives one invocation per mesh, the odd slot of layer 2 gives one. *)
Lemma assembler_walks_layers_witness :
  HGP.layers_loop Z.mul sample_Matrix_of_bytes
    (fun off t w => HGP.processMesh model_file HGP.BODY_OFFSET t 3 off w)
    model_file HGP.BODY_OFFSET (HGP.BODY_OFFSET + 0x344) (HGP.BODY_OFFSET + 0x304)
    2 [2; 6] 3 sample_walk
  = run_calls (fun off t w => HGP.processMesh model_file HGP.BODY_OFFSET t 3 off w)
      [(0x388, 2); (0x388, 6); (0x388, 14)] sample_walk.
Proof.
  apply (assembler_walks_layers (Texture := Z) Z.mul sample_Matrix_of_bytes).
  vm_compute. reflexivity.
Defined.

(** ** The entry point *)




(** ** The first chunk of a mesh *)



(** ** Nothing to walk *)

(** C10. A call of either walker with [mesh_header_offset = 0], or with a
    mesh header whose [mesh_offset] field is 0, returns with the state it
    was given: no chunk is appended, no stride is stored (and nothing is
    printed); only the cursor of the stream may have moved. *)
Theorem processMesh_nothing_to_walk {Matrix Texture : Type} (buf : list byte)
    (body : Z) (transform : Matrix) (fuel : nat) (mesh_header_offset : Z)
    (w : walk Matrix Texture) (pos : Z) :
  mesh_header_offset = 0
  \/ (word_at buf (HGP.OFFSET body mesh_header_offset + 12) 4 = Some 0
      /\ word_at buf (u32 (body + mesh_header_offset) + 12) 4 = Some 0) ->
  HGP.processMesh buf body transform fuel mesh_header_offset w = Ok w
  /\ exists pos',
       LSW.processMesh body transform fuel mesh_header_offset w
         {| LSW.contents := buf; LSW.position := pos |}
       = Ok (w, {| LSW.contents := buf; LSW.position := pos' |}).
Proof.
  unfold HGP.processMesh, LSW.processMesh.
  intros [-> | [Hb Hs]]; [split; [reflexivity | eexists; reflexivity]|].
  destruct (mesh_header_offset =? 0); [split; [reflexivity | eexists; reflexivity]|].
  apply load32_word_at in Hb. rewrite Hb. cbn [bind Z.eqb].
  split; [reflexivity|].
  unfold LSW.readUint32. cbn [LSW.seek LSW.contents LSW.position].
  erewrite (read_at buf (u32 (body + mesh_header_offset) + 12))
    by (lia || eassumption).
  cbn [bind Z.eqb]. eexists. reflexivity.
Qed.

(** In the sample file the word 12 bytes after 0x1C is 0. *)
Lemma processMesh_nothing_to_walk_witness :
  HGP.processMesh (sample_file 89 89) HGP.BODY_OFFSET 5 3 0x1C sample_walk
  = Ok sample_walk
  /\ exists pos',
       LSW.processMesh HGP.BODY_OFFSET 5 3 0x1C sample_walk (sample_stream 89 89)
       = Ok (sample_walk,
             {| LSW.contents := sample_file 89 89; LSW.position := pos' |}).
Proof.
  apply (processMesh_nothing_to_walk (sample_file 89 89) HGP.BODY_OFFSET 5 3 0x1C
           sample_walk 0).
  right. split; vm_compute; reflexivity.
Defined.

(** ** The model file, decoded *)

(** The constructor on the sample model file: one texture, one material
    whose texture reference 0x8005 became 5, one vertex buffer with the
    stride of vertex type 89, and three chunks of the elements 0, 1, 2: one
    per mesh for the even slot of layer 0, with the world transforms 2 and
    3 * 2, and one for the odd slot of layer 2, with the static transform
    times the first world transform, 7 * 2.  Nothing was printed. *)
Example model_file_decoded :
  sample_HGPModel 3 (Some model_FILE) = Ok (sample_model, [])
  /\ Model.textures sample_model = [0x60]
  /\ map Model.texture_idx (Model.materials sample_model) = [5]
  /\ map Model.stride (Model.vertexBuffers sample_model) = [36]
  /\ map Model.size (Model.vertexBuffers sample_model) = [8]
  /\ map Model.element_buffer (Model.chunks sample_model)
     = [[0; 1; 2]; [0; 1; 2]; [0; 1; 2]]
  /\ map Model.transformation (Model.chunks sample_model) = [2; 6; 14].
Proof. repeat split; vm_compute; reflexivity. Qed.

(** With more iterations allowed the walkers return the same. *)
Example sample_walk_fuel :
  HGP.processMesh (sample_file 7 89) HGP.BODY_OFFSET 5 10 0x18 sample_walk
  = Ok (sample_walked 7 89)
  /\ HGP.processMesh (sample_file 7 89) HGP.BODY_OFFSET 5 1 0x18 sample_walk
     = Fail OutOfFuel.
Proof. split; vm_compute; reflexivity. Qed.

(** * Further properties *)

(** ** The record readers of the streaming walker *)

Lemma word_at_in_range (buf : list byte) (p : Z) (n : nat) :
  0 <= p -> p + Z.of_nat n <= Z.of_nat (length buf) ->
  word_at buf p n = Some (le_decode (take n (drop (Z.to_nat p) buf))).
Proof. intros Hp Hn. unfold word_at. now rewrite slice_in_range. Qed.

Lemma read_cases (buf : list byte) (p : Z) (n : nat) :
  (exists v,
     LSW.read {| LSW.contents := buf; LSW.position := p |} n
     = Ok (v, {| LSW.contents := buf; LSW.position := p + Z.of_nat n |})
     /\ word_at buf p n = Some v
     /\ 0 <= p /\ p + Z.of_nat n <= Z.of_nat (length buf))
  \/ (LSW.read {| LSW.contents := buf; LSW.position := p |} n = Fail BoundsError
      /\ ~ (0 <= p /\ p + Z.of_nat n <= Z.of_nat (length buf))).
Proof.
  destruct (decide (0 <= p /\ p + Z.of_nat n <= Z.of_nat (length buf))) as [[Hp Hn]|Hout].
  - left. eexists. split; [|split; [now apply word_at_in_range | lia]].
    apply read_word_at. now apply word_at_in_range.
  - right. split; [|exact Hout]. now apply read_out_of_range.
Qed.

Ltac step_read :=
  match goal with
  | |- context [LSW.read {| LSW.contents := ?b; LSW.position := ?q |} ?n] =>
      let v := fresh "v" in
      let Hr := fresh "Hr" in
      let Hw := fresh "Hw" in
      let Hlo := fresh "Hlo" in
      let Hhi := fresh "Hhi" in
      destruct (read_cases b q n) as [(v & Hr & Hw & Hlo & Hhi) | (Hr & ?)];
      rewrite Hr; cbn [bind LSW.seek LSW.contents LSW.position];
      [|try reflexivity]
  end.

(** [readMeshInfo] needs the first 52 bytes of the record, wherever the
    cursor was: when they lie in the stream it returns the five fields
    found at offsets 0, 8, 12, 28 and 48 of the record and leaves the
    cursor 52 bytes after the record's start; when they do not, it fails
    with a bounds error.  The rest of the 68-byte record is never read. *)
Theorem readMeshInfo_reads_52_bytes (buf : list byte) (pos body_offset mesh_offset : Z) :
  let p := u32 (body_offset + mesh_offset) in
  (p + 52 <= Z.of_nat (length buf) ->
   exists m,
     LSW.readMeshInfo {| LSW.contents := buf; LSW.position := pos |}
       body_offset mesh_offset
     = Ok (m, {| LSW.contents := buf; LSW.position := p + 52 |})
     /\ mesh_view buf p m)
  /\ (Z.of_nat (length buf) < p + 52 ->
      LSW.readMeshInfo {| LSW.contents := buf; LSW.position := pos |}
        body_offset mesh_offset
      = Fail BoundsError).
Proof.
  intros p.
  assert (Hp : 0 <= p) by (apply Z.mod_pos_bound; lia).
  split.
  - intros Hin.
    set (w k := le_decode (take 4 (drop (Z.to_nat (p + k)) buf))).
    exists {| LSW.mesh_next_offset := w 0; LSW.material_idx := w 8;
              LSW.vertex_type := w 12; LSW.vertex_block_idx := w 28;
              LSW.chunk_offset := w 48 |}.
    assert (Hv : mesh_view buf p
                   {| LSW.mesh_next_offset := w 0; LSW.material_idx := w 8;
                      LSW.vertex_type := w 12; LSW.vertex_block_idx := w 28;
                      LSW.chunk_offset := w 48 |}).
    { unfold mesh_view. cbn. unfold w.
      replace p with (p + 0) at 1 by lia.
      repeat split; apply word_at_in_range; cbn; lia. }
    split; [|exact Hv]. now apply readMeshInfo_view.
  - intros Hout. unfold LSW.readMeshInfo, LSW.readUint32.
    cbn [LSW.seek LSW.contents LSW.position]. fold p.
    step_read. step_read. step_read. step_read. step_read.
    exfalso. cbn in *. lia.
Qed.

Lemma readMeshInfo_reads_52_bytes_witness :
  (exists m,
     LSW.readMeshInfo (sample_stream 89 89) HGP.BODY_OFFSET 0x60
     = Ok (m, {| LSW.contents := sample_file 89 89; LSW.position := 0x90 + 52 |})
     /\ mesh_view (sample_file 89 89) 0x90 m)
  /\ LSW.readMeshInfo (sample_stream 89 89) HGP.BODY_OFFSET 0x94 = Fail BoundsError.
Proof.
  split.
  - apply (proj1 (readMeshInfo_reads_52_bytes (sample_file 89 89) 0 HGP.BODY_OFFSET 0x60)).
    vm_compute. intros H; discriminate H.
  - apply (proj2 (readMeshInfo_reads_52_bytes (sample_file 89 89) 0 HGP.BODY_OFFSET 0x94)).
    vm_compute. reflexivity.
Defined.

(** [readChunkInfo] needs the first 16 bytes of the record: it returns the
    fields at offsets 0, 4, 8 (16 bits) and 12 and leaves the cursor 16
    bytes after the record's start, or fails with a bounds error. *)
Theorem readChunkInfo_reads_16_bytes (buf : list byte) (pos body_offset chunk_offset : Z) :
  let p := u32 (body_offset + chunk_offset) in
  (p + 16 <= Z.of_nat (length buf) ->
   exists cd,
     LSW.readChunkInfo {| LSW.contents := buf; LSW.position := pos |}
       body_offset chunk_offset
     = Ok (cd, {| LSW.contents := buf; LSW.position := p + 16 |})
     /\ chunk_view buf p cd)
  /\ (Z.of_nat (length buf) < p + 16 ->
      LSW.readChunkInfo {| LSW.contents := buf; LSW.position := pos |}
        body_offset chunk_offset
      = Fail BoundsError).
Proof.
  intros p.
  assert (Hp : 0 <= p) by (apply Z.mod_pos_bound; lia).
  split.
  - intros Hin.
    set (w k n := le_decode (take n (drop (Z.to_nat (p + k)) buf))).
    exists {| LSW.chunk_next_offset := w 0 4%nat; LSW.primitive_type := w 4 4%nat;
              LSW.num_elements := w 8 2%nat; LSW.elements_offset := w 12 4%nat |}.
    assert (Hv : chunk_view buf p
                   {| LSW.chunk_next_offset := w 0 4%nat; LSW.primitive_type := w 4 4%nat;
                      LSW.num_elements := w 8 2%nat; LSW.elements_offset := w 12 4%nat |}).
    { unfold chunk_view. cbn. unfold w.
      replace p with (p + 0) at 1 by lia.
      repeat split; apply word_at_in_range; cbn; lia. }
    split; [|exact Hv]. now apply readChunkInfo_view.
  - intros Hout. unfold LSW.readChunkInfo, LSW.readUint32, LSW.readUint16.
    cbn [LSW.seek LSW.contents LSW.position]. fold p.
    step_read. step_read. step_read. step_read.
    exfalso. cbn in *. lia.
Qed.

Lemma readChunkInfo_reads_16_bytes_witness :
  (exists cd,
     LSW.readChunkInfo (sample_stream 89 89) HGP.BODY_OFFSET 0xA4
     = Ok (cd, {| LSW.contents := sample_file 89 89; LSW.position := 0xD4 + 16 |})
     /\ chunk_view (sample_file 89 89) 0xD4 cd)
  /\ LSW.readChunkInfo (sample_stream 89 89) HGP.BODY_OFFSET 0xA8 = Fail BoundsError.
Proof.
  split.
  - apply (proj1 (readChunkInfo_reads_16_bytes (sample_file 89 89) 0 HGP.BODY_OFFSET 0xA4)).
    vm_compute. intros H; discriminate H.
  - apply (proj2 (readChunkInfo_reads_16_bytes (sample_file 89 89) 0 HGP.BODY_OFFSET 0xA8)).
    vm_compute. reflexivity.
Defined.

Lemma stride_kept_refl (vb : Model.VertexBuffer) : stride_kept_or_set vb vb.
Proof. repeat split. now left. Qed.

Lemma stride_kept_trans (a b c : Model.VertexBuffer) :
  stride_kept_or_set a b -> stride_kept_or_set b c -> stride_kept_or_set a c.
Proof.
  intros (A1 & A2 & A3) (B1 & B2 & B3). repeat split; try congruence.
  destruct B3 as [B3|B3]; [rewrite B3; exact A3 | now right].
Qed.

Lemma le_decode_2_bound (bs : list byte) :
  length bs = 2%nat -> 0 <= le_decode bs < 65536.
Proof.
  destruct bs as [|b0 [|b1 [|b2 bs]]]; try discriminate. intros _.
  cbn [le_decode]. pose proof (byte_val_range b0). pose proof (byte_val_range b1). lia.
Qed.

Lemma word_at_2_bound (buf : list byte) (p n : Z) :
  word_at buf p 2 = Some n -> 0 <= n < 65536.
Proof.
  intros H. apply word_at_Some in H as (Hp & Hn & _ & _ & ->).
  apply le_decode_2_bound. rewrite length_take, length_drop. lia.
Qed.

Lemma load16s_length (buf : list byte) (p n : Z) (es : list Z) :
  0 <= n -> HGP.load16s buf p n = Ok es -> Z.of_nat (length es) = n.
Proof.
  intros Hn H. destruct (Z.eq_dec n 0) as [->|Hne].
  - unfold HGP.load16s, HGP.memcpy in H. cbn in H. now injection H as <-.
  - apply load16s_in_range in H as (? & ? & ->); [|lia].
    rewrite elements_from_length by lia. lia.
Qed.

Lemma read_elements_length (n : nat) (s s' : LSW.Stream) (es : list Z) :
  LSW.read_elements n s = Ok (es, s') -> length es = n.
Proof.
  revert s s' es. induction n as [|n IH]; intros s s' es H.
  - now injection H as <- _.
  - cbn [LSW.read_elements] in H.
    apply bind_Ok in H as ([e s1] & _ & H).
    apply bind_Ok in H as ([es' s2] & Hes & H). injection H as <- _.
    cbn. f_equal. exact (IH _ _ _ Hes).
Qed.

Section WalkedFacts.
Context {Matrix Texture : Type}.
Variable transform : Matrix.
Local Abbreviation walk := (walk Matrix Texture).
Local Abbreviation walked := (walked (Texture := Texture) transform).

Lemma walked_refl (w : walk) : walked w w.
Proof.
  repeat split.
  - apply Forall2_same_length_lookup. split; [reflexivity|].
    intros i x y Hx Hy. assert (x = y) as -> by congruence. apply stride_kept_refl.
  - exists []. split; [now rewrite app_nil_r | constructor].
  - exists []. split; [now rewrite app_nil_r | constructor].
Qed.

Lemma walked_trans (w1 w2 w3 : walk) : walked w1 w2 -> walked w2 w3 -> walked w1 w3.
Proof.
  intros (A1 & A2 & A3 & A4 & (cs1 & A5 & A6) & (l1 & A7 & A8))
         (B1 & B2 & B3 & B4 & (cs2 & B5 & B6) & (l2 & B7 & B8)).
  split; [congruence|]. split; [congruence|]. split; [congruence|].
  split; [|split].
  - pose proof (Forall2_length _ _ _ A4) as L1.
    pose proof (Forall2_length _ _ _ B4) as L2.
    apply Forall2_same_length_lookup. split; [congruence|].
    intros i x z Hx Hz.
    destruct (lookup_lt_is_Some_2 (vbufs w2) i) as [y Hy];
      [rewrite <- L1; now apply lookup_lt_Some in Hx|].
    eapply stride_kept_trans.
    + exact (Forall2_lookup_lr _ _ _ _ _ _ A4 Hx Hy).
    + exact (Forall2_lookup_lr _ _ _ _ _ _ B4 Hy Hz).
  - exists (cs1 ++ cs2). split; [rewrite B5, A5; now rewrite app_assoc|].
    apply Forall_app. split; [exact A6|].
    now rewrite (Forall2_length _ _ _ A4).
  - exists (l1 ++ l2). split; [rewrite B7, A7; now rewrite app_assoc|].
    apply Forall_app. now split.
Qed.

Lemma walked_emit (c : Model.Chunk Matrix) (w : walk) :
  well_formed_chunk transform (length (vbufs w)) c -> walked w (emit c w).
Proof.
  intros Hc. destruct (walked_refl w) as (A1 & A2 & A3 & A4 & _ & A6).
  repeat split; try assumption.
  exists [c]. split; [reflexivity | now constructor].
Qed.

Lemma stride_table_values (vertex_type : Z) :
  stride_table vertex_type = 0 \/ stride_table vertex_type = 36
  \/ stride_table vertex_type = 56.
Proof.
  unfold stride_table. destruct (vertex_type =? 89); [tauto|].
  destruct (vertex_type =? 93); tauto.
Qed.

Lemma unknown_type_line_reports (vertex_type : Z) :
  Forall unknown_type_report (unknown_type_line vertex_type).
Proof.
  unfold unknown_type_line, known_vertex_type.
  destruct (Z.eqb_spec vertex_type 89); [constructor|].
  destruct (Z.eqb_spec vertex_type 93); [constructor|].
  constructor; [|constructor]. now exists vertex_type.
Qed.

Lemma vec_at_in_range {A : Type} (v : list A) (i : Z) (x : A) :
  vec_at v i = Ok x -> 0 <= i < Z.of_nat (length v) /\ v !! Z.to_nat i = Some x.
Proof.
  unfold vec_at. destruct (Z.ltb_spec i 0); [discriminate|].
  destruct (v !! Z.to_nat i) as [y|] eqn:E; [|discriminate].
  intros [= ->]. apply lookup_lt_Some in E as L. split; [lia | reflexivity].
Qed.

Lemma walked_after_prologue (vertex_type idx : Z) (vb : Model.VertexBuffer) (w : walk) :
  vec_at (vbufs w) idx = Ok vb -> walked w (after_prologue vertex_type idx vb w).
Proof.
  intros Hvb. apply vec_at_in_range in Hvb as [Hidx Hvb].
  unfold after_prologue. repeat split; cbn.
  - apply Forall2_same_length_lookup. split; [now rewrite length_insert|].
    intros i x y Hx Hy. destruct (decide (i = Z.to_nat idx)) as [->|Hne].
    + rewrite list_lookup_insert_eq in Hy by lia. injection Hy as <-.
      assert (x = vb) as -> by congruence.
      repeat split. right. apply stride_table_values.
    + rewrite list_lookup_insert_ne in Hy by congruence.
      assert (x = y) as -> by congruence. apply stride_kept_refl.
  - exists []. split; [now rewrite app_nil_r | constructor].
  - eexists. split; [reflexivity | apply unknown_type_line_reports].
Qed.

Lemma hgp_prologue_walked (buf : list byte) (mesh idx : Z) (w w2 : walk) :
  HGP.mesh_prologue buf mesh w = Ok (idx, w2) ->
  0 <= idx < Z.of_nat (length (vbufs w)) /\ walked w w2.
Proof.
  unfold HGP.mesh_prologue. intros H.
  apply bind_Ok in H as (vt & _ & H). rewrite stride_of_table in H.
  apply bind_Ok in H as (vbi & _ & H).
  apply bind_Ok in H as (vbs & Hset & H). injection H as <- <-.
  unfold vec_set in Hset. cbn [vbufs] in Hset.
  apply bind_Ok in Hset as (vb & Hvb & Hset). injection Hset as <-.
  split; [exact (proj1 (vec_at_in_range _ _ _ Hvb))|].
  exact (walked_after_prologue vt _ vb w Hvb).
Qed.

Lemma lsw_prologue_walked (m : LSW.Mesh) (idx : Z) (w w2 : walk) :
  LSW.mesh_prologue m w = Ok (idx, w2) ->
  0 <= idx < Z.of_nat (length (vbufs w)) /\ walked w w2.
Proof.
  unfold LSW.mesh_prologue. rewrite stride_of_table. intros H.
  apply bind_Ok in H as (vbs & Hset & H). injection H as <- <-.
  unfold vec_set in Hset. cbn [vbufs] in Hset.
  apply bind_Ok in Hset as (vb & Hvb & Hset). injection Hset as <-.
  split; [exact (proj1 (vec_at_in_range _ _ _ Hvb))|].
  exact (walked_after_prologue (LSW.vertex_type m) _ vb w Hvb).
Qed.

Lemma walked_length (w w' : walk) : walked w w' -> length (vbufs w') = length (vbufs w).
Proof. intros (_ & _ & _ & H & _). symmetry. exact (Forall2_length _ _ _ H). Qed.

Lemma hgp_chunk_loop_walked (buf : list byte) (body : Z) (fuel : nat) (mesh idx : Z) :
  forall (chunk_data : Z) (w w' : walk),
    0 <= idx < Z.of_nat (length (vbufs w)) ->
    HGP.chunk_loop buf body transform fuel mesh idx chunk_data w = Ok w' ->
    walked w w'.
Proof.
  induction fuel as [|fuel IH]; intros chunk_data w w' Hidx H; [discriminate|].
  apply hgp_chunk_loop_step in H as (cd & mat & es & Hv & _ & Hes & H).
  cbn zeta in H. destruct Hv as (_ & _ & H8 & _).
  pose proof (word_at_2_bound _ _ _ H8) as Hn.
  assert (Hc : walked w
                 (emit {| Model.vertex_buffer_idx := idx; Model.material_idx := mat;
                          Model.primitive_type := LSW.primitive_type cd;
                          Model.num_elements := LSW.num_elements cd;
                          Model.transformation := transform;
                          Model.element_buffer := es |} w)).
  { apply walked_emit. repeat split; cbn; try lia.
    apply (load16s_length _ _ _ _ (proj1 Hn) Hes). }
  destruct (LSW.chunk_next_offset cd =? 0); [now subst w'|].
  eapply walked_trans; [exact Hc|]. eapply IH; [|exact H]. exact Hidx.
Qed.

Lemma hgp_mesh_loop_walked (buf : list byte) (body : Z) (fuel : nat) :
  forall (mesh : Z) (w w' : walk),
    HGP.mesh_loop buf body transform fuel mesh w = Ok w' -> walked w w'.
Proof.
  induction fuel as [|fuel IH]; intros mesh w w' H; [discriminate|].
  apply hgp_mesh_loop_step in H as (m & idx & w2 & w3 & _ & Hpro & Hchunks & H).
  apply hgp_prologue_walked in Hpro as [Hidx Hw2].
  apply hgp_chunk_loop_walked in Hchunks;
    [|now rewrite (walked_length _ _ Hw2)].
  assert (Hw3 : walked w w3) by (eapply walked_trans; eassumption).
  destruct (LSW.mesh_next_offset m =? 0); [now subst w'|].
  eapply walked_trans; [exact Hw3 | exact (IH _ _ _ H)].
Qed.

Lemma hgp_processMesh_walked (buf : list byte) (body : Z) (fuel : nat)
    (mesh_header_offset : Z) (w w' : walk) :
  HGP.processMesh buf body transform fuel mesh_header_offset w = Ok w' ->
  walked w w'.
Proof.
  unfold HGP.processMesh.
  destruct (mesh_header_offset =? 0); [intros [= <-]; apply walked_refl|].
  intros H. apply bind_Ok in H as (mo & _ & H).
  destruct (mo =? 0); [injection H as <-; apply walked_refl|].
  exact (hgp_mesh_loop_walked _ _ _ _ _ _ H).
Qed.

Lemma lsw_chunk_loop_walked (body_offset : Z) (fuel : nat) (m : LSW.Mesh) (idx : Z) :
  forall (cd : LSW.Chunk) (w w' : walk) (s s' : LSW.Stream),
    0 <= idx < Z.of_nat (length (vbufs w)) ->
    0 <= LSW.num_elements cd < 65536 ->
    LSW.chunk_loop body_offset transform fuel m idx cd w s = Ok (w', s') ->
    walked w w'.
Proof.
  induction fuel as [|fuel IH]; intros cd w w' s s' Hidx Hn H; [discriminate|].
  cbn [LSW.chunk_loop] in H.
  apply bind_Ok in H as ([es s1] & Hes & H).
  apply read_elements_length in Hes.
  match type of H with context [emit ?c w] =>
    assert (Hc : walked w (emit c w))
  end.
  { apply walked_emit. repeat split; cbn; try lia. }
  destruct (LSW.chunk_next_offset cd =? 0); [now injection H as <- _|].
  apply bind_Ok in H as ([cd' s2] & Hinfo & H).
  apply readChunkInfo_Ok in Hinfo as ((_ & _ & H8 & _) & _).
  eapply walked_trans; [exact Hc|].
  eapply IH; [exact Hidx | exact (word_at_2_bound _ _ _ H8) | exact H].
Qed.

Lemma lsw_mesh_loop_walked (body_offset : Z) (fuel : nat) :
  forall (m : LSW.Mesh) (w w' : walk) (s s' : LSW.Stream),
    LSW.mesh_loop body_offset transform fuel m w s = Ok (w', s') -> walked w w'.
Proof.
  induction fuel as [|fuel IH]; intros m w w' s s' H; [discriminate|].
  cbn [LSW.mesh_loop] in H.
  apply bind_Ok in H as ([idx w2] & Hpro & H).
  apply bind_Ok in H as ([cd s1] & Hinfo & H).
  apply readChunkInfo_Ok in Hinfo as ((_ & _ & H8 & _) & _).
  apply bind_Ok in H as ([w3 s2] & Hchunks & H).
  apply lsw_prologue_walked in Hpro as [Hidx Hw2].
  apply lsw_chunk_loop_walked in Hchunks;
    [|now rewrite (walked_length _ _ Hw2) | exact (word_at_2_bound _ _ _ H8)].
  assert (Hw3 : walked w w3) by (eapply walked_trans; eassumption).
  destruct (LSW.mesh_next_offset m =? 0); [now injection H as <- _|].
  apply bind_Ok in H as ([m' s3] & _ & H).
  eapply walked_trans; [exact Hw3 | exact (IH _ _ _ _ _ H)].
Qed.

Lemma lsw_processMesh_walked (body_offset : Z) (fuel : nat)
    (mesh_header_offset : Z) (w w' : walk) (s s' : LSW.Stream) :
  LSW.processMesh body_offset transform fuel mesh_header_offset w s = Ok (w', s') ->
  walked w w'.
Proof.
  unfold LSW.processMesh.
  destruct (mesh_header_offset =? 0); [intros [= <- _]; apply walked_refl|].
  intros H. apply bind_Ok in H as ([mo s1] & _ & H).
  destruct (mo =? 0); [injection H as <- _; apply walked_refl|].
  apply bind_Ok in H as ([m s2] & _ & H).
  exact (lsw_mesh_loop_walked _ _ _ _ _ _ _ H).
Qed.
End WalkedFacts.

(** ** What a walk changes *)

(** A call of either walker that returns has left the model's textures,
    materials and attached vertex buffers alone, has kept every chunk the
    model had (new ones come after them), has kept the number of vertex
    buffers and each buffer's size and data, changing at most strides, and
    those to 0, 36 or 56; and it has printed nothing but "Unknown vertex
    type" lines, for types other than 89 and 93. *)
Theorem processMesh_changes_strides_only {Matrix Texture : Type} (buf : list byte)
    (body : Z) (transform : Matrix) (fuel : nat) (mesh_header_offset : Z)
    (w w' : walk Matrix Texture) :
  HGP.processMesh buf body transform fuel mesh_header_offset w = Ok w'
  \/ (exists s s',
        LSW.processMesh body transform fuel mesh_header_offset w s = Ok (w', s')) ->
  Model.textures (model w') = Model.textures (model w)
  /\ Model.materials (model w') = Model.materials (model w)
  /\ Model.vertexBuffers (model w') = Model.vertexBuffers (model w)
  /\ (exists cs, Model.chunks (model w') = Model.chunks (model w) ++ cs)
  /\ Forall2 stride_kept_or_set (vbufs w) (vbufs w')
  /\ (exists lines,
        stderr w' = stderr w ++ lines /\ Forall unknown_type_report lines).
Proof.
  intros H.
  assert (Hw : walked transform w w').
  { destruct H as [H | (s & s' & H)].
    - exact (hgp_processMesh_walked _ _ _ _ _ _ _ H).
    - exact (lsw_processMesh_walked _ _ _ _ _ _ _ _ H). }
  destruct Hw as (A1 & A2 & A3 & A4 & (cs & A5 & _) & A6).
  repeat split; try assumption. now exists cs.
Qed.

Lemma processMesh_changes_strides_only_witness :
  Model.textures (model (sample_walked 7 89)) = Model.textures (model sample_walk)
  /\ Model.materials (model (sample_walked 7 89)) = Model.materials (model sample_walk)
  /\ Model.vertexBuffers (model (sample_walked 7 89))
     = Model.vertexBuffers (model sample_walk)
  /\ (exists cs, Model.chunks (model (sample_walked 7 89))
                 = Model.chunks (model sample_walk) ++ cs)
  /\ Forall2 stride_kept_or_set (vbufs sample_walk) (vbufs (sample_walked 7 89))
  /\ (exists lines,
        stderr (sample_walked 7 89) = stderr sample_walk ++ lines
        /\ Forall unknown_type_report lines).
Proof.
  apply (processMesh_changes_strides_only (sample_file 7 89) HGP.BODY_OFFSET 5 3 0x18).
  left. vm_compute. reflexivity.
Defined.

(** Every chunk a call of either walker appends carries the transform the
    call was given, names a vertex buffer that exists (an index below the
    number of vertex buffers), declares fewer than 65536 elements and has
    exactly that many in its element buffer.  (Its material index is
    copied unexamined.) *)
Theorem appended_chunks_well_formed {Matrix Texture : Type} (buf : list byte)
    (body : Z) (transform : Matrix) (fuel : nat) (mesh_header_offset : Z)
    (w w' : walk Matrix Texture) :
  HGP.processMesh buf body transform fuel mesh_header_offset w = Ok w'
  \/ (exists s s',
        LSW.processMesh body transform fuel mesh_header_offset w s = Ok (w', s')) ->
  exists cs,
    Model.chunks (model w') = Model.chunks (model w) ++ cs
    /\ Forall (well_formed_chunk transform (length (vbufs w))) cs.
Proof.
  intros H.
  assert (Hw : walked transform w w').
  { destruct H as [H | (s & s' & H)].
    - exact (hgp_processMesh_walked _ _ _ _ _ _ _ H).
    - exact (lsw_processMesh_walked _ _ _ _ _ _ _ _ H). }
  destruct Hw as (_ & _ & _ & _ & Hcs & _). exact Hcs.
Qed.

Lemma appended_chunks_well_formed_witness :
  exists cs,
    Model.chunks (model (sample_walked 7 89)) = Model.chunks (model sample_walk) ++ cs
    /\ Forall (well_formed_chunk 5 (length (vbufs sample_walk))) cs.
Proof.
  apply (appended_chunks_well_formed (sample_file 7 89) HGP.BODY_OFFSET 5 3 0x18).
  right. eexists (sample_stream 7 89), _. vm_compute. reflexivity.
Defined.

(** ** The vertex buffer a mesh names *)



Lemma to_int_pred (vbi : Z) :
  0 <= vbi < 2 ^ 32 ->
  (1 <= vbi <= 2 ^ 31 -> to_int (vbi - 1) = vbi - 1)
  /\ (vbi = 0 \/ 2 ^ 31 < vbi -> to_int (vbi - 1) < 0).
Proof.
  intros Hv. unfold to_int. split.
  - intros H. rewrite Z.mod_small by lia.
    destruct (Z.ltb_spec (vbi - 1) (2 ^ 31)); lia.
  - intros [-> | H].
    + reflexivity.
    + rewrite Z.mod_small by lia.
      destruct (Z.ltb_spec (vbi - 1) (2 ^ 31)); lia.
Qed.



(** ** The stride a chain of meshes leaves *)

Section MeshChainFacts.
Context {Matrix Texture : Type}.
Variable buf : list byte.
Variable body : Z.
Variable transform : Matrix.
Local Abbreviation walk := (walk Matrix Texture).

Lemma hgp_chunk_loop_vbufs (fuel : nat) (mesh idx : Z) :
  forall (chunk_data : Z) (w w' : walk),
    HGP.chunk_loop buf body transform fuel mesh idx chunk_data w = Ok w' ->
    vbufs w' = vbufs w.
Proof.
  induction fuel as [|fuel IH]; intros chunk_data w w' H; [discriminate|].
  apply hgp_chunk_loop_step in H as (cd & mat & es & _ & _ & _ & H).
  cbn zeta in H. destruct (LSW.chunk_next_offset cd =? 0); [now subst w'|].
  now apply IH in H.
Qed.

Lemma hgp_mesh_prologue_sets (mesh idx : Z) (w w2 : walk) :
  HGP.mesh_prologue buf mesh w = Ok (idx, w2) ->
  exists vt vbi vb',
    word_at buf (mesh + 12) 4 = Some vt
    /\ word_at buf (mesh + 28) 4 = Some vbi
    /\ idx = to_int (vbi - 1)
    /\ vbufs w2 !! Z.to_nat idx = Some vb'
    /\ Model.stride vb' = stride_table vt.
Proof.
  unfold HGP.mesh_prologue. intros H.
  apply bind_Ok in H as (vt & Hvt & H). rewrite stride_of_table in H.
  apply bind_Ok in H as (vbi & Hvbi & H).
  apply bind_Ok in H as (vbs & Hset & H). injection H as <- <-.
  unfold vec_set in Hset. cbn [vbufs] in Hset.
  apply bind_Ok in Hset as (vb & Hvb & Hset). injection Hset as <-.
  apply vec_at_in_range in Hvb as [Hidx Hvb].
  apply load32_word_at in Hvt, Hvbi.
  exists vt, vbi, (Model.set_stride (stride_table vt) vb).
  repeat split; try assumption. cbn [vbufs with_vbufs].
  apply list_lookup_insert_eq. lia.
Qed.
End MeshChainFacts.

(** The stride a walk of the bulk walker leaves in a vertex buffer is the
    one of the last mesh that names it: when the loop over a chain of mesh
    records returns, the buffer named by the terminal record of the chain
    has the stride of that record's vertex type, whatever the earlier
    meshes of the chain stored there. *)
Theorem last_mesh_sets_the_stride {Matrix Texture : Type} (buf : list byte)
    (body : Z) (transform : Matrix) (fuel : nat) (mesh : Z) (w w' : walk Matrix Texture) :
  HGP.mesh_loop buf body transform fuel mesh w = Ok w' ->
  exists last vertex_type vbi vb,
    mesh_chain_ends buf body mesh last
    /\ word_at buf (last + 12) 4 = Some vertex_type
    /\ word_at buf (last + 28) 4 = Some vbi
    /\ vbufs w' !! Z.to_nat (to_int (vbi - 1)) = Some vb
    /\ Model.stride vb = stride_table vertex_type.
Proof.
  revert mesh w w'. induction fuel as [|fuel IH]; intros mesh w w' H; [discriminate|].
  apply hgp_mesh_loop_step in H as (m & idx & w2 & w3 & Hv & Hpro & Hchunks & H).
  destruct Hv as (H0 & _).
  destruct (Z.eqb_spec (LSW.mesh_next_offset m) 0) as [E|E].
  - subst w'.
    apply hgp_mesh_prologue_sets in Hpro as (vt & vbi & vb & Hvt & Hvbi & -> & Hvb & Hs).
    apply hgp_chunk_loop_vbufs in Hchunks.
    exists mesh, vt, vbi, vb. rewrite Hchunks.
    split; [apply ends_here; now rewrite <- E|]. auto.
  - apply IH in H as (last & vt & vbi & vb & Hends & Hrest).
    exists last, vt, vbi, vb. split; [|exact Hrest].
    now apply (ends_later buf body mesh (LSW.mesh_next_offset m)).
Qed.

Lemma last_mesh_sets_the_stride_witness :
  exists last vertex_type vbi vb,
    mesh_chain_ends (sample_file 7 89) HGP.BODY_OFFSET 0x5C last
    /\ word_at (sample_file 7 89) (last + 12) 4 = Some vertex_type
    /\ word_at (sample_file 7 89) (last + 28) 4 = Some vbi
    /\ vbufs (sample_walked 7 89) !! Z.to_nat (to_int (vbi - 1)) = Some vb
    /\ Model.stride vb = stride_table vertex_type.
Proof.
  apply (last_mesh_sets_the_stride (sample_file 7 89) HGP.BODY_OFFSET 5 3 0x5C sample_walk).
  vm_compute. reflexivity.
Defined.

(** ** Chains that do not end *)

Section Cyclic.
Context {Matrix Texture : Type}.
Variable buf : list byte.
Variable body : Z.
Variable transform : Matrix.
Local Abbreviation walk := (walk Matrix Texture).

Lemma hgp_self_linked (mesh idx mat off : Z) (r : chunk_record) :
  off <> 0 ->
  chunk_record_at buf (HGP.OFFSET body) off off r ->
  word_at buf (mesh + 8) 4 = Some mat ->
  forall (fuel : nat) (w : walk),
    HGP.chunk_loop buf body transform fuel mesh idx (HGP.OFFSET body off) w
    = Fail OutOfFuel.
Proof.
  intros Hoff (H0 & H4 & H8 & H12 & Hel) Hmat.
  pose proof (word_at_Some _ _ _ _ H8) as (_ & _ & Hn & _).
  destruct (load16s_elements buf (HGP.OFFSET body (cr_elements_offset r))
              (cr_num_elements r) Hn Hel) as [Hload _].
  apply load32_word_at in H0, H4, H12, Hmat. apply load16_word_at in H8.
  induction fuel as [|fuel IH]; intros w; [reflexivity|].
  cbn [HGP.chunk_loop]. rewrite Hmat, H4, H8, H12. cbn [bind].
  rewrite Hload. cbn [bind]. rewrite H0. cbn [bind].
  destruct (Z.eqb_spec off 0); [contradiction|]. apply IH.
Qed.

Lemma lsw_self_linked (m : LSW.Mesh) (idx off : Z) (r : chunk_record) :
  Z.of_nat (length buf) <= 2 ^ 32 ->
  off <> 0 ->
  chunk_record_at buf (HGP.OFFSET body) off off r ->
  forall (fuel : nat) (w : walk) (pos : Z),
    exists cd p1,
      LSW.readChunkInfo {| LSW.contents := buf; LSW.position := pos |} body off
      = Ok (cd, {| LSW.contents := buf; LSW.position := p1 |})
      /\ LSW.chunk_loop body transform fuel m idx cd w
           {| LSW.contents := buf; LSW.position := p1 |}
         = Fail OutOfFuel.
Proof.
  intros Hlen Hoff (H0 & H4 & H8 & H12 & Hel). unfold HGP.OFFSET in *.
  pose proof (word_at_no_wrap buf (body + off) 4 _ Hlen ltac:(lia) H0) as Hnw.
  pose proof (word_at_Some _ _ _ _ H8) as (_ & _ & Hn & _).
  destruct (load16s_elements buf (body + cr_elements_offset r)
              (cr_num_elements r) Hn Hel) as [_ Hrange].
  set (cd := {| LSW.chunk_next_offset := off;
                LSW.primitive_type := cr_primitive_type r;
                LSW.num_elements := cr_num_elements r;
                LSW.elements_offset := cr_elements_offset r |}).
  assert (Hinfo : forall pos,
             LSW.readChunkInfo {| LSW.contents := buf; LSW.position := pos |} body off
             = Ok (cd, {| LSW.contents := buf; LSW.position := u32 (body + off) + 16 |})).
  { intros pos. apply readChunkInfo_view. rewrite Hnw. repeat split; assumption. }
  induction fuel as [|fuel IH]; intros w pos.
  - exists cd, (u32 (body + off) + 16). split; [apply Hinfo | reflexivity].
  - exists cd, (u32 (body + off) + 16). split; [apply Hinfo|].
    cbn [LSW.chunk_loop LSW.seek LSW.contents LSW.position].
    destruct (lsw_read_elements_chain buf body Hlen (cr_elements_offset r)
                (cr_num_elements r) pos Hn Hrange) as (pe & Hread).
    cbn [cd LSW.elements_offset LSW.num_elements LSW.chunk_next_offset].
    rewrite Hread. cbn [bind].
    destruct (Z.eqb_spec off 0); [contradiction|].
    destruct (IH (emit {| Model.vertex_buffer_idx := idx;
                          Model.material_idx := LSW.material_idx m;
                          Model.primitive_type := cr_primitive_type r;
                          Model.num_elements := cr_num_elements r;
                          Model.transformation := transform;
                          Model.element_buffer :=
                            elements_from buf (body + cr_elements_offset r)
                              (Z.to_nat (cr_num_elements r)) |} w) pe)
      as (cd' & p1 & Hinfo' & Hrun).
    rewrite Hinfo' . cbn [bind]. exact Hrun.
Qed.
End Cyclic.

(** A chunk record whose [next_offset] is its own offset makes a chain
    without end, and neither walker notices: whatever the bound on the
    iterations, the loop over the chain has not returned when the bound is
    reached (each round reads the same record again and appends one more
    chunk). *)
Theorem self_linked_chunk_never_ends {Matrix Texture : Type} (buf : list byte)
    (body : Z) (transform : Matrix) (mesh : Z) (m : LSW.Mesh) (idx off : Z)
    (r : chunk_record) (fuel : nat) (w : walk Matrix Texture) (pos : Z) :
  Z.of_nat (length buf) <= 2 ^ 32 ->
  off <> 0 ->
  chunk_record_at buf (HGP.OFFSET body) off off r ->
  word_at buf (mesh + 8) 4 = Some (LSW.material_idx m) ->
  HGP.chunk_loop buf body transform fuel mesh idx (HGP.OFFSET body off) w
  = Fail OutOfFuel
  /\ exists cd p1,
       LSW.readChunkInfo {| LSW.contents := buf; LSW.position := pos |} body off
       = Ok (cd, {| LSW.contents := buf; LSW.position := p1 |})
       /\ LSW.chunk_loop body transform fuel m idx cd w
            {| LSW.contents := buf; LSW.position := p1 |}
          = Fail OutOfFuel.
Proof.
  intros Hlen Hoff Hr Hmat. split.
  - exact (hgp_self_linked buf body transform mesh idx _ off r Hoff Hr Hmat fuel w).
  - exact (lsw_self_linked buf body transform m idx off r Hlen Hoff Hr fuel w pos).
Qed.

Lemma cyclic_chunk_record :
  chunk_record_at cyclic_file (HGP.OFFSET HGP.BODY_OFFSET) 0x04 0x04
    {| cr_primitive_type := 7; cr_num_elements := 1; cr_elements_offset := 0x14 |}.
Proof.
  repeat split; try reflexivity.
  intros i Hi. cbn [cr_num_elements cr_elements_offset] in *.
  assert (i = 0) as -> by lia. vm_compute. eauto.
Defined.

Lemma self_linked_chunk_never_ends_witness :
  HGP.chunk_loop cyclic_file HGP.BODY_OFFSET 5 1000 0x30 0
    (HGP.OFFSET HGP.BODY_OFFSET 0x04) sample_walk
  = Fail OutOfFuel.
Proof.
  apply (self_linked_chunk_never_ends (Texture := Z) cyclic_file HGP.BODY_OFFSET 5 0x30
           {| LSW.mesh_next_offset := 0; LSW.material_idx := 7; LSW.vertex_type := 0;
              LSW.vertex_block_idx := 0; LSW.chunk_offset := 0 |}
           0 0x04
           {| cr_primitive_type := 7; cr_num_elements := 1; cr_elements_offset := 0x14 |}
           1000 sample_walk 0).
  - vm_compute. intros H; discriminate H.
  - lia.
  - exact cyclic_chunk_record.
  - reflexivity.
Defined.

(** ** Walking a whole chain of meshes *)

Section MeshChainWalk.
Context {Matrix Texture : Type}.
Variable buf : list byte.
Variable body : Z.
Variable transform : Matrix.
Local Abbreviation walk := (walk Matrix Texture).

Lemma vec_at_counted (vbs : list Model.VertexBuffer) (vbi : Z) :
  Z.of_nat (length vbs) < 2 ^ 31 ->
  1 <= vbi <= Z.of_nat (length vbs) ->
  to_int (vbi - 1) = vbi - 1
  /\ exists vb, vec_at vbs (vbi - 1) = Ok vb.
Proof.
  intros Hlen Hin.
  destruct (to_int_pred vbi ltac:(lia)) as [Hto _].
  split; [apply Hto; lia|].
  destruct (lookup_lt_is_Some_2 vbs (Z.to_nat (vbi - 1))) as [vb Hvb]; [lia|].
  exists vb. apply vec_at_lookup_Z; [lia | exact Hvb].
Qed.

Lemma hgp_mesh_loop_chain (off : Z) (rs : list (mesh_record)) :
  mesh_chain buf body off rs ->
  forall (fuel : nat) (w : walk),
    Z.of_nat (length (vbufs w)) < 2 ^ 31 ->
    Forall (fun r => 1 <= mr_vertex_buffer_idx r <= Z.of_nat (length (vbufs w))) rs ->
    Forall (fun r => (length rs + length (mr_chunks r) <= fuel)%nat) rs ->
    exists w' css,
      HGP.mesh_loop buf body transform fuel (HGP.OFFSET body off) w = Ok w'
      /\ Model.chunks (model w') = Model.chunks (model w) ++ concat css
      /\ Forall2 (emitted_for_mesh buf body transform) css rs.
Proof.
  intros Hchain.
  induction Hchain as [off r Hr | off next r rs Hnext Hr Hchain IH];
    intros fuel w Hlen Hidx Hfuel;
    apply Forall_cons in Hidx as [Hvbi Hidx];
    apply Forall_cons in Hfuel as [Hf Hfuel];
    (destruct fuel as [|fuel]; [simpl in Hf; lia|]);
    destruct Hr as (H0 & H8 & H12 & H28 & co & H48 & Hcc);
    destruct (vec_at_counted (vbufs w) _ Hlen Hvbi) as (Hto & vb & Hvb);
    pose proof (hgp_mesh_prologue_stride buf (HGP.OFFSET body off) _ _ w vb
                  H12 H28) as Hpro;
    cbn zeta in Hpro; rewrite Hto in Hpro; specialize (Hpro Hvb);
    apply load32_word_at in H0, H48; pose proof H8 as H8'; apply load32_word_at in H8';
    set (w2 := after_prologue (mr_vertex_type r) (mr_vertex_buffer_idx r - 1) vb w) in *;
    destruct (hgp_chunk_loop_chain buf body transform (HGP.OFFSET body off)
                (mr_vertex_buffer_idx r - 1) _ co _ Hcc H8' (S fuel) w2)
      as (cs & Hrun & Hall); try (simpl in Hf |- *; lia);
    destruct (emit_all_chunks cs w2) as [Hcs Hg];
    cbn [HGP.mesh_loop]; rewrite Hpro; cbn [bind]; rewrite H48; cbn [bind];
    rewrite Hrun; cbn [bind]; rewrite H0; cbn [bind].
  - exists (emit_all cs w2), [cs]. split; [reflexivity|].
    split; [rewrite Hcs; cbn; now rewrite app_nil_r|].
    constructor; [exact Hall | constructor].
  - destruct (Z.eqb_spec next 0); [contradiction|].
    destruct Hg as (_ & _ & _ & Hl & _).
    assert (Hl2 : length (vbufs (emit_all cs w2)) = length (vbufs w)).
    { rewrite Hl. unfold w2. cbn [vbufs after_prologue]. apply length_insert. }
    destruct (IH fuel (emit_all cs w2)) as (w' & css & Hloop & Hchunks & Hcss).
    + now rewrite Hl2.
    + rewrite Hl2. exact Hidx.
    + eapply Forall_impl; [exact Hfuel|]. cbn. intros; lia.
    + exists w', (cs :: css). split; [exact Hloop|].
      split.
      * rewrite Hchunks, Hcs. cbn. now rewrite <- app_assoc.
      * constructor; [exact Hall | exact Hcss].
Qed.
End MeshChainWalk.

(** A whole walk, end to end.  When the mesh header names a chain of mesh
    records, each with a terminated chain of chunk records inside the file
    and each naming one of the vertex buffers (counted from 1), both
    walkers return, with the same state, and what they appended to the
    model is, mesh after mesh in chain order, the chunks of that mesh's
    records in chain order, each carrying the mesh's material, the mesh's
    vertex buffer index less one, and the transform of the call. *)
Theorem mesh_chain_walked {Matrix Texture : Type} (buf : list byte) (body : Z)
    (transform : Matrix) (fuel : nat) (mesh_header_offset mesh_offset : Z)
    (rs : list mesh_record) (w : walk Matrix Texture) (pos : Z) :
  Z.of_nat (length buf) <= 2 ^ 32 ->
  0 <= body -> 0 < mesh_header_offset ->
  word_at buf (HGP.OFFSET body mesh_header_offset + 12) 4 = Some mesh_offset ->
  mesh_offset <> 0 ->
  mesh_chain buf body mesh_offset rs ->
  Z.of_nat (length (vbufs w)) < 2 ^ 31 ->
  Forall (fun r => 1 <= mr_vertex_buffer_idx r <= Z.of_nat (length (vbufs w))) rs ->
  Forall (fun r => (length rs + length (mr_chunks r) <= fuel)%nat) rs ->
  exists w' css pos',
    HGP.processMesh buf body transform fuel mesh_header_offset w = Ok w'
    /\ LSW.processMesh body transform fuel mesh_header_offset w
         {| LSW.contents := buf; LSW.position := pos |}
       = Ok (w', {| LSW.contents := buf; LSW.position := pos' |})
    /\ Model.chunks (model w') = Model.chunks (model w) ++ concat css
    /\ Forall2 (emitted_for_mesh buf body transform) css rs.
Proof.
  intros Hlen Hbody Hmho Hmo Hne Hchain Hvl Hidx Hfuel.
  destruct (hgp_mesh_loop_chain buf body transform mesh_offset rs Hchain fuel w
              Hvl Hidx Hfuel) as (w' & css & Hloop & Hchunks & Hcss).
  assert (Hbulk : HGP.processMesh buf body transform fuel mesh_header_offset w = Ok w').
  { unfold HGP.processMesh.
    destruct (Z.eqb_spec mesh_header_offset 0); [lia|].
    apply load32_word_at in Hmo. cbn zeta. rewrite Hmo. cbn [bind].
    destruct (Z.eqb_spec mesh_offset 0); [contradiction | exact Hloop]. }
  destruct (processMesh_agree buf body transform Hlen fuel mesh_header_offset w w' pos
              Hbody ltac:(lia) Hbulk) as (pos' & Hstream).
  exists w', css, pos'. auto.
Qed.

Ltac sample_record :=
  repeat split; try reflexivity;
  intros i Hi; cbn [cr_num_elements cr_elements_offset] in *;
  assert (i = 0 \/ i = 1 \/ i = 2) as [-> | [-> | ->]] by lia; vm_compute; eauto.

(** The chain of two meshes at 0x2C of the sample file. *)
Lemma sample_mesh_chain :
  mesh_chain (sample_file 7 89) HGP.BODY_OFFSET 0x2C
    [ {| mr_material_idx := 1; mr_vertex_type := 7; mr_vertex_buffer_idx := 1;
         mr_chunks := [ {| cr_primitive_type := 4; cr_num_elements := 3;
                           cr_elements_offset := 0x10 |} ] |};
      {| mr_material_idx := 2; mr_vertex_type := 89; mr_vertex_buffer_idx := 1;
         mr_chunks := [ {| cr_primitive_type := 5; cr_num_elements := 2;
                           cr_elements_offset := 0x10 |};
                        {| cr_primitive_type := 6; cr_num_elements := 1;
                           cr_elements_offset := 0x14 |} ] |} ].
Proof.
  apply (mesh_chain_link _ _ 0x2C 0x60); [lia| |apply mesh_chain_end].
  - repeat split; try reflexivity. exists 0x00. split; [reflexivity|].
    apply chain_end. sample_record.
  - repeat split; try reflexivity. exists 0x94. split; [reflexivity|].
    apply (chain_link _ _ 0x94 0xA4); [lia| |apply chain_end]; sample_record.
Defined.

Lemma mesh_chain_walked_witness :
  exists w' css pos',
    HGP.processMesh (sample_file 7 89) HGP.BODY_OFFSET 5 5 0x18 sample_walk = Ok w'
    /\ LSW.processMesh HGP.BODY_OFFSET 5 5 0x18 sample_walk (sample_stream 7 89)
       = Ok (w', {| LSW.contents := sample_file 7 89; LSW.position := pos' |})
    /\ Model.chunks (model w') = Model.chunks (model sample_walk) ++ concat css
    /\ Forall2 (emitted_for_mesh (sample_file 7 89) HGP.BODY_OFFSET 5) css
         [ {| mr_material_idx := 1; mr_vertex_type := 7; mr_vertex_buffer_idx := 1;
              mr_chunks := [ {| cr_primitive_type := 4; cr_num_elements := 3;
                                cr_elements_offset := 0x10 |} ] |};
           {| mr_material_idx := 2; mr_vertex_type := 89; mr_vertex_buffer_idx := 1;
              mr_chunks := [ {| cr_primitive_type := 5; cr_num_elements := 2;
                                cr_elements_offset := 0x10 |};
                             {| cr_primitive_type := 6; cr_num_elements := 1;
                                cr_elements_offset := 0x14 |} ] |} ].
Proof.
  apply (mesh_chain_walked (sample_file 7 89) HGP.BODY_OFFSET 5 5 0x18 0x2C _
           sample_walk 0).
  - vm_compute. intros H; discriminate H.
  - vm_compute. intros H; discriminate H.
  - lia.
  - reflexivity.
  - lia.
  - exact sample_mesh_chain.
  - vm_compute. reflexivity.
  - repeat constructor; cbn; lia.
  - repeat constructor; cbn; lia.
Defined.

(** ** The transform composer, for any order of the nodes *)

Lemma for_loop_fault {S : Type} (Inv : Z -> S -> Prop) (body : Z -> S -> result S)
    (hi k : Z) (e : fault) :
  (forall i s, 0 <= i < hi -> Inv i s ->
     (exists s', body i s = Ok s' /\ Inv (i + 1) s') \/ body i s = Fail e) ->
  0 <= k < hi ->
  (forall s, Inv k s -> body k s = Fail e) ->
  forall (n : nat) (i : Z) (s : S),
    0 <= i <= k -> i + Z.of_nat n = hi -> Inv i s ->
    HGP.for_loop n i body s = Fail e.
Proof.
  intros Hstep Hk Hbad. induction n as [|n IH]; intros i s Hi Hn Hinv; [lia|].
  cbn [HGP.for_loop].
  destruct (Z.eq_dec i k) as [->|Hne].
  - now rewrite (Hbad s Hinv).
  - destruct (Hstep i s) as [(s' & Hb & Hinv') | Hb]; [lia | exact Hinv | |].
    + rewrite Hb. cbn [bind]. apply IH; [lia | lia | exact Hinv'].
    + now rewrite Hb.
Qed.

Section AnyOrder.
Context {Matrix : Type}.
Variable Matrix_mul : Matrix -> Matrix -> Matrix.
Variable Matrix_default : Matrix.
Variable transform_matrices : Z -> result Matrix.
Variable parent_idx : Z -> result Z.
Variable locals : list Matrix.
Variable parents : list Z.

Hypothesis Hsame : length parents = length locals.
Hypothesis Hlocals :
  forall i l, locals !! i = Some l -> transform_matrices (Z.of_nat i) = Ok l.
Hypothesis Hparents :
  forall i p, parents !! i = Some p -> parent_idx (Z.of_nat i) = Ok p.

Local Abbreviation step :=
  (HGP.transform_step Matrix_mul transform_matrices parent_idx).
Local Abbreviation entry := (pass_entry Matrix_mul Matrix_default locals parents).
Local Abbreviation state := (pass_state Matrix_mul Matrix_default locals parents).

Lemma vec_set_in_range {A : Type} (v : list A) (k : nat) (f : A -> A) (x : A) :
  v !! k = Some x -> vec_set v (Z.of_nat k) f = Ok (<[k := f x]> v).
Proof.
  intros H. unfold vec_set. rewrite (vec_at_lookup _ _ _ H). cbn [bind].
  now rewrite Nat2Z.id.
Qed.

Lemma vec_at_out_of_range {A : Type} (v : list A) (p : Z) :
  p < 0 \/ Z.of_nat (length v) <= p -> vec_at v p = Fail Undefined.
Proof.
  intros H. unfold vec_at. destruct (Z.ltb_spec p 0); [reflexivity|].
  rewrite (proj2 (lookup_ge_None v (Z.to_nat p))) by lia. reflexivity.
Qed.

Lemma transform_step_any_order (i : Z) (mt : list Matrix) :
  parents_in_range locals parents ->
  0 <= i < Z.of_nat (length locals) ->
  state i mt ->
  exists mt', step i mt = Ok mt' /\ state (i + 1) mt'.
Proof.
  intros Hrange Hi (Hlen & Hrest & Hdone).
  set (k := Z.to_nat i). assert (Hk : i = Z.of_nat k) by lia.
  destruct (lookup_lt_is_Some_2 locals k) as [l Hl]; [lia|].
  destruct (lookup_lt_is_Some_2 parents k) as [p Hp]; [lia|].
  destruct (lookup_lt_is_Some_2 mt k) as [x Hx]; [lia|].
  assert (Hkeep : forall (mt1 : list Matrix) (y : Matrix) (j : nat),
             Z.of_nat j < i -> entry mt1 j -> entry (<[k := y]> mt1) j).
  { intros mt1 y j Hj He l' p' Hl' Hp'.
    destruct (He l' p' Hl' Hp') as (E1 & E2 & E3 & E4).
    rewrite !list_lookup_insert_ne by lia.
    repeat split; try assumption.
    intros Hpj. destruct (E2 Hpj) as (wp & Hwp & Hw). exists wp.
    rewrite list_lookup_insert_ne by lia. auto. }
  unfold HGP.transform_step. rewrite Hk.
  rewrite (Hlocals _ _ Hl). cbn [bind].
  rewrite (vec_set_in_range _ _ _ _ Hx). cbn [bind].
  rewrite (Hparents _ _ Hp). cbn [bind].
  set (mt1 := <[k := l]> mt).
  assert (Hl1 : length mt1 = length locals) by (unfold mt1; now rewrite length_insert).
  assert (Hk1 : mt1 !! k = Some l) by (apply list_lookup_insert_eq; lia).
  destruct (Z.eqb_spec p (-1)) as [->|Hroot].
  - exists mt1. split; [reflexivity|]. split; [exact Hl1|]. split.
    + intros j Hj Hjn. unfold mt1. rewrite list_lookup_insert_ne by lia.
      apply Hrest; [lia | exact Hjn].
    + intros j Hj. destruct (decide (j = k)) as [->|Hjk].
      * intros l' p' Hl' Hp'. rewrite Hl in Hl'. rewrite Hp in Hp'.
        injection Hl' as <-. injection Hp' as <-.
        repeat split; intros; (lia || assumption).
      * apply Hkeep; [lia|]. apply Hdone. lia.
  - destruct (Hrange _ _ Hp) as [?|Hpr]; [contradiction|].
    rewrite (vec_at_lookup _ _ _ Hk1). cbn [bind].
    destruct (lookup_lt_is_Some_2 mt1 (Z.to_nat p)) as [b Hb]; [lia|].
    rewrite (vec_at_lookup_Z _ _ _ (proj1 Hpr) Hb). cbn [bind].
    rewrite (vec_set_in_range _ _ _ _ Hk1).
    exists (<[k := Matrix_mul l b]> mt1). split; [reflexivity|].
    split; [now rewrite length_insert|]. split.
    + intros j Hj Hjn. unfold mt1. rewrite !list_lookup_insert_ne by lia.
      apply Hrest; [lia | exact Hjn].
    + intros j Hj. destruct (decide (j = k)) as [->|Hjk].
      * intros l' p' Hl' Hp'. rewrite Hl in Hl'. rewrite Hp in Hp'.
        injection Hl' as <-. injection Hp' as <-.
        assert (Hnew : <[k := Matrix_mul l b]> mt1 !! k = Some (Matrix_mul l b))
          by (apply list_lookup_insert_eq; lia).
        split; [intros; lia|]. split; [|split].
        -- intros Hpk. exists b. split; [|exact Hnew].
           rewrite list_lookup_insert_ne by lia. exact Hb.
        -- intros ->. rewrite Nat2Z.id in Hb. rewrite Hk1 in Hb.
           injection Hb as <-. exact Hnew.
        -- intros Hpk. unfold mt1 in Hb.
           rewrite list_lookup_insert_ne in Hb by lia.
           rewrite Hrest in Hb by lia. injection Hb as <-. exact Hnew.
      * apply Hkeep; [lia|]. apply Hkeep; [lia|]. apply Hdone. lia.
Qed.

Lemma compose_transforms_any_order :
  parents_in_range locals parents ->
  exists world,
    HGP.compose_transforms Matrix_mul Matrix_default transform_matrices
      parent_idx (Z.of_nat (length locals)) = Ok world
    /\ length world = length locals
    /\ forall i : nat, entry world i.
Proof.
  intros Hrange. unfold HGP.compose_transforms. rewrite Nat2Z.id.
  destruct (for_loop_invariant state step (Z.of_nat (length locals))
              (fun i s Hi Hinv => transform_step_any_order i s Hrange Hi Hinv)
              (length locals) 0 (replicate (length locals) Matrix_default))
    as (world & Hrun & Hlen & _ & Hall).
  - lia.
  - lia.
  - split; [apply length_replicate|]. split; [|intros; lia].
    intros j _ Hj. now apply lookup_replicate_2.
  - exists world. split; [exact Hrun|]. split; [exact Hlen|].
    intros i. destruct (decide (i < length locals)%nat) as [Hi|Hi].
    + apply Hall. lia.
    + intros l p Hl _. apply lookup_lt_Some in Hl. lia.
Qed.

Lemma transform_step_length (i : Z) (mt : list Matrix) :
  0 <= i < Z.of_nat (length locals) ->
  length mt = length locals ->
  (exists mt', step i mt = Ok mt' /\ length mt' = length locals)
  \/ step i mt = Fail Undefined.
Proof.
  intros Hi Hlen.
  set (k := Z.to_nat i). assert (Hk : i = Z.of_nat k) by lia.
  destruct (lookup_lt_is_Some_2 locals k) as [l Hl]; [lia|].
  destruct (lookup_lt_is_Some_2 parents k) as [p Hp]; [lia|].
  destruct (lookup_lt_is_Some_2 mt k) as [x Hx]; [lia|].
  unfold HGP.transform_step. rewrite Hk.
  rewrite (Hlocals _ _ Hl). cbn [bind].
  rewrite (vec_set_in_range _ _ _ _ Hx). cbn [bind].
  rewrite (Hparents _ _ Hp). cbn [bind].
  set (mt1 := <[k := l]> mt).
  assert (Hl1 : length mt1 = length locals) by (unfold mt1; now rewrite length_insert).
  assert (Hk1 : mt1 !! k = Some l) by (apply list_lookup_insert_eq; lia).
  destruct (Z.eqb_spec p (-1)) as [->|Hroot]; [left; eauto|].
  rewrite (vec_at_lookup _ _ _ Hk1). cbn [bind].
  destruct (decide (0 <= p < Z.of_nat (length locals))) as [Hpr|Hpr].
  - destruct (lookup_lt_is_Some_2 mt1 (Z.to_nat p)) as [b Hb]; [lia|].
    rewrite (vec_at_lookup_Z _ _ _ (proj1 Hpr) Hb). cbn [bind].
    rewrite (vec_set_in_range _ _ _ _ Hk1). left. eexists. split; [reflexivity|].
    now rewrite length_insert.
  - rewrite vec_at_out_of_range by lia. now right.
Qed.

Lemma transform_step_bad_parent (k : nat) (p : Z) (mt : list Matrix) :
  parents !! k = Some p -> p <> -1 ->
  ~ (0 <= p < Z.of_nat (length locals)) ->
  length mt = length locals ->
  step (Z.of_nat k) mt = Fail Undefined.
Proof.
  intros Hp Hroot Hbad Hlen.
  pose proof (lookup_lt_Some _ _ _ Hp) as Hkn.
  destruct (lookup_lt_is_Some_2 locals k) as [l Hl]; [lia|].
  destruct (lookup_lt_is_Some_2 mt k) as [x Hx]; [lia|].
  unfold HGP.transform_step.
  rewrite (Hlocals _ _ Hl). cbn [bind].
  rewrite (vec_set_in_range _ _ _ _ Hx). cbn [bind].
  rewrite (Hparents _ _ Hp). cbn [bind].
  destruct (Z.eqb_spec p (-1)); [contradiction|].
  assert (Hk1 : <[k := l]> mt !! k = Some l) by (apply list_lookup_insert_eq; lia).
  rewrite (vec_at_lookup _ _ _ Hk1). cbn [bind].
  rewrite vec_at_out_of_range; [reflexivity|]. rewrite length_insert. lia.
Qed.

Lemma compose_transforms_bad_parent (k : nat) (p : Z) :
  parents !! k = Some p -> p <> -1 ->
  ~ (0 <= p < Z.of_nat (length locals)) ->
  HGP.compose_transforms Matrix_mul Matrix_default transform_matrices
    parent_idx (Z.of_nat (length locals)) = Fail Undefined.
Proof.
  intros Hp Hroot Hbad. pose proof (lookup_lt_Some _ _ _ Hp) as Hkn.
  unfold HGP.compose_transforms. rewrite Nat2Z.id.
  apply (for_loop_fault (fun _ mt => length mt = length locals) step
           (Z.of_nat (length locals)) (Z.of_nat k)).
  - intros i s Hi Hinv. apply transform_step_length; assumption.
  - lia.
  - intros s Hs. exact (transform_step_bad_parent k p s Hp Hroot Hbad Hs).
  - lia.
  - lia.
  - apply length_replicate.
Qed.
End AnyOrder.

(** The pass over the mesh tree does not need the parents to come first,
    and does not check that they do.  Whenever every parent index is -1 or
    the index of a node, the pass returns: a node whose parent comes
    earlier gets its local transform times the parent's entry; a node that
    is its own parent gets its local transform times itself; and a node
    whose parent comes later gets its local transform times the
    default-constructed matrix, since the parent's entry has not been
    written yet. *)
Theorem compose_transforms_unordered {Matrix : Type}
    (Matrix_mul : Matrix -> Matrix -> Matrix) (Matrix_default : Matrix)
    (transform_matrices : Z -> result Matrix) (parent_idx : Z -> result Z)
    (locals : list Matrix) (parents : list Z) :
  length parents = length locals ->
  (forall i l, locals !! i = Some l -> transform_matrices (Z.of_nat i) = Ok l) ->
  (forall i p, parents !! i = Some p -> parent_idx (Z.of_nat i) = Ok p) ->
  parents_in_range locals parents ->
  exists world,
    HGP.compose_transforms Matrix_mul Matrix_default transform_matrices
      parent_idx (Z.of_nat (length locals)) = Ok world
    /\ length world = length locals
    /\ forall i : nat, pass_entry Matrix_mul Matrix_default locals parents world i.
Proof.
  intros Hsame Hlocals Hparents Hrange.
  now apply compose_transforms_any_order.
Qed.

Lemma compose_transforms_unordered_witness :
  exists world,
    HGP.compose_transforms Z.mul 7 (vec_at [2; 3; 5]) (vec_at [2; 1; -1])
      (Z.of_nat (length [2; 3; 5])) = Ok world
    /\ length world = length [2; 3; 5]
    /\ forall i : nat, pass_entry Z.mul 7 [2; 3; 5] [2; 1; -1] world i.
Proof.
  apply (compose_transforms_unordered Z.mul 7 (vec_at [2; 3; 5]) (vec_at [2; 1; -1])
           [2; 3; 5] [2; 1; -1]).
  - reflexivity.
  - intros [|[|[|i]]] l; simpl; intros [= <-]; reflexivity.
  - intros [|[|[|i]]] p; simpl; intros [= <-]; reflexivity.
  - intros [|[|[|i]]] p; simpl; intros [= <-]; lia.
Defined.

(** A parent index that is neither -1 nor the index of a node is not
    checked: the pass indexes the vector of transforms with it, out of
    range, which is undefined. *)
Theorem parent_idx_out_of_range {Matrix : Type}
    (Matrix_mul : Matrix -> Matrix -> Matrix) (Matrix_default : Matrix)
    (transform_matrices : Z -> result Matrix) (parent_idx : Z -> result Z)
    (locals : list Matrix) (parents : list Z) (k : nat) (p : Z) :
  length parents = length locals ->
  (forall i l, locals !! i = Some l -> transform_matrices (Z.of_nat i) = Ok l) ->
  (forall i q, parents !! i = Some q -> parent_idx (Z.of_nat i) = Ok q) ->
  parents !! k = Some p ->
  p <> -1 ->
  ~ (0 <= p < Z.of_nat (length locals)) ->
  HGP.compose_transforms Matrix_mul Matrix_default transform_matrices
    parent_idx (Z.of_nat (length locals)) = Fail Undefined.
Proof.
  intros Hsame Hlocals Hparents Hp Hroot Hbad.
  exact (compose_transforms_bad_parent Matrix_mul Matrix_default transform_matrices
           parent_idx locals parents Hsame Hlocals Hparents k p Hp Hroot Hbad).
Qed.

Lemma parent_idx_out_of_range_witness :
  HGP.compose_transforms Z.mul 7 (vec_at [2; 3; 5]) (vec_at [-1; 3; 0])
    (Z.of_nat (length [2; 3; 5])) = Fail Undefined.
Proof.
  apply (parent_idx_out_of_range Z.mul 7 (vec_at [2; 3; 5]) (vec_at [-1; 3; 0])
           [2; 3; 5] [-1; 3; 0] 1 3).
  - reflexivity.
  - intros [|[|[|i]]] l; simpl; intros [= <-]; reflexivity.
  - intros [|[|[|i]]] q; simpl; intros [= <-]; reflexivity.
  - reflexivity.
  - lia.
  - simpl. lia.
Defined.

(** ** The arrays of a decoded model *)

Lemma for_loop_Ok_invariant {St : Type} (Inv : Z -> St -> Prop)
    (body : Z -> St -> result St) :
  (forall i s s', 0 <= i -> Inv i s -> body i s = Ok s' -> Inv (i + 1) s') ->
  forall (n : nat) (i : Z) (s s' : St),
    0 <= i -> Inv i s -> HGP.for_loop n i body s = Ok s' -> Inv (i + Z.of_nat n) s'.
Proof.
  intros Hstep. induction n as [|n IH]; intros i s s' Hi Hinv H.
  - injection H as <-. now replace (i + Z.of_nat 0) with i by lia.
  - cbn [HGP.for_loop] in H. apply bind_Ok in H as (s1 & Hb & H).
    replace (i + Z.of_nat (S n)) with (i + 1 + Z.of_nat n) by lia.
    apply (IH (i + 1) s1 s'); [lia | exact (Hstep _ _ _ Hi Hinv Hb) | exact H].
Qed.

Lemma vec_set_Ok {A : Type} (v v' : list A) (i : Z) (f : A -> A) :
  vec_set v i f = Ok v' ->
  0 <= i /\ exists x, v !! Z.to_nat i = Some x /\ v' = <[Z.to_nat i := f x]> v.
Proof.
  unfold vec_set. intros H. apply bind_Ok in H as (x & Hx & H). injection H as <-.
  apply vec_at_in_range in Hx as [Hi Hx]. split; [lia|]. eauto.
Qed.

(** The entries of [v'], the vector [v] with a new entry at [i], below
    [i + 1]: the old ones and the new one. *)
Lemma filled_step {A : Type} (P : nat -> A -> Prop) (v : list A) (i : Z) (y : A) :
  0 <= i -> (Z.to_nat i < length v)%nat ->
  (forall j x, Z.of_nat j < i -> v !! j = Some x -> P j x) ->
  P (Z.to_nat i) y ->
  forall j x, Z.of_nat j < i + 1 -> <[Z.to_nat i := y]> v !! j = Some x -> P j x.
Proof.
  intros Hi Hlt Hold Hnew j x Hj Hx.
  destruct (decide (j = Z.to_nat i)) as [->|Hne].
  - rewrite list_lookup_insert_eq in Hx by lia. now injection Hx as <-.
  - rewrite list_lookup_insert_ne in Hx by lia. apply (Hold j x); [lia | exact Hx].
Qed.

Lemma read_materials_Ok (buf : list byte) (ms : list Model.Material) :
  HGP.read_materials buf = Ok ms ->
  exists material_header_offset num_materials,
    word_at buf 0x0C 4 = Some material_header_offset
    /\ word_at buf (HGP.BODY_OFFSET + material_header_offset) 4 = Some num_materials
    /\ Z.of_nat (length ms) = num_materials
    /\ forall i m, ms !! i = Some m ->
         material_of_file buf (HGP.BODY_OFFSET + material_header_offset) i m.
Proof.
  unfold HGP.read_materials, HGP.file_header, HGP.body, HGP.OFFSET.
  intros H. apply bind_Ok in H as (mho & Hmho & H).
  apply bind_Ok in H as (n & Hn & H).
  apply load32_word_at in Hmho, Hn.
  pose proof (word_at_Some _ _ _ _ Hn) as (_ & _ & Hn0 & _).
  exists mho, n. split; [exact Hmho|]. split; [exact Hn|].
  apply (for_loop_Ok_invariant
           (fun i ms => length ms = Z.to_nat n
                        /\ forall j m, Z.of_nat j < i -> ms !! j = Some m ->
                             material_of_file buf (HGP.BODY_OFFSET + mho) j m))
    in H as [Hlen Hall].
  - split; [lia|]. intros i m Hm. apply (Hall i m); [|exact Hm].
    apply lookup_lt_Some in Hm. lia.
  - clear H. intros i s s' Hi [Hlen Hall] H.
    apply bind_Ok in H as (mo & Hmo & H).
    apply bind_Ok in H as (red & Hred & H).
    apply bind_Ok in H as (green & Hgreen & H).
    apply bind_Ok in H as (blue & Hblue & H).
    apply bind_Ok in H as (alpha & Halpha & H).
    apply bind_Ok in H as (stored & Hstored & H).
    apply vec_set_Ok in H as (_ & x & Hx & ->).
    apply load32_word_at in Hmo, Hred, Hgreen, Hblue, Halpha.
    apply load16_word_at in Hstored.
    pose proof (lookup_lt_Some _ _ _ Hx) as Hlt.
    split; [now rewrite length_insert|].
    apply filled_step; try assumption.
    exists mo, stored. rewrite Z2Nat.id by lia. cbn. auto 10.
  - lia.
  - split; [apply length_replicate | intros; lia].
Qed.

Lemma memcpy_Ok (buf : list byte) (p n : Z) (bs : list byte) :
  0 <= n -> HGP.memcpy buf p n = Ok bs ->
  Z.of_nat (length bs) = n /\ bs = take (Z.to_nat n) (drop (Z.to_nat p) buf).
Proof.
  intros Hn. unfold HGP.memcpy, HGP.load.
  destruct (Z.eqb_spec n 0) as [->|Hne].
  - intros [= <-]. split; reflexivity.
  - destruct (slice buf p (Z.to_nat n)) as [bs'|] eqn:E; [|discriminate].
    intros [= <-]. apply slice_Some in E as (Hp & Hhi & ->).
    split; [|reflexivity]. rewrite length_take, length_drop. lia.
Qed.

Lemma read_vertex_buffers_Ok (buf : list byte) (vbs : list Model.VertexBuffer) :
  HGP.read_vertex_buffers buf = Ok vbs ->
  exists vertex_header_offset num_vertex_blocks,
    word_at buf 0x14 4 = Some vertex_header_offset
    /\ word_at buf (HGP.BODY_OFFSET + vertex_header_offset) 4 = Some num_vertex_blocks
    /\ Z.of_nat (length vbs) = num_vertex_blocks
    /\ forall i vb, vbs !! i = Some vb ->
         vertex_block_of_file buf (HGP.BODY_OFFSET + vertex_header_offset) i vb
         /\ Model.stride vb = 0.
Proof.
  unfold HGP.read_vertex_buffers, HGP.file_header, HGP.body, HGP.OFFSET.
  intros H. apply bind_Ok in H as (vho & Hvho & H).
  apply bind_Ok in H as (n & Hn & H).
  apply load32_word_at in Hvho, Hn.
  pose proof (word_at_Some _ _ _ _ Hn) as (_ & _ & Hn0 & _).
  exists vho, n. split; [exact Hvho|]. split; [exact Hn|].
  apply (for_loop_Ok_invariant
           (fun i vbs =>
              length vbs = Z.to_nat n
              /\ (forall j vb, vbs !! j = Some vb -> Model.stride vb = 0)
              /\ forall j vb, Z.of_nat j < i -> vbs !! j = Some vb ->
                   vertex_block_of_file buf (HGP.BODY_OFFSET + vho) j vb))
    in H as (Hlen & Hstride & Hall).
  - split; [lia|]. intros i vb Hvb. split; [|exact (Hstride i vb Hvb)].
    apply (Hall i vb); [|exact Hvb]. apply lookup_lt_Some in Hvb. lia.
  - clear H. intros i s s' Hi (Hlen & Hstride & Hall) H.
    apply bind_Ok in H as (size & Hsize & H).
    apply bind_Ok in H as (offset & Hoffset & H).
    apply bind_Ok in H as (data & Hdata & H).
    apply vec_set_Ok in H as (_ & x & Hx & ->).
    apply load32_word_at in Hsize, Hoffset.
    pose proof (word_at_Some _ _ _ _ Hsize) as (_ & _ & Hs0 & _).
    apply memcpy_Ok in Hdata as [Hdl Hd]; [|exact Hs0].
    pose proof (lookup_lt_Some _ _ _ Hx) as Hlt.
    split; [now rewrite length_insert|]. split.
    + intros j vb Hvb. destruct (decide (j = Z.to_nat i)) as [->|Hne].
      * rewrite list_lookup_insert_eq in Hvb by lia. injection Hvb as <-.
        cbn. exact (Hstride _ _ Hx).
      * rewrite list_lookup_insert_ne in Hvb by lia. exact (Hstride _ _ Hvb).
    + apply filled_step; try assumption.
      exists offset. rewrite Z2Nat.id by lia. cbn.
      replace (HGP.BODY_OFFSET + vho + offset) with (HGP.BODY_OFFSET + (vho + offset))
        by lia.
      auto.
  - lia.
  - split; [apply length_replicate|]. split; [|intros; lia].
    intros j vb Hvb. apply lookup_replicate_1 in Hvb as [-> _]. reflexivity.
Qed.

Section TextureFacts.
Context {Texture : Type}.
Variable DDSTexture : list byte -> Z -> Texture.
Variable Texture_default : Texture.

Lemma read_textures_Ok (buf : list byte) (ts : list Texture) :
  HGP.read_textures DDSTexture Texture_default buf = Ok ts ->
  exists texture_header_offset num_textures,
    word_at buf 0x08 4 = Some texture_header_offset
    /\ word_at buf (HGP.BODY_OFFSET + texture_header_offset + 0x08) 4
       = Some num_textures
    /\ Z.of_nat (length ts) = num_textures
    /\ forall i t, ts !! i = Some t ->
         exists texture_block_offset offset,
           word_at buf (HGP.BODY_OFFSET + texture_header_offset) 4
           = Some texture_block_offset
           /\ word_at buf (HGP.BODY_OFFSET + texture_header_offset + 0x1C
                           + 20 * Z.of_nat i) 4 = Some offset
           /\ t = DDSTexture buf
                    (HGP.BODY_OFFSET + texture_header_offset
                     + texture_block_offset + 12 + offset).
Proof.
  unfold HGP.read_textures, HGP.file_header, HGP.body, HGP.OFFSET.
  intros H. apply bind_Ok in H as (tho & Htho & H).
  apply bind_Ok in H as (n & Hn & H).
  apply load32_word_at in Htho, Hn.
  pose proof (word_at_Some _ _ _ _ Hn) as (_ & _ & Hn0 & _).
  exists tho, n. split; [exact Htho|]. split; [exact Hn|].
  apply (for_loop_Ok_invariant
           (fun i ts =>
              length ts = Z.to_nat n
              /\ forall j t, Z.of_nat j < i -> ts !! j = Some t ->
                   exists tbo offset,
                     word_at buf (HGP.BODY_OFFSET + tho) 4 = Some tbo
                     /\ word_at buf (HGP.BODY_OFFSET + tho + 0x1C + 20 * Z.of_nat j) 4
                        = Some offset
                     /\ t = DDSTexture buf (HGP.BODY_OFFSET + tho + tbo + 12 + offset)))
    in H as [Hlen Hall].
  - split; [lia|]. intros i t Ht. apply (Hall i t); [|exact Ht].
    apply lookup_lt_Some in Ht. lia.
  - clear H. intros i s s' Hi [Hlen Hall] H.
    apply bind_Ok in H as (tbo & Htbo & H).
    apply bind_Ok in H as (offset & Hoffset & H).
    apply vec_set_Ok in H as (_ & x & Hx & ->).
    apply load32_word_at in Htbo, Hoffset.
    pose proof (lookup_lt_Some _ _ _ Hx) as Hlt.
    split; [now rewrite length_insert|].
    apply (filled_step
             (fun j t => exists tbo offset,
                  word_at buf (HGP.BODY_OFFSET + tho) 4 = Some tbo
                  /\ word_at buf (HGP.BODY_OFFSET + tho + 0x1C + 20 * Z.of_nat j) 4
                     = Some offset
                  /\ t = DDSTexture buf (HGP.BODY_OFFSET + tho + tbo + 12 + offset)));
      try assumption.
    exists tbo, offset. rewrite Z2Nat.id by lia.
    split; [exact Htbo|]. split; [exact Hoffset|].
    f_equal. lia.
  - lia.
  - split; [apply length_replicate | intros; lia].
Qed.
End TextureFacts.

Section Assembled.
Context {Matrix Texture : Type}.
Local Abbreviation walk := (walk Matrix Texture).

Lemma walked_assembled (transform : Matrix) (w w' : walk) :
  walked transform w w' -> assembled w w'.
Proof.
  intros (A1 & A2 & A3 & A4 & (cs & A5 & A6) & A7).
  repeat split; try assumption.
  exists cs. split; [exact A5|].
  eapply Forall_impl; [exact A6|]. cbn.
  intros c (_ & Hc). split; [reflexivity | exact Hc].
Qed.

Lemma assembled_refl (w : walk) : assembled w w.
Proof.
  repeat split.
  - apply Forall2_same_length_lookup. split; [reflexivity|].
    intros i x y Hx Hy. rewrite Hx in Hy. injection Hy as <-. apply stride_kept_refl.
  - exists []. split; [now rewrite app_nil_r | constructor].
  - exists []. split; [now rewrite app_nil_r | constructor].
Qed.

Lemma assembled_trans (w1 w2 w3 : walk) :
  assembled w1 w2 -> assembled w2 w3 -> assembled w1 w3.
Proof.
  intros (A1 & A2 & A3 & A4 & (cs1 & A5 & A6) & (l1 & A7 & A8))
         (B1 & B2 & B3 & B4 & (cs2 & B5 & B6) & (l2 & B7 & B8)).
  split; [congruence|]. split; [congruence|]. split; [congruence|].
  split; [|split].
  - pose proof (Forall2_length _ _ _ A4) as L1.
    pose proof (Forall2_length _ _ _ B4) as L2.
    apply Forall2_same_length_lookup. split; [congruence|].
    intros i x z Hx Hz.
    destruct (lookup_lt_is_Some_2 (vbufs w2) i) as [y Hy];
      [rewrite <- L1; now apply lookup_lt_Some in Hx|].
    eapply stride_kept_trans.
    + exact (Forall2_lookup_lr _ _ _ _ _ _ A4 Hx Hy).
    + exact (Forall2_lookup_lr _ _ _ _ _ _ B4 Hy Hz).
  - exists (cs1 ++ cs2). split; [rewrite B5, A5; now rewrite app_assoc|].
    apply Forall_app. split; [exact A6|].
    now rewrite (Forall2_length _ _ _ A4).
  - exists (l1 ++ l2). split; [rewrite B7, A7; now rewrite app_assoc|].
    apply Forall_app. now split.
Qed.

Variable Matrix_mul : Matrix -> Matrix -> Matrix.
Variable Matrix_of_bytes : list byte -> Matrix.
Variable walker : Z -> Matrix -> walk -> result walk.
Variable R : walk -> walk -> Prop.
Hypothesis R_refl : forall w, R w w.
Hypothesis R_trans : forall w1 w2 w3, R w1 w2 -> R w2 w3 -> R w1 w3.
Hypothesis walker_R : forall off t w w', walker off t w = Ok w' -> R w w'.

Lemma layers_loop_preserves (buf : list byte)
    (body layer_headers static_transform_matrices num_meshes : Z)
    (modelTransforms : list Matrix) (num_layers : Z) (w w' : walk) :
  HGP.layers_loop Matrix_mul Matrix_of_bytes walker buf body layer_headers
    static_transform_matrices num_meshes modelTransforms num_layers w = Ok w' ->
  R w w'.
Proof.
  unfold HGP.layers_loop.
  apply (for_loop_preserves R); [exact R_refl | exact R_trans|].
  intros i s s'. unfold HGP.layer_body.
  destruct (negb (i =? 0) && negb (i =? 2)); [intros [= <-]; apply R_refl|].
  apply (for_loop_preserves R); [exact R_refl | exact R_trans|].
  intros j s1 s2. unfold HGP.slot_body. intros H.
  apply bind_Ok in H as (slot & _ & H).
  destruct (slot =? 0); [injection H as <-; apply R_refl|].
  destruct (j mod 2 =? 0).
  - revert H. apply (for_loop_preserves R); [exact R_refl | exact R_trans|].
    intros k s3 s4 H.
    apply bind_Ok in H as (off & _ & H). apply bind_Ok in H as (t & _ & H).
    exact (walker_R _ _ _ _ H).
  - apply bind_Ok in H as (s0 & _ & H). apply bind_Ok in H as (m0 & _ & H).
    exact (walker_R _ _ _ _ H).
Qed.
End Assembled.

Section Decoded.
Context {Matrix Texture : Type}.
Variable Matrix_mul : Matrix -> Matrix -> Matrix.
Variable Matrix_default : Matrix.
Variable Matrix_of_bytes : list byte -> Matrix.
Variable DDSTexture : list byte -> Z -> Texture.
Variable Texture_default : Texture.

(** The parts of a successful run of the constructor. *)
Lemma decode_Ok (fuel : nat) (buf : list byte)
    (m : Model.Model Matrix Texture) (log : list stderr_line) :
  HGP.decode Matrix_mul Matrix_default Matrix_of_bytes DDSTexture Texture_default
    fuel buf = Ok (m, log) ->
  exists textures materials vertexBuffers w,
    HGP.read_textures DDSTexture Texture_default buf = Ok textures
    /\ HGP.read_materials buf = Ok materials
    /\ HGP.read_vertex_buffers buf = Ok vertexBuffers
    /\ assembled
         {| model := Model.setMaterials (Model.setTextures Model.empty textures)
                       materials;
            vbufs := vertexBuffers; stderr := [] |} w
    /\ m = Model.setVertexBuffers (model w) (vbufs w)
    /\ log = stderr w.
Proof.
  unfold HGP.decode. intros H.
  apply bind_Ok in H as (mho & _ & H).
  apply bind_Ok in H as (textures & Ht & H).
  apply bind_Ok in H as (materials & Hm & H).
  apply bind_Ok in H as (sto & _ & H).
  apply bind_Ok in H as (mt & _ & H).
  apply bind_Ok in H as (vbs & Hv & H).
  apply bind_Ok in H as (lho & _ & H).
  apply bind_Ok in H as (nm & _ & H).
  apply bind_Ok in H as (nl & _ & H).
  apply bind_Ok in H as (w & Hw & H).
  injection H as <- <-.
  exists textures, materials, vbs, w.
  split; [exact Ht|]. split; [exact Hm|]. split; [exact Hv|].
  split; [|split; reflexivity].
  revert Hw. apply layers_loop_preserves.
  - apply assembled_refl.
  - apply assembled_trans.
  - intros off t w1 w2 Hrun. apply (walked_assembled t).
    exact (hgp_processMesh_walked t _ _ _ _ _ _ Hrun).
Qed.
End Decoded.

Lemma normalized_range (stored : Z) :
  let t := HGP.normalize_texture_idx (to_int16 stored) in
  t = -1 \/ 0 <= t < 0x8000.
Proof.
  intros t. subst t. set (s := to_int16 stored).
  assert (Hs : - 2 ^ 15 <= s < 2 ^ 15).
  { unfold s, to_int16.
    pose proof (Z.mod_pos_bound stored (2 ^ 16) ltac:(lia)).
    destruct (Z.ltb_spec (stored mod 2 ^ 16) (2 ^ 15)); lia. }
  destruct (normalize_texture_idx_cases s Hs) as [Hneg Hpos].
  destruct (Z.eq_dec s (-1)) as [E|E].
  - left. rewrite Hpos; [exact E | now right].
  - right. destruct (Z.neg_nonneg_cases s) as [Hn|Hn].
    + rewrite (Hneg Hn E). apply (Z.mod_pos_bound s (2 ^ 15)). lia.
    + rewrite Hpos; [lia | now left].
Qed.

(** ** The decoded model *)

(** The materials of a decoded model are those of the file, one per entry
    of the material header and in its order: each has the four colour
    words of its record, and a texture index that is the record's
    reference re-indexed, so -1 (no texture) or an index below 0x8000. *)
Theorem decoded_materials {Matrix Texture : Type}
    (Matrix_mul : Matrix -> Matrix -> Matrix) (Matrix_default : Matrix)
    (Matrix_of_bytes : list byte -> Matrix) (DDSTexture : list byte -> Z -> Texture)
    (Texture_default : Texture) (fuel : nat) (buf : list byte)
    (m : Model.Model Matrix Texture) (log : list stderr_line) :
  HGP.decode Matrix_mul Matrix_default Matrix_of_bytes DDSTexture Texture_default
    fuel buf = Ok (m, log) ->
  exists material_header_offset num_materials,
    word_at buf 0x0C 4 = Some material_header_offset
    /\ word_at buf (HGP.BODY_OFFSET + material_header_offset) 4 = Some num_materials
    /\ Z.of_nat (length (Model.materials m)) = num_materials
    /\ forall i mat, Model.materials m !! i = Some mat ->
         material_of_file buf (HGP.BODY_OFFSET + material_header_offset) i mat
         /\ (Model.texture_idx mat = -1 \/ 0 <= Model.texture_idx mat < 0x8000).
Proof.
  intros Hdecode.
  destruct (decode_Ok _ _ _ _ _ _ _ _ _ Hdecode)
    as (ts & ms & vbs & w & _ & Hm & _ & (_ & A2 & _) & -> & _).
  cbn [Model.materials Model.setVertexBuffers]. rewrite A2. cbn.
  apply read_materials_Ok in Hm as (mho & n & H1 & H2 & H3 & Hall).
  exists mho, n. split; [exact H1|]. split; [exact H2|]. split; [exact H3|].
  intros i mat Hmat. pose proof (Hall i mat Hmat) as Hfile.
  split; [exact Hfile|].
  destruct Hfile as (mo & stored & _ & _ & _ & _ & _ & _ & ->).
  apply normalized_range.
Qed.

Lemma decoded_materials_witness :
  exists material_header_offset num_materials,
    word_at model_file 0x0C 4 = Some material_header_offset
    /\ word_at model_file (HGP.BODY_OFFSET + material_header_offset) 4
       = Some num_materials
    /\ Z.of_nat (length (Model.materials sample_model)) = num_materials
    /\ forall i mat, Model.materials sample_model !! i = Some mat ->
         material_of_file model_file (HGP.BODY_OFFSET + material_header_offset) i mat
         /\ (Model.texture_idx mat = -1 \/ 0 <= Model.texture_idx mat < 0x8000).
Proof.
  apply (decoded_materials Z.mul 0 sample_Matrix_of_bytes sample_DDSTexture 0 3
           model_file sample_model []).
  vm_compute. reflexivity.
Defined.

(** The vertex buffers of a decoded model are the vertex blocks of the
    file, one per block and in order: each has the block's size and that
    many bytes of the file, and a stride that is 0, 36 or 56 (0 when no
    mesh of a known vertex type was the last to name the buffer). *)
Theorem decoded_vertex_buffers {Matrix Texture : Type}
    (Matrix_mul : Matrix -> Matrix -> Matrix) (Matrix_default : Matrix)
    (Matrix_of_bytes : list byte -> Matrix) (DDSTexture : list byte -> Z -> Texture)
    (Texture_default : Texture) (fuel : nat) (buf : list byte)
    (m : Model.Model Matrix Texture) (log : list stderr_line) :
  HGP.decode Matrix_mul Matrix_default Matrix_of_bytes DDSTexture Texture_default
    fuel buf = Ok (m, log) ->
  exists vertex_header_offset num_vertex_blocks,
    word_at buf 0x14 4 = Some vertex_header_offset
    /\ word_at buf (HGP.BODY_OFFSET + vertex_header_offset) 4 = Some num_vertex_blocks
    /\ Z.of_nat (length (Model.vertexBuffers m)) = num_vertex_blocks
    /\ forall i vb, Model.vertexBuffers m !! i = Some vb ->
         vertex_block_of_file buf (HGP.BODY_OFFSET + vertex_header_offset) i vb
         /\ (Model.stride vb = 0 \/ Model.stride vb = 36 \/ Model.stride vb = 56).
Proof.
  intros Hdecode.
  destruct (decode_Ok _ _ _ _ _ _ _ _ _ Hdecode)
    as (ts & ms & vbs & w & _ & _ & Hv & (_ & _ & _ & A4 & _) & -> & _).
  cbn [Model.vertexBuffers Model.setVertexBuffers vbufs] in *.
  apply read_vertex_buffers_Ok in Hv as (vho & n & H1 & H2 & H3 & Hall).
  exists vho, n. split; [exact H1|]. split; [exact H2|].
  split; [now rewrite <- (Forall2_length _ _ _ A4)|].
  intros i vb Hvb.
  destruct (lookup_lt_is_Some_2 vbs i) as [vb0 Hvb0];
    [rewrite (Forall2_length _ _ _ A4); now apply lookup_lt_Some in Hvb|].
  destruct (Forall2_lookup_lr _ _ _ _ _ _ A4 Hvb0 Hvb) as (S1 & S2 & S3).
  destruct (Hall i vb0 Hvb0) as [(off & F1 & F2 & F3 & F4) Hs0].
  split.
  - exists off. rewrite S1, S2. auto.
  - rewrite Hs0 in S3. tauto.
Qed.

Lemma decoded_vertex_buffers_witness :
  exists vertex_header_offset num_vertex_blocks,
    word_at model_file 0x14 4 = Some vertex_header_offset
    /\ word_at model_file (HGP.BODY_OFFSET + vertex_header_offset) 4
       = Some num_vertex_blocks
    /\ Z.of_nat (length (Model.vertexBuffers sample_model)) = num_vertex_blocks
    /\ forall i vb, Model.vertexBuffers sample_model !! i = Some vb ->
         vertex_block_of_file model_file (HGP.BODY_OFFSET + vertex_header_offset) i vb
         /\ (Model.stride vb = 0 \/ Model.stride vb = 36 \/ Model.stride vb = 56).
Proof.
  apply (decoded_vertex_buffers Z.mul 0 sample_Matrix_of_bytes sample_DDSTexture 0 3
           model_file sample_model []).
  vm_compute. reflexivity.
Defined.

(** Every chunk of a decoded model names one of the model's vertex buffers
    (its index is at least 0 and below their number), declares fewer than
    65536 elements, and has an element buffer of exactly the declared
    length; and all the constructor printed after a successful seek is
    reports of unknown vertex types. *)
Theorem decoded_chunks_index_the_buffers {Matrix Texture : Type}
    (Matrix_mul : Matrix -> Matrix -> Matrix) (Matrix_default : Matrix)
    (Matrix_of_bytes : list byte -> Matrix) (DDSTexture : list byte -> Z -> Texture)
    (Texture_default : Texture) (fuel : nat) (buf : list byte)
    (m : Model.Model Matrix Texture) (log : list stderr_line) :
  HGP.decode Matrix_mul Matrix_default Matrix_of_bytes DDSTexture Texture_default
    fuel buf = Ok (m, log) ->
  Forall (fun c => 0 <= Model.vertex_buffer_idx c
                        < Z.of_nat (length (Model.vertexBuffers m))
                   /\ 0 <= Model.num_elements c < 65536
                   /\ Z.of_nat (length (Model.element_buffer c))
                      = Model.num_elements c)
         (Model.chunks m)
  /\ Forall unknown_type_report log.
Proof.
  intros Hdecode.
  destruct (decode_Ok _ _ _ _ _ _ _ _ _ Hdecode)
    as (ts & ms & vbs & w & _ & _ & _
        & (_ & _ & _ & A4 & (cs & A5 & A6) & (lines & A7 & A8)) & -> & ->).
  cbn [Model.vertexBuffers Model.chunks Model.setVertexBuffers vbufs stderr] in *.
  cbn in A5, A7. rewrite A5, A7. cbn. split; [|exact A8].
  rewrite <- (Forall2_length _ _ _ A4).
  eapply Forall_impl; [exact A6|]. cbn. intros c (_ & Hc). exact Hc.
Qed.

Lemma decoded_chunks_index_the_buffers_witness :
  Forall (fun c => 0 <= Model.vertex_buffer_idx c
                        < Z.of_nat (length (Model.vertexBuffers sample_model))
                   /\ 0 <= Model.num_elements c < 65536
                   /\ Z.of_nat (length (Model.element_buffer c))
                      = Model.num_elements c)
         (Model.chunks sample_model)
  /\ Forall unknown_type_report (@nil stderr_line).
Proof.
  apply (decoded_chunks_index_the_buffers Z.mul 0 sample_Matrix_of_bytes
           sample_DDSTexture 0 3 model_file sample_model []).
  vm_compute. reflexivity.
Defined.

(** The textures of a decoded model are one per entry of the texture
    header and in its order: texture [i] is what the texture decoder makes
    of the pointer [body + texture_header_offset + texture_block_offset +
    12 + offset_i], the block offset being relative to the texture header
    and 12 bytes being skipped. *)
Theorem decoded_textures {Matrix Texture : Type}
    (Matrix_mul : Matrix -> Matrix -> Matrix) (Matrix_default : Matrix)
    (Matrix_of_bytes : list byte -> Matrix) (DDSTexture : list byte -> Z -> Texture)
    (Texture_default : Texture) (fuel : nat) (buf : list byte)
    (m : Model.Model Matrix Texture) (log : list stderr_line) :
  HGP.decode Matrix_mul Matrix_default Matrix_of_bytes DDSTexture Texture_default
    fuel buf = Ok (m, log) ->
  exists texture_header_offset num_textures,
    word_at buf 0x08 4 = Some texture_header_offset
    /\ word_at buf (HGP.BODY_OFFSET + texture_header_offset + 0x08) 4
       = Some num_textures
    /\ Z.of_nat (length (Model.textures m)) = num_textures
    /\ forall i t, Model.textures m !! i = Some t ->
         exists texture_block_offset offset,
           word_at buf (HGP.BODY_OFFSET + texture_header_offset) 4
           = Some texture_block_offset
           /\ word_at buf (HGP.BODY_OFFSET + texture_header_offset + 0x1C
                           + 20 * Z.of_nat i) 4 = Some offset
           /\ t = DDSTexture buf
                    (HGP.BODY_OFFSET + texture_header_offset
                     + texture_block_offset + 12 + offset).
Proof.
  intros Hdecode.
  destruct (decode_Ok _ _ _ _ _ _ _ _ _ Hdecode)
    as (ts & ms & vbs & w & Ht & _ & _ & (A1 & _) & -> & _).
  cbn [Model.textures Model.setVertexBuffers]. rewrite A1. cbn.
  exact (read_textures_Ok _ _ _ _ Ht).
Qed.

Lemma decoded_textures_witness :
  exists texture_header_offset num_textures,
    word_at model_file 0x08 4 = Some texture_header_offset
    /\ word_at model_file (HGP.BODY_OFFSET + texture_header_offset + 0x08) 4
       = Some num_textures
    /\ Z.of_nat (length (Model.textures sample_model)) = num_textures
    /\ forall i t, Model.textures sample_model !! i = Some t ->
         exists texture_block_offset offset,
           word_at model_file (HGP.BODY_OFFSET + texture_header_offset) 4
           = Some texture_block_offset
           /\ word_at model_file (HGP.BODY_OFFSET + texture_header_offset + 0x1C
                                  + 20 * Z.of_nat i) 4 = Some offset
           /\ t = sample_DDSTexture model_file
                    (HGP.BODY_OFFSET + texture_header_offset
                     + texture_block_offset + 12 + offset).
Proof.
  apply (decoded_textures Z.mul 0 sample_Matrix_of_bytes sample_DDSTexture 0 3
           model_file sample_model []).
  vm_compute. reflexivity.
Defined.

(** ** A static mesh list without a mesh *)

(** The static (odd) slot of a layer is walked under
    [static_transform_matrices[0] * modelTransforms[0]] without a look at
    [num_meshes]: when the slot is set and the model has no mesh, so that
    the vector of transforms is empty, its entry 0 is read out of range,
    which is undefined, whatever the walker. *)
Theorem static_slot_without_meshes {Matrix Texture : Type}
    (Matrix_mul : Matrix -> Matrix -> Matrix) (Matrix_of_bytes : list byte -> Matrix)
    (walker : Z -> Matrix -> walk Matrix Texture -> result (walk Matrix Texture))
    (buf : list byte) (body layer_headers static_transform_matrices num_meshes : Z)
    (i j slot : Z) (w : walk Matrix Texture) :
  word_at buf (layer_headers + 20 * i + 4 + 4 * j) 4 = Some slot ->
  slot <> 0 ->
  j mod 2 <> 0 ->
  HGP.slot_body Matrix_mul Matrix_of_bytes walker buf body layer_headers
    static_transform_matrices num_meshes [] i j w
  = Fail Undefined.
Proof.
  intros Hslot Hne Hodd. apply load32_word_at in Hslot.
  unfold HGP.slot_body, HGP.mesh_header_list_offset. rewrite Hslot. cbn [bind].
  destruct (Z.eqb_spec slot 0); [contradiction|].
  destruct (Z.eqb_spec (j mod 2) 0); [contradiction|].
  unfold HGP.load_matrix, HGP.load.
  destruct (slice buf static_transform_matrices 64); reflexivity.
Qed.

Lemma static_slot_without_meshes_witness :
  HGP.slot_body Z.mul sample_Matrix_of_bytes
    (fun off t w => HGP.processMesh model_file HGP.BODY_OFFSET t 3 off w)
    model_file HGP.BODY_OFFSET (HGP.BODY_OFFSET + 0x344) (HGP.BODY_OFFSET + 0x304) 0
    [] 2 1 sample_walk
  = Fail Undefined.
Proof.
  apply (static_slot_without_meshes Z.mul sample_Matrix_of_bytes _ model_file
           HGP.BODY_OFFSET (HGP.BODY_OFFSET + 0x344) (HGP.BODY_OFFSET + 0x304) 0
           2 1 0x388 sample_walk).
  - reflexivity.
  - lia.
  - vm_compute. intros H; discriminate H.
Defined.

(** ** A file shorter than its header *)

(** Neither the length of the file nor what [fread] returns is looked at:
    when fewer than 28 bytes were read, the first field the constructor
    takes from the header, [model_header_offset] at 0x18, lies outside
    what was read, and reading it is undefined. *)
Theorem short_file_is_undefined {Matrix Texture : Type}
    (Matrix_mul : Matrix -> Matrix -> Matrix) (Matrix_default : Matrix)
    (Matrix_of_bytes : list byte -> Matrix) (DDSTexture : list byte -> Z -> Texture)
    (Texture_default : Texture) (fuel : nat) (f : HGP.FILE) :
  HGP.fseek_fails f = false ->
  (HGP.fread_count f < 28 \/ length (HGP.file_bytes f) < 28)%nat ->
  HGP.HGPModel Matrix_mul Matrix_default Matrix_of_bytes DDSTexture Texture_default
    fuel (Some f)
  = Fail Undefined.
Proof.
  intros Hseek Hshort. unfold HGP.HGPModel. rewrite Hseek.
  unfold HGP.decode, HGP.load32, HGP.load, HGP.file_header.
  destruct (slice _ (0 + 0x18) 4) as [bs|] eqn:E; [|reflexivity].
  apply slice_Some in E as (_ & Hhi & _).
  rewrite length_take in Hhi. lia.
Qed.

Lemma short_file_is_undefined_witness :
  sample_HGPModel 3
    (Some {| HGP.fseek_fails := false; HGP.file_bytes := model_file;
             HGP.fread_count := 27 |})
  = Fail Undefined.
Proof.
  apply (short_file_is_undefined Z.mul 0 sample_Matrix_of_bytes sample_DDSTexture 0 3
           {| HGP.fseek_fails := false; HGP.file_bytes := model_file;
              HGP.fread_count := 27 |}).
  - reflexivity.
  - left. cbn. lia.
Defined.
